(** * Roxy: a shallow embedding of the bot's cogs and their specification

    The development follows the layout of the repository: one module per
    cog ([cogs/prefix.py], [cogs/eng.py], [cogs/error_handler.py],
    [cogs/moderation.py], [cogs/power.py], [cogs/music.py]), one for the
    logger ([utils/katlog.py]) and one for the loader of the cogs
    ([main.py]).  The first part of the file holds the embedding, the second
    part the properties.

    Conventions of the embedding.
    - Python [int] is [Z]; snowflake identifiers (guild, user, channel,
      message) are [Z].
    - Python [str] is [string], a sequence of bytes.  [len], [lower] and
      [strip] are modelled on ASCII text: bytes above 127 are kept unchanged
      and counted one by one.
    - A SQLite table is the collection of its rows; a [PRIMARY KEY] over all
      columns makes it a finite set, an [AUTOINCREMENT] key is kept together
      with the sequence counter SQLite stores for it.
    - An [async] command is one atomic step: it takes the state of the cog
      and what the outside world answers during the call (reactions,
      messages, API failures) and returns the new state together with the
      trace of calls it made to the chat platform. *)

From Stdlib Require Import ZArith QArith Ascii String OrderedTypeEx.
From stdpp Require Import gmap strings list pretty sorting.

Open Scope string_scope.
Open Scope list_scope.
Open Scope Z_scope.

(** ** Messages, embeds and the trace of platform calls *)

Module Discord.

(** [nextcord.Color] constants used by the cogs. *)
Module Color.
Definition red : Z := 0xE74C3C.
Definition green : Z := 0x2ECC71.
Definition orange : Z := 0xE67E22.
Definition blue : Z := 0x3498DB.
Definition dark_red : Z := 0x992D22.
Definition purple : Z := 0x9B59B6.
Definition dark_purple : Z := 0x71368A.
Definition dark_teal : Z := 0x11806A.
Definition light_grey : Z := 0x979C9F.
End Color.

Definition nl : string := String "010"%char EmptyString.
Definition quote : string := String "034"%char EmptyString.

(** [sep.join(parts)] *)
Fixpoint join (sep : string) (parts : list string) : string :=
  match parts with
  | [] => ""
  | [p] => p
  | p :: rest => p +:+ sep +:+ join sep rest
  end.

(** [nextcord.Embed]: the parts the cogs fill in (timestamps left out). *)
Record embed := mk_embed {
  title : string;
  description : string;
  color : Z;
  author : option string;
  fields : list (string * string);
  footer : option string
}.

Definition Embed (t d : string) (c : Z) : embed :=
  {| title := t; description := d; color := c; author := None;
     fields := []; footer := None |}.

Definition add_field (name value : string) (e : embed) : embed :=
  {| title := title e; description := description e; color := color e;
     author := author e; fields := fields e ++ [(name, value)]; footer := footer e |}.

Definition set_footer (text : string) (e : embed) : embed :=
  {| title := title e; description := description e; color := color e;
     author := author e; fields := fields e; footer := Some text |}.

Definition set_author (name : string) (e : embed) : embed :=
  {| title := title e; description := description e; color := color e;
     author := Some name; fields := fields e; footer := footer e |}.

Definition set_description (d : string) (e : embed) : embed :=
  {| title := title e; description := d; color := color e;
     author := author e; fields := fields e; footer := footer e |}.

Definition set_color (c : Z) (e : embed) : embed :=
  {| title := title e; description := description e; color := c;
     author := author e; fields := fields e; footer := footer e |}.

Inductive message :=
| Text (content : string)
| Rich (e : embed).

Inductive log_level := DEBUG | INFO | WARNING | ERROR.

(** What a command does to the outside, in order. *)
(** [mafic.Track]: what the music cog reads of a track. *)
Record track := mk_track {
  identifier : string;
  track_title : string;
  uri : string
}.

Inductive event :=
| Print (line : string)                      (* print(...) on the console *)
| Log (lvl : log_level) (line : string)      (* utils.katlog.logger *)
| Send (m : message)                         (* await ctx.send(...) *)
| Typing                                     (* async with ctx.typing() *)
| GenerateContent (prompt : string)          (* model.generate_content_async *)
| WriteFile (path text : string)             (* open(path, "w").write(text) *)
| AddReaction (emoji : string)               (* message.add_reaction *)
| ClearReactions                             (* message.clear_reactions *)
| Edit (m : message)                         (* message.edit(embed=...) *)
| Delete                                     (* message.delete *)
| DirectMessage (user : Z) (m : message)     (* member.send *)
| ChannelSend (channel : Z) (m : message)    (* channel.send *)
| Kick (guild user : Z) (reason : string)    (* member.kick *)
| Ban (guild user : Z) (reason : string)     (* guild.ban *)
| Unban (guild user : Z) (reason : string)   (* guild.unban *)
| SetTimeout (guild user : Z) (until : option Q) (reason : string)  (* member.timeout *)
| Execv                                      (* os.execv(sys.executable, ...) *)
| Close                                      (* bot.close *)
| Play (guild : Z) (t : track)               (* player.play *)
| Disconnect (guild : Z).                    (* voice_client.disconnect *)

(** The calls that remove a member from a guild or end the process. *)
Definition removes_or_ends (e : event) : bool :=
  match e with
  | Kick _ _ _ | Ban _ _ _ | Execv | Close => true
  | _ => false
  end.

(** How a call to the platform ends. *)
Inductive api_result :=
| Done
| Forbidden
| NotFound
| HTTPException (text : string)
| OtherException (text : string).

(** The replies a trace shows to the user. *)
Definition replies (tr : list event) : list message :=
  omap (fun e => match e with Send m => Some m | _ => None end) tr.

(** Errors the command framework raises before or instead of running a
    command body; the classes [cogs/error_handler.py] tells apart. *)
Inductive command_error :=
| CommandNotFound
| NotOwner
| DisabledCommand
| CommandOnCooldown (retry_after scope rate : string)
| MaxConcurrencyReached (number scope : string)
| MissingRequiredArgument (param : string)
| MemberNotFound (argument : string)
| UserNotFound (argument : string)
| ChannelNotFound (argument : string)
| RoleNotFound (argument : string)
| EmojiNotFound (argument : string)
| MessageNotFound (argument : string)
| BadUnionArgument (param : string) (converters : list string) (text : string)
| BadArgument (param : option string) (text : string)
| UserInputError (param : option string) (text : string)
| NoPrivateMessage
| MissingPermissions (missing : list string)
| BotMissingPermissions (missing : list string)
| MissingRole (role : string)
| MissingAnyRole (roles : list string)
| BotMissingRole (role : string)
| BotMissingAnyRole (roles : list string)
| NSFWChannelRequired
| CheckFailure (text : string)
| CommandInvokeError (type_name text : string)
| CommandError (text : string).

End Discord.

Import Discord.

(** ** Python strings *)

Module Str.

Definition code (c : ascii) : Z := Z.of_N (N_of_ascii c).

Definition isupper (c : ascii) : bool := (65 <=? code c) && (code c <=? 90).
Definition islower (c : ascii) : bool := (97 <=? code c) && (code c <=? 122).
Definition isalpha (c : ascii) : bool := isupper c || islower c.

(** [str.isspace] on ASCII: tab, line feed, vertical tab, form feed,
    carriage return, the four separators 28 to 31 and the space. *)
Definition isspace (c : ascii) : bool :=
  ((9 <=? code c) && (code c <=? 13)) || ((28 <=? code c) && (code c <=? 32)).

Definition lower_char (c : ascii) : ascii :=
  if isupper c then ascii_of_N (N_of_ascii c + 32) else c.
Definition upper_char (c : ascii) : ascii :=
  if islower c then ascii_of_N (N_of_ascii c - 32) else c.

(** [s.lower()] *)
Fixpoint lower (s : string) : string :=
  match s with
  | EmptyString => EmptyString
  | String c s' => String (lower_char c) (lower s')
  end.

(** [s.lstrip()] *)
Fixpoint lstrip (s : string) : string :=
  match s with
  | EmptyString => EmptyString
  | String c s' => if isspace c then lstrip s' else s
  end.

(** [s.rstrip()] *)
Fixpoint rstrip (s : string) : string :=
  match s with
  | EmptyString => EmptyString
  | String c s' =>
      match rstrip s' with
      | EmptyString => if isspace c then EmptyString else String c EmptyString
      | r => String c r
      end
  end.

(** [s.strip()] *)
Definition strip (s : string) : string := rstrip (lstrip s).

(** [s.title()]: the first letter of every run of letters in upper case,
    the other letters in lower case. *)
Fixpoint title_from (inside : bool) (s : string) : string :=
  match s with
  | EmptyString => EmptyString
  | String c s' =>
      String (if isalpha c then (if inside then lower_char c else upper_char c) else c)
             (title_from (isalpha c) s')
  end.
Definition title : string -> string := title_from false.

(** [s.upper()] *)
Fixpoint upper (s : string) : string :=
  match s with
  | EmptyString => EmptyString
  | String c s' => String (upper_char c) (upper s')
  end.

(** [s.replace(old, new)] for a non-empty [old]: occurrences are taken from
    left to right; [skip] counts the characters of an occurrence still to be
    passed over. *)
Fixpoint replace_from (old new : string) (skip : nat) (s : string) : string :=
  match s with
  | EmptyString => EmptyString
  | String c s' =>
      match skip with
      | S k => replace_from old new k s'
      | O =>
          if String.prefix old s
          then new +:+ replace_from old new (String.length old - 1) s'
          else String c (replace_from old new O s')
      end
  end.
Definition replace (old new s : string) : string := replace_from old new O s.

(** [s.split(sep)] for a non-empty [sep]; [cur] is the part being read. *)
Fixpoint split_from (sep : string) (skip : nat) (cur : string) (s : string)
  : list string :=
  match s with
  | EmptyString => [cur]
  | String c s' =>
      match skip with
      | S k => split_from sep k cur s'
      | O =>
          if String.prefix sep s
          then cur :: split_from sep (String.length sep - 1) "" s'
          else split_from sep O (cur +:+ String c "") s'
      end
  end.
Definition split (sep s : string) : list string := split_from sep O "" s.

(** [sub in s] *)
Fixpoint contains (sub s : string) : bool :=
  String.prefix sub s ||
  match s with
  | EmptyString => false
  | String _ s' => contains sub s'
  end.

(** [s.startswith(pre)] *)
Definition startswith (pre s : string) : bool := String.prefix pre s.

(** [s[n:]] and [s[:n]] *)
Fixpoint drop (n : nat) (s : string) : string :=
  match n, s with
  | S k, String _ s' => drop k s'
  | _, _ => s
  end.
Fixpoint take (n : nat) (s : string) : string :=
  match n, s with
  | S k, String c s' => String c (take k s')
  | _, _ => EmptyString
  end.

(** Truth value of a string and of an optional string. *)
Definition truthy (s : string) : bool := negb (String.eqb s "").
Definition truthy_opt (o : option string) : bool :=
  match o with Some s => truthy s | None => false end.

(** [o or d] *)
Definition or_else (o : option string) (d : string) : string :=
  match o with Some s => if truthy s then s else d | None => d end.


End Str.

(** ** SQLite tables with an [INTEGER PRIMARY KEY AUTOINCREMENT] *)

Module Sqlite.

Section autoincrement.
Context {A : Type}.

(** The rows in insertion order, each with its key, and the entry of
    [sqlite_sequence]: the largest key the table ever held. *)
Record table := mk_table {
  seq : Z;
  rows : list (Z * A)
}.

Definition empty : table := {| seq := 0; rows := [] |}.

Definition max_rowid (rs : list (Z * A)) : Z :=
  foldr (fun r m => Z.max r.1 m) 0 rs.

(** The key of the next row: one more than the largest key that ever
    existed in the table. *)
Definition next_rowid (t : table) : Z :=
  Z.max (seq t) (max_rowid (rows t)) + 1.

(** [INSERT INTO t (columns) VALUES (...)]; returns [cursor.lastrowid]. *)
Definition insert (a : A) (t : table) : Z * table :=
  let k := next_rowid t in
  (k, {| seq := k; rows := rows t ++ [(k, a)] |}).

(** [SELECT * FROM t WHERE key = ?] then [fetchone()] *)
Definition select_by_rowid (k : Z) (t : table) : option (Z * A) :=
  snd <$> list_find (fun r => r.1 = k) (rows t).

(** A table that only ever saw insertions: its keys are 1, 2, ... in the
    order of the rows, and the counter is the last of them. *)
Definition sequential (t : table) : Prop :=
  seq t = Z.of_nat (length (rows t)) /\
  fst <$> rows t = Z.of_nat <$> List.seq 1 (length (rows t)).

(** The key of the previous row, 0 when there is none. *)
Definition last_rowid (t : table) : Z := default 0 (fst <$> last (rows t)).

End autoincrement.

Arguments table : clear implicits.

End Sqlite.

(** ** cogs/prefix.py *)

Module Prefix.

Definition default_prefix : string := "i.".

(** The cog: table [guild_prefixes] of db/prefixes.db, whose primary key is
    the whole row, and the in-memory [prefix_cache]. *)
Record cog := mk_cog {
  guild_prefixes : gset (Z * string);
  prefix_cache : gmap Z (gset string)
}.

Record context := mk_context {
  guild_id : Z;
  guild_name : string;
  administrator : bool
}.

(** [if guild_id not in cache: cache[guild_id] = set()] then
    [cache[guild_id].add(prefix_val)] *)
Definition cache_add (g : Z) (p : string) (c : gmap Z (gset string))
  : gmap Z (gset string) :=
  <[g := default ∅ (c !! g) ∪ {[p]}]> c.

(** [load_prefixes]: the loop over [cursor.fetchall()]. *)
Definition load_prefixes (rows : list (Z * string)) : gmap Z (gset string) :=
  foldl (fun c row => cache_add row.1 row.2 c) ∅ rows.

(** [__init__]: the cache is loaded from the table. *)
Definition init (table : gset (Z * string)) : cog :=
  {| guild_prefixes := table; prefix_cache := load_prefixes (elements table) |}.

(** [get_prefix]; [guild] is [None] in a direct message.  The result is
    the prefix or the prefixes the framework accepts. *)
Definition get_prefix (guild : option Z) (s : cog) : list string :=
  match guild with
  | None => [default_prefix]
  | Some g =>
      match prefix_cache s !! g with
      | Some ps => if decide (ps = ∅) then [default_prefix]
                   else default_prefix :: elements ps
      | None => [default_prefix]
      end
  end.

(** [add_prefix_to_db].  [fault] is the [sqlite3.Error] the database raises,
    if it does. *)
Definition add_prefix_to_db (fault : option string) (g : Z) (p : string) (s : cog)
  : bool * list event * cog :=
  match fault with
  | Some e => (false, [Print ("Database error: " +:+ e)], s)
  | None =>
      if decide ((g, p) ∈ guild_prefixes s) then (false, [], s)
      else (true, [],
            {| guild_prefixes := guild_prefixes s ∪ {[(g, p)]};
               prefix_cache := cache_add g p (prefix_cache s) |})
  end.

(** [remove_prefix_from_db]: [cursor.rowcount > 0] when the row was there. *)
Definition remove_prefix_from_db (fault : option string) (g : Z) (p : string) (s : cog)
  : bool * list event * cog :=
  match fault with
  | Some e => (false, [Print ("Database error: " +:+ e)], s)
  | None =>
      let table := guild_prefixes s ∖ {[(g, p)]} in
      if decide ((g, p) ∈ guild_prefixes s) then
        (true, [],
         {| guild_prefixes := table;
            prefix_cache :=
              match prefix_cache s !! g with
              | Some ps =>
                  if decide (p ∈ ps) then <[g := ps ∖ {[p]}]> (prefix_cache s)
                  else prefix_cache s
              | None => prefix_cache s
              end |})
      else (false, [], {| guild_prefixes := table; prefix_cache := prefix_cache s |})
  end.

(** [get_all_prefixes] *)
Definition get_all_prefixes (g : Z) (s : cog) : list string :=
  match prefix_cache s !! g with
  | Some ps => default_prefix :: elements ps
  | None => [default_prefix]
  end.

(** A command either runs and leaves a trace, or is refused by one of its
    checks. *)
Definition outcome : Type := (option command_error * list event) * cog.

Definition has_permissions_administrator (ctx : context)
    (body : cog -> list event * cog) (s : cog) : outcome :=
  if administrator ctx then let r := body s in ((None, r.1), r.2)
  else ((Some (MissingPermissions ["administrator"]), []), s).

(** [prefix add] *)
Definition add_new_prefix_body (fault : option string) (ctx : context)
    (new_prefix : string) (s : cog) : list event * cog :=
  if decide (new_prefix = "") then
    ([Send (Text "Prefix cannot be empty.")], s)
  else if decide (10 < Z.of_nat (String.length new_prefix)) then
    ([Send (Text "Prefix is too long. Maximum length is 10 characters.")], s)
  else
    let prefixes := get_all_prefixes (guild_id ctx) s in
    if decide (10 <= Z.of_nat (length prefixes)) then
      ([Send (Text "Maximum number of custom prefixes reached (9). Please remove some before adding more.")], s)
    else if decide (new_prefix = default_prefix /\ default_prefix ∈ prefixes) then
      ([Send (Text ("Prefix `" +:+ new_prefix +:+
                    "` is the default prefix and cannot be added again."))], s)
    else
      let '(success, tr, s') := add_prefix_to_db fault (guild_id ctx) new_prefix s in
      if success then
        (tr ++ [Send (Text ("Prefix `" +:+ new_prefix +:+ "` added successfully."))], s')
      else
        (tr ++ [Send (Text ("Prefix `" +:+ new_prefix +:+ "` already exists."))], s').

Definition add_new_prefix (fault : option string) (ctx : context)
    (new_prefix : string) : cog -> outcome :=
  has_permissions_administrator ctx (add_new_prefix_body fault ctx new_prefix).

(** [prefix remove] *)
Definition remove_existing_prefix_body (fault : option string) (ctx : context)
    (prefix_to_remove : string) (s : cog) : list event * cog :=
  if decide (prefix_to_remove = default_prefix) then
    ([Send (Text ("Cannot remove the default prefix `" +:+ default_prefix +:+ "`."))], s)
  else
    let '(success, tr, s') :=
      remove_prefix_from_db fault (guild_id ctx) prefix_to_remove s in
    if success then
      (tr ++ [Send (Text ("Prefix `" +:+ prefix_to_remove +:+ "` removed successfully."))], s')
    else
      (tr ++ [Send (Text ("Prefix `" +:+ prefix_to_remove +:+
                          "` not found or is not a custom prefix."))], s').

Definition remove_existing_prefix (fault : option string) (ctx : context)
    (prefix_to_remove : string) : cog -> outcome :=
  has_permissions_administrator ctx (remove_existing_prefix_body fault ctx prefix_to_remove).

(** [prefix clear] *)
Definition clear_all_prefixes_body (fault : option string) (ctx : context) (s : cog)
  : list event * cog :=
  match fault with
  | Some e => ([Send (Text ("Error clearing prefixes: " +:+ e))], s)
  | None =>
      ([Send (Text ("All custom prefixes removed. Using default prefix `" +:+
                    default_prefix +:+ "`."))],
       {| guild_prefixes :=
            filter (fun row => row.1 ≠ guild_id ctx) (guild_prefixes s);
          prefix_cache :=
            match prefix_cache s !! guild_id ctx with
            | Some _ => <[guild_id ctx := ∅]> (prefix_cache s)
            | None => prefix_cache s
            end |})
  end.

Definition clear_all_prefixes (fault : option string) (ctx : context) : cog -> outcome :=
  has_permissions_administrator ctx (clear_all_prefixes_body fault ctx).

(** [prefix list] *)
Definition list_prefixes (ctx : context) (s : cog) : outcome :=
  let current_prefixes := get_all_prefixes (guild_id ctx) s in
  if decide (current_prefixes = [default_prefix]) then
    ((None, [Send (Text ("Only the default prefix is active: `" +:+
                         default_prefix +:+ "`"))]), s)
  else
    let prefix_list_str :=
      join nl (map (fun p => "• `" +:+ p +:+ "`" +:+
                             (if decide (p = default_prefix) then " (default)" else ""))
                   current_prefixes) in
    ((None, [Send (Rich (Embed ("Prefixes for " +:+ guild_name ctx)
                           ("The following prefixes are active:" +:+ nl +:+ prefix_list_str)
                           0x3498DB))]), s).

(** [on_guild_remove] *)
Definition on_guild_remove (fault : option string) (g : Z) (s : cog) : list event * cog :=
  match fault with
  | Some e =>
      ([Print ("Error cleaning up prefixes for guild " +:+ pretty g +:+ ": " +:+ e)], s)
  | None =>
      ([], {| guild_prefixes := filter (fun row => row.1 ≠ g) (guild_prefixes s);
              prefix_cache := delete g (prefix_cache s) |})
  end.

(** The administrative operations of the [prefix] group. *)
Inductive operation :=
| Add (new_prefix : string)
| Remove (prefix_to_remove : string)
| Clear.

Record invocation := mk_invocation {
  inv_ctx : context;
  inv_fault : option string;
  inv_op : operation
}.

Definition run (i : invocation) (s : cog) : outcome :=
  match inv_op i with
  | Add p => add_new_prefix (inv_fault i) (inv_ctx i) p s
  | Remove p => remove_existing_prefix (inv_fault i) (inv_ctx i) p s
  | Clear => clear_all_prefixes (inv_fault i) (inv_ctx i) s
  end.

Definition run_all (invs : list invocation) (s : cog) : cog :=
  foldl (fun st i => (run i st).2) s invs.

(** The custom prefixes stored for a guild. *)
Definition stored (g : Z) (s : cog) : gset string :=
  set_map snd (filter (fun row : Z * string => row.1 = g) (guild_prefixes s)).

(** A command is rejected when it is refused by a check or answers anything
    other than its success message. *)
Definition success_message (o : operation) : string :=
  match o with
  | Add p => "Prefix `" +:+ p +:+ "` added successfully."
  | Remove p => "Prefix `" +:+ p +:+ "` removed successfully."
  | Clear => "All custom prefixes removed. Using default prefix `" +:+
             default_prefix +:+ "`."
  end.

Definition rejected (i : invocation) (s : cog) : Prop :=
  Send (Text (success_message (inv_op i))) ∉ (run i s).1.2.

(** The cache mirrors the table: for every guild the cached set (empty when
    the guild has no entry) is the set of stored prefixes. *)
Definition in_sync (s : cog) : Prop :=
  forall g, default ∅ (prefix_cache s !! g) = stored g s.

Definition max_reached : string :=
  "Maximum number of custom prefixes reached (9). Please remove some before adding more.".

Definition an_admin : context := mk_context 1 "guild" true.

Definition bounded (s : cog) : Prop := forall g, (size (stored g s) <= 9)%nat.

(** A guild with nine custom prefixes. *)
Definition nine_prefixes : gset (Z * string) :=
  list_to_set [(1, "1"); (1, "2"); (1, "3"); (1, "4"); (1, "5");
               (1, "6"); (1, "7"); (1, "8"); (1, "9")].

Definition well_formed (s : cog) : Prop :=
  forall g p, (g, p) ∈ guild_prefixes s ->
              p <> "" /\ (String.length p <= 10)%nat /\ p <> default_prefix.

Definition added (p : string) : string := "Prefix `" +:+ p +:+ "` added successfully.".

Definition removed (p : string) : string := "Prefix `" +:+ p +:+ "` removed successfully.".

End Prefix.

(** ** cogs/error_handler.py *)

Module ErrorHandler.

Definition ERROR_LOG_DIR : string := "errors".
Definition DEV_CONTACT_INFO : string := "the bot developer or support server".

Definition ERROR_COLOR : Z := Color.red.
Definition WARN_COLOR : Z := Color.orange.
Definition INFO_COLOR : Z := Color.blue.

Definition TITLE_MISSING_ARGUMENT : string := "❌ Missing Argument".
Definition TITLE_INVALID_ARGUMENT : string := "❌ Invalid Argument".
Definition TITLE_CONVERSION_ERROR : string := "⚠️ Input Error".
Definition TITLE_MISSING_PERMISSIONS : string := "🚫 Missing Permissions".
Definition TITLE_BOT_MISSING_PERMISSIONS : string := "🤖 Bot Missing Permissions".
Definition TITLE_CHECK_FAILED : string := "🚫 Check Failed".
Definition TITLE_MISSING_ROLE : string := "🚫 Missing Role(s)".
Definition TITLE_BOT_MISSING_ROLE : string := "🤖 Bot Missing Role(s)".
Definition TITLE_SERVER_ONLY : string := "🚫 Server Only Command".
Definition TITLE_COMMAND_DISABLED : string := "⚙️ Command Disabled".
Definition TITLE_COOLDOWN : string := "⏳ Cooldown!".
Definition TITLE_MAX_CONCURRENCY : string := "🚦 Command Busy".
Definition TITLE_NSFW_REQUIRED : string := "🔞 NSFW Channel Required".
Definition TITLE_UNEXPECTED_ERROR : string := "🔥 Unexpected Error".

(** What the handler reads of [ctx.command]: [on_error] is set when the
    command has a local handler ([@command.error]); [cog_command_error] is
    [None] for a command outside any cog and otherwise tells whether the
    cog overrides [cog_command_error]. *)
Record command := mk_command {
  qualified_name : string;
  signature : string;
  on_error : bool;
  cog_command_error : option bool
}.

Record context := mk_context {
  author_id : Z;
  author : string;
  display_name : string;
  guild : option (Z * string);
  channel_id : Z;
  channel_name : string;
  content : string;
  clean_prefix : string;
  invoked_with : string;
  ctx_command : option command;
  current_parameter : option string;
  bot_user_name : string
}.

(** What the handler takes from outside for an unclassified error: the
    fresh [uuid4], the clock, the formatted traceback, and the [IOError]
    of the log file if writing it fails. *)
Record environment := mk_environment {
  error_id : string;
  utcnow : string;
  traceback : string;
  io_error : option string
}.

Definition command_name (ctx : context) : string :=
  match ctx_command ctx with
  | Some c => qualified_name c
  | None => invoked_with ctx
  end.

(** [_get_command_invocation_string] *)
Definition _get_command_invocation_string (ctx : context) : string :=
  let prefix := clean_prefix ctx in
  let command_display_name := command_name ctx in
  let prefix_and_command := prefix +:+ invoked_with ctx in
  let args_part :=
    if Str.truthy (content ctx) then
      if Str.startswith prefix_and_command (content ctx) then
        Str.strip (Str.drop (String.length prefix_and_command) (content ctx))
      else ""
    else "" in
  let full_invocation :=
    "`" +:+ prefix +:+ command_display_name +:+
    (if Str.truthy args_part then " " +:+ args_part else "") +:+ "`" in
  if decide (1020 < Z.of_nat (String.length full_invocation)) then
    Str.take 1020 full_invocation +:+ "...`"
  else full_invocation.

Definition location (ctx : context) : string :=
  match guild ctx with
  | Some (gid, gname) =>
      "Guild: " +:+ gname +:+ " (" +:+ pretty gid +:+ ")" +:+ nl +:+
      "Channel: #" +:+ channel_name ctx +:+ " (" +:+ pretty (channel_id ctx) +:+ ")"
  | None => "Direct Message"
  end.

(** [create_base_embed] *)
Definition create_base_embed (ctx : context) (title : string) (color : Z) : embed :=
  set_footer ("Bot: " +:+ bot_user_name ctx)
    (add_field "Location" (location ctx)
       (add_field "Command Triggered" (_get_command_invocation_string ctx)
          (set_author (display_name ctx +:+ " (" +:+ pretty (author_id ctx) +:+ ")")
             (Embed title "" color)))).

(** [type(error).__name__] *)
Definition class_name (error : command_error) : string :=
  match error with
  | CommandNotFound => "CommandNotFound"
  | NotOwner => "NotOwner"
  | DisabledCommand => "DisabledCommand"
  | CommandOnCooldown _ _ _ => "CommandOnCooldown"
  | MaxConcurrencyReached _ _ => "MaxConcurrencyReached"
  | MissingRequiredArgument _ => "MissingRequiredArgument"
  | MemberNotFound _ => "MemberNotFound"
  | UserNotFound _ => "UserNotFound"
  | ChannelNotFound _ => "ChannelNotFound"
  | RoleNotFound _ => "RoleNotFound"
  | EmojiNotFound _ => "EmojiNotFound"
  | MessageNotFound _ => "MessageNotFound"
  | BadUnionArgument _ _ _ => "BadUnionArgument"
  | BadArgument _ _ => "BadArgument"
  | UserInputError _ _ => "UserInputError"
  | NoPrivateMessage => "NoPrivateMessage"
  | MissingPermissions _ => "MissingPermissions"
  | BotMissingPermissions _ => "BotMissingPermissions"
  | MissingRole _ => "MissingRole"
  | MissingAnyRole _ => "MissingAnyRole"
  | BotMissingRole _ => "BotMissingRole"
  | BotMissingAnyRole _ => "BotMissingAnyRole"
  | NSFWChannelRequired => "NSFWChannelRequired"
  | CheckFailure _ => "CheckFailure"
  | CommandInvokeError _ _ => "CommandInvokeError"
  | CommandError _ => "CommandError"
  end.

(** [type(original_error).__name__] and [str(original_error)], where
    [original_error = getattr(error, "original", error)]. *)
Definition original_type (error : command_error) : string :=
  match error with
  | CommandInvokeError type_name _ => type_name
  | _ => class_name error
  end.
Definition original_text (error : command_error) : string :=
  match error with
  | CommandInvokeError _ text | CommandError text | CheckFailure text
  | BadArgument _ text | UserInputError _ text | BadUnionArgument _ _ text => text
  | _ => ""
  end.

Definition repr_list (l : list string) : string :=
  "[" +:+ join ", " (map (fun x => "'" +:+ x +:+ "'") l) +:+ "]".

Definition code_block (text : string) : string :=
  "```" +:+ nl +:+ text +:+ nl +:+ "```".

(** The "Correct Usage" field, added when [ctx.command] is set. *)
Definition with_usage (ctx : context) (e : embed) : embed :=
  match ctx_command ctx with
  | Some c =>
      let signature :=
        Str.strip (clean_prefix ctx +:+ qualified_name c +:+ " " +:+ signature c) in
      add_field "Correct Usage" (code_block signature) e
  | None => e
  end.

Definition perms (missing : list string) : list string :=
  map (fun p => "`" +:+ Str.title (Str.replace "_" " " p) +:+ "`") missing.

(** [_log_unhandled_error_to_file] *)
Definition _log_unhandled_error_to_file (env : environment) (ctx : context)
    (error : command_error) (log_prefix_str : string) : list event :=
  let log_file_path := ERROR_LOG_DIR +:+ "/" +:+ error_id env +:+ ".log" in
  let location_log_str :=
    match guild ctx with
    | Some (gid, gname) =>
        "Guild: " +:+ gname +:+ " (" +:+ pretty gid +:+ "), Channel: #" +:+
        channel_name ctx +:+ " (" +:+ pretty (channel_id ctx) +:+ ")"
    | None => "Direct Message"
    end in
  let detailed_log_message :=
    "Timestamp: " +:+ utcnow env +:+ "Z" +:+ nl +:+
    "Error ID: " +:+ error_id env +:+ nl +:+
    "User: " +:+ author ctx +:+ " (" +:+ pretty (author_id ctx) +:+ ")" +:+ nl +:+
    "Command Name: " +:+ command_name ctx +:+ nl +:+
    "Invoked With: " +:+ invoked_with ctx +:+ nl +:+
    "Clean Prefix: " +:+ clean_prefix ctx +:+ nl +:+
    "Raw Message Content: " +:+ content ctx +:+ nl +:+
    "Location: " +:+ location_log_str +:+ nl +:+
    "Error Type: " +:+ original_type error +:+ nl +:+
    "Error Message: " +:+ original_text error +:+ nl +:+ nl +:+
    "--- Traceback ---" +:+ nl +:+ traceback env in
  let head :=
    log_prefix_str +:+ "Unhandled Exception | Error ID: " +:+ error_id env +:+
    " | Type: " +:+ original_type error in
  match io_error env with
  | None =>
      [WriteFile log_file_path detailed_log_message;
       Log ERROR (head +:+ ". Details logged to: " +:+ log_file_path)]
  | Some e =>
      [Log ERROR (head +:+ ". FAILED TO WRITE TO LOG FILE " +:+ log_file_path +:+ ": " +:+ e);
       Log ERROR ("Fallback Log for Error ID " +:+ error_id env +:+
                  " (due to file write failure):" +:+ nl +:+ detailed_log_message)]
  end.

(** The head of every console line of the handler. *)
Definition log_prefix_katlog (ctx : context) : string :=
  "Usr:" +:+ pretty (author_id ctx) +:+ " | Cmd:'" +:+ command_name ctx +:+
  "' | Gld:" +:+ match guild ctx with Some (gid, _) => pretty gid | None => "DM" end +:+
  " | Chn:" +:+ pretty (channel_id ctx) +:+ " | ".

(** [ErrorHandler.on_command_error] *)
Definition on_command_error (env : environment) (ctx : context) (error : command_error)
  : list event :=
  if match ctx_command ctx with Some c => on_error c | None => false end then []
  else if match ctx_command ctx with
          | Some c => default false (cog_command_error c)
          | None => false
          end then []
  else
    let command_name := command_name ctx in
    let display_prefix := clean_prefix ctx in
    let log_prefix_katlog := log_prefix_katlog ctx in
    match error with
    | CommandNotFound =>
        [Log INFO (log_prefix_katlog +:+ "CommandNotFound: Invoked with '" +:+
                   invoked_with ctx +:+ "', Full: '" +:+ content ctx +:+ "'")]
    | NotOwner =>
        [Log WARNING (log_prefix_katlog +:+ "NotOwner: Attempt by non-owner.")]
    | DisabledCommand =>
        let embed :=
          set_description ("The command `" +:+ command_name +:+ "` is currently disabled.")
            (create_base_embed ctx TITLE_COMMAND_DISABLED INFO_COLOR) in
        [Log WARNING (log_prefix_katlog +:+
                      "DisabledCommand: User tried to use disabled command.");
         Send (Rich embed)]
    | CommandOnCooldown retry_after scope rate =>
        let embed :=
          add_field "Rate" rate
            (add_field "Cooldown Scope" ("Per `" +:+ scope +:+ "`")
               (set_description
                  ("This command is on cooldown." +:+ nl +:+ "Please try again in **" +:+
                   retry_after +:+ " seconds**.")
                  (create_base_embed ctx TITLE_COOLDOWN INFO_COLOR))) in
        [Log INFO (log_prefix_katlog +:+ "CommandOnCooldown: " +:+ retry_after +:+
                   "s left (Scope: " +:+ scope +:+ ")");
         Send (Rich embed)]
    | MaxConcurrencyReached number scope =>
        let embed :=
          add_field "Scope" ("Per `" +:+ scope +:+ "`")
            (add_field "Limit" (number +:+ " concurrent use(s)")
               (set_description
                  ("The command `" +:+ command_name +:+
                   "` has reached its maximum concurrent usage limit. Please wait and try again.")
                  (create_base_embed ctx TITLE_MAX_CONCURRENCY WARN_COLOR))) in
        [Log WARNING (log_prefix_katlog +:+ "MaxConcurrencyReached: Limit " +:+
                      number +:+ "/" +:+ scope);
         Send (Rich embed)]
    | MissingRequiredArgument param_name =>
        let embed :=
          with_usage ctx
            (set_description ("You missed the required argument: `" +:+ param_name +:+ "`.")
               (create_base_embed ctx TITLE_MISSING_ARGUMENT WARN_COLOR)) in
        [Log WARNING (log_prefix_katlog +:+ "MissingRequiredArgument: " +:+ param_name);
         Send (Rich embed)]
    | MemberNotFound argument | UserNotFound argument =>
        let entity := match error with MemberNotFound _ => "member" | _ => "user" end in
        let embed :=
          set_description ("Could not find a " +:+ entity +:+ " matching `" +:+ argument +:+ "`.")
            (create_base_embed ctx TITLE_CONVERSION_ERROR WARN_COLOR) in
        [Log WARNING (log_prefix_katlog +:+ class_name error +:+ ": Argument '" +:+
                      argument +:+ "'");
         Send (Rich embed)]
    | ChannelNotFound argument | RoleNotFound argument
    | EmojiNotFound argument | MessageNotFound argument =>
        let entity :=
          match error with
          | ChannelNotFound _ => "channel"
          | RoleNotFound _ => "role"
          | EmojiNotFound _ => "emoji"
          | MessageNotFound _ => "message"
          | _ => "item"
          end in
        let embed :=
          set_description ("Could not find a " +:+ entity +:+ " matching `" +:+ argument +:+ "`.")
            (create_base_embed ctx TITLE_CONVERSION_ERROR WARN_COLOR) in
        [Log WARNING (log_prefix_katlog +:+ class_name error +:+ ": Argument '" +:+
                      argument +:+ "'");
         Send (Rich embed)]
    | BadUnionArgument param_name types_expected text =>
        let embed :=
          with_usage ctx
            (add_field "Expected one of" ("`" +:+ join "`, `" types_expected +:+ "`")
               (set_description ("The argument `" +:+ param_name +:+ "` was not a valid type.")
                  (create_base_embed ctx TITLE_INVALID_ARGUMENT WARN_COLOR))) in
        [Log WARNING (log_prefix_katlog +:+ "BadUnionArgument for " +:+ param_name +:+
                      ": " +:+ text);
         Send (Rich embed)]
    | BadArgument param error_details | UserInputError param error_details =>
        let param_name_str :=
          match param with
          | Some n => Some n
          | None => current_parameter ctx
          end in
        let embed :=
          with_usage ctx
            (add_field "Reason"
               (if decide (Z.of_nat (String.length error_details) < 1000)
                then code_block error_details
                else "Invalid input provided (details too long).")
               (set_description
                  ("The value provided " +:+
                   match param_name_str with
                   | Some n => "for argument `" +:+ n +:+ "` "
                   | None => ""
                   end +:+ "was not valid.")
                  (create_base_embed ctx TITLE_INVALID_ARGUMENT WARN_COLOR))) in
        [Log WARNING (log_prefix_katlog +:+ "BadArgument/UserInputError: " +:+ error_details);
         Send (Rich embed)]
    | NoPrivateMessage =>
        let embed :=
          set_description ("The command `" +:+ command_name +:+
                           "` can only be used within a server.")
            (create_base_embed ctx TITLE_SERVER_ONLY WARN_COLOR) in
        [Log WARNING (log_prefix_katlog +:+ "NoPrivateMessage: Command used in DM.");
         Send (Rich embed)]
    | MissingPermissions missing_permissions =>
        let embed :=
          set_description ("You lack the required permission(s) to run this command:" +:+ nl +:+
                           join ", " (perms missing_permissions))
            (create_base_embed ctx TITLE_MISSING_PERMISSIONS WARN_COLOR) in
        [Log WARNING (log_prefix_katlog +:+ "MissingPermissions: User lacks " +:+
                      repr_list missing_permissions);
         Send (Rich embed)]
    | BotMissingPermissions missing_permissions =>
        let embed :=
          add_field "Required By" ("Command `" +:+ command_name +:+ "`.")
            (set_description
               ("I lack the required permission(s) to perform this action:" +:+ nl +:+
                join ", " (perms missing_permissions))
               (create_base_embed ctx TITLE_BOT_MISSING_PERMISSIONS ERROR_COLOR)) in
        [Log ERROR (log_prefix_katlog +:+ "BotMissingPermissions: Bot lacks " +:+
                    repr_list missing_permissions);
         Send (Rich embed)]
    | MissingRole _ | MissingAnyRole _ =>
        let missing_roles_input :=
          match error with
          | MissingRole r => [r]
          | MissingAnyRole rs => rs
          | _ => ["Unknown Role"]
          end in
        let role_mentions := map (fun r => "`" +:+ r +:+ "`") missing_roles_input in
        let conjunction := match error with MissingAnyRole _ => "any of" | _ => "" end in
        let embed :=
          set_description ("You need " +:+ conjunction +:+
                           " the following role(s) to use this command: " +:+
                           join ", " role_mentions)
            (create_base_embed ctx TITLE_MISSING_ROLE WARN_COLOR) in
        [Log WARNING (log_prefix_katlog +:+ "MissingRole/MissingAnyRole: User lacks " +:+
                      repr_list missing_roles_input);
         Send (Rich embed)]
    | BotMissingRole _ | BotMissingAnyRole _ =>
        let missing_roles_input :=
          match error with
          | BotMissingRole r => [r]
          | BotMissingAnyRole rs => rs
          | _ => ["Unknown Role"]
          end in
        let role_mentions := map (fun r => "`" +:+ r +:+ "`") missing_roles_input in
        let conjunction := match error with BotMissingAnyRole _ => "any of" | _ => "" end in
        let embed :=
          add_field "Required By" ("Command `" +:+ command_name +:+ "`.")
            (set_description ("I need " +:+ conjunction +:+
                              " the following role(s) to perform this action: " +:+
                              join ", " role_mentions)
               (create_base_embed ctx TITLE_BOT_MISSING_ROLE ERROR_COLOR)) in
        [Log ERROR (log_prefix_katlog +:+ "BotMissingRole/BotMissingAnyRole: Bot lacks " +:+
                    repr_list missing_roles_input);
         Send (Rich embed)]
    | NSFWChannelRequired =>
        let embed :=
          set_description ("The command `" +:+ command_name +:+
                           "` can only be used in a channel marked as NSFW.")
            (create_base_embed ctx TITLE_NSFW_REQUIRED WARN_COLOR) in
        [Log WARNING (log_prefix_katlog +:+ "NSFWChannelRequired: Channel " +:+
                      channel_name ctx +:+ " (" +:+ pretty (channel_id ctx) +:+
                      ") is not NSFW.");
         Send (Rich embed)]
    | CheckFailure text =>
        let check_details :=
          if Str.truthy text then text
          else "You do not meet the necessary conditions to run this command." in
        let embed :=
          set_description check_details
            (create_base_embed ctx TITLE_CHECK_FAILED WARN_COLOR) in
        [Log WARNING (log_prefix_katlog +:+ "Generic CheckFailure (" +:+ class_name error +:+
                      "): " +:+ check_details);
         Send (Rich embed)]
    | CommandInvokeError _ _ | CommandError _ =>
        let embed :=
          add_field "Error Type" ("`" +:+ original_type error +:+ "`")
            (add_field "Error ID" ("`" +:+ error_id env +:+ "`")
               (set_description
                  ("An unexpected internal error occurred. This issue has been logged." +:+ nl +:+
                   "If this persists, please report it to " +:+ DEV_CONTACT_INFO +:+ ".")
                  (create_base_embed ctx TITLE_UNEXPECTED_ERROR ERROR_COLOR))) in
        _log_unhandled_error_to_file env ctx error log_prefix_katlog ++ [Send (Rich embed)]
    end.

(** The line the handler logs for an unknown command. *)
Definition not_found_line (ctx : context) : string :=
  log_prefix_katlog ctx +:+ "CommandNotFound: Invoked with '" +:+ invoked_with ctx +:+
  "', Full: '" +:+ content ctx +:+ "'".

(** The reply to a missing argument: the base embed with the description
    naming the parameter and the field "Correct Usage" showing the
    signature. *)
Definition usage_hint (ctx : context) (c : command) (param : string) : embed :=
  add_field "Correct Usage"
    (code_block (Str.strip (clean_prefix ctx +:+ qualified_name c +:+ " " +:+ signature c)))
    (set_description ("You missed the required argument: `" +:+ param +:+ "`.")
       (create_base_embed ctx TITLE_MISSING_ARGUMENT WARN_COLOR)).

(** The command [play] of the music cog, which overrides [cog_command_error],
    and the command [kick] of the moderation cog, which does not. *)
Definition play_command : command := mk_command "play" "<query>" false (Some true).

Definition kick_command : command := mk_command "kick" "<member> [reason]" false (Some false).

Definition a_message (text invoked : string) (c : option command) : context :=
  mk_context 7 "alice#0001" "alice" (Some (1, "guild")) 20 "general" text "i." invoked c
             None "Roxy".

Definition an_environment : environment :=
  mk_environment "00000000-0000-4000-8000-000000000000" "2025-01-01T00:00:00" "" None.

(** The handler deals with the error itself: the command has no handler of
    its own and its cog does not override [cog_command_error]. *)
Definition handled_globally (ctx : context) : Prop :=
  match ctx_command ctx with
  | Some c => on_error c = false /\ cog_command_error c <> Some true
  | None => True
  end.

Definition restart_command_record : command := mk_command "restart" "" false (Some false).

End ErrorHandler.

(** ** cogs/eng.py *)

Module Eng.

(** [utils/config.py] and [utils/prompts.py] are not part of the sources
    at hand: the credential and the three prompt templates (each applied
    to the text it formats) are parameters. *)
Record config := mk_config {
  GEMINI_API_KEY : option string;
  CHECK_GRAMMAR_PROMPT : string -> string;
  DAILY_WORD_EXAMPLE_PROMPT : string -> string;
  TRANSLATE_PROMPT : string -> string
}.

(** [if not GEMINI_API_KEY]: no key, or an empty one. *)
Definition no_credential (cfg : config) : bool :=
  negb (Str.truthy_opt (GEMINI_API_KEY cfg)).

Record daily_word_entry := mk_entry {
  eng : string;
  thai : string;
  def : string
}.

(** The cog: whether [self.model] is set, the table [vocabulary]
    ([id] key, then [user_id] and [word], unique together), and the list of
    daily words. *)
Record cog := mk_cog {
  model : bool;
  vocabulary : Sqlite.table (Z * string);
  daily_words_list : list daily_word_entry
}.

Record context := mk_context {
  author_id : Z;
  display_name : string;
  prefix : string
}.

(** The completion endpoint: the text of the response, or the exception. *)
Inductive response :=
| Answer (text : string)
| Failure (e : string).

Definition endpoint : Type := string -> response.

(** [_initialize_model]; [loaded] tells whether [genai.GenerativeModel]
    returns (or else the exception it raises). *)
Definition _initialize_model (cfg : config) (loaded : option string) : list event * bool :=
  if no_credential cfg then ([], false)
  else match loaded with
       | None =>
           ([Print "โมเดล Gemini 'gemini-1.5-flash' โหลดสำเร็จแล้ว (Gemini model loaded successfully)."],
            true)
       | Some e => ([Print ("ERROR: Could not load Gemini model: " +:+ e)], false)
       end.

Definition default_words : list daily_word_entry :=
  [ mk_entry "diligent" "ขยันหมั่นเพียร"
      "Showing care and conscientiousness in one's work or duties.";
    mk_entry "ubiquitous" "มีอยู่ทุกหนทุกแห่ง"
      "Present, appearing, or found everywhere." ].

(** [json.dump(words, f, indent=4, ensure_ascii=False)], for words without
    characters that JSON escapes. *)
Definition json_dump (words : list daily_word_entry) : string :=
  let pair (key value : string) : string :=
    "        " +:+ quote +:+ key +:+ quote +:+ ": " +:+ quote +:+ value +:+ quote in
  let object (w : daily_word_entry) : string :=
    "    {" +:+ nl +:+
    pair "eng" (eng w) +:+ "," +:+ nl +:+
    pair "thai" (thai w) +:+ "," +:+ nl +:+
    pair "def" (def w) +:+ nl +:+
    "    }" in
  match words with
  | [] => "[]"
  | _ => "[" +:+ nl +:+ join ("," +:+ nl) (map object words) +:+ nl +:+ "]"
  end.

(** [_load_daily_words]; [file] is the content of db/daily_words.json when
    it is there and well formed. *)
Definition _load_daily_words (file : option (list daily_word_entry))
  : list event * list daily_word_entry :=
  match file with
  | Some ws => ([], ws)
  | None =>
      ([Print "WARNING: Could not load db/daily_words.json. Creating a default file.";
        WriteFile "db/daily_words.json" (json_dump default_words)],
       default_words)
  end.

(** [EnglishLearning.__init__]: [stored] is the table found in
    db/vocabulary.db (the empty one when the file is new). *)
Definition __init__ (cfg : config) (loaded : option string)
    (stored : Sqlite.table (Z * string)) (file : option (list daily_word_entry))
  : list event * cog :=
  let '(tr1, m) := _initialize_model cfg loaded in
  let '(tr2, ws) := _load_daily_words file in
  (tr1 ++
   [Print "ฐานข้อมูลคำศัพท์พร้อมใช้งานที่: db/vocabulary.db (Vocabulary DB is ready)."] ++
   tr2,
   {| model := m; vocabulary := stored; daily_words_list := ws |}).

(** [setup]: the cog is added to the bot only when a credential is set.
    The bot is seen through the cog it holds, if any. *)
Definition setup (cfg : config) (loaded : option string)
    (stored : Sqlite.table (Z * string)) (file : option (list daily_word_entry))
    (bot : option cog) : list event * option cog :=
  if no_credential cfg then
    ([Print "Could not load 'EnglishLearning' cog: GEMINI_API_KEY is not set."], bot)
  else
    let '(tr, c) := __init__ cfg loaded stored file in (tr, Some c).

(** Loading the extension [cogs.eng]: the module-level code runs, then
    [setup]. *)
Definition load_extension (cfg : config) (loaded : option string)
    (stored : Sqlite.table (Z * string)) (file : option (list daily_word_entry))
    (bot : option cog) : list event * option cog :=
  let '(tr, bot') := setup cfg loaded stored file bot in
  ((if no_credential cfg then
      [Print "WARNING: GEMINI_API_KEY not found in utils/config.py. AI features will be disabled."]
    else []) ++ tr, bot').

(** [_call_ai] *)
Definition _call_ai (ai : endpoint) (s : cog) (prompt : string)
  : list event * option string :=
  if negb (model s) then ([], None)
  else match ai prompt with
       | Answer text => ([GenerateContent prompt], Some (Str.strip text))
       | Failure e => ([GenerateContent prompt; Print ("AI API Error: " +:+ e)], None)
       end.

Definition ai_unavailable : string :=
  "ขออภัยค่ะ ฟีเจอร์ AI ไม่พร้อมใช้งานในขณะนี้ โปรดตรวจสอบการตั้งค่า API key นะคะ".

(** A command either runs and leaves a trace, or raises. *)
Definition outcome : Type := option command_error * list event.

(** The decorator [ai_command_check] *)
Definition ai_command_check (func : cog -> outcome) (s : cog) : outcome :=
  if negb (model s) then (None, [Send (Text ai_unavailable)])
  else let '(err, tr) := func s in (err, Typing :: tr).

Definition powered_by (ctx : context) : string :=
  "ขับเคลื่อนโดย Google Generative AI | โดย " +:+ display_name ctx.

Definition code (text : string) : string := "```" +:+ text +:+ "```".

(** [eng check] *)
Definition check_grammar_body (cfg : config) (ai : endpoint) (ctx : context)
    (sentence : string) (s : cog) : outcome :=
  let prompt := CHECK_GRAMMAR_PROMPT cfg sentence in
  let '(tr, ai_text) := _call_ai ai s prompt in
  if negb (Str.truthy_opt ai_text) then
    (None, tr ++ [Send (Text "ขออภัยค่ะ เกิดข้อผิดพลาดในการสื่อสารกับ AI ค่ะ")])
  else
    let ai_text := default "" ai_text in
    let embed :=
      add_field "ประโยคของคุณ" (code sentence)
        (Embed "✔️ ผลการตรวจสอบไวยากรณ์" "" Color.blue) in
    let raw e :=
      set_color Color.light_grey
        (add_field "ผลลัพธ์จาก AI" ("```" +:+ nl +:+ ai_text +:+ nl +:+ "```") e) in
    let embed :=
      if Str.contains "CORRECTED:" ai_text && Str.contains "EXPLANATION:" ai_text then
        let parts := Str.split "EXPLANATION:" ai_text in
        match parts !! 0%nat, parts !! 1%nat with
        | Some p0, Some p1 =>
            let corrected_part := Str.strip (Str.replace "CORRECTED:" "" p0) in
            let explanation_part := Str.strip p1 in
            set_color Color.orange
              (add_field "คำอธิบาย (จาก AI)" explanation_part
                 (add_field "ประโยคที่แก้ไข" (code corrected_part) embed))
        | _, _ => raw embed
        end
      else if decide (Str.upper (Str.strip ai_text) = "CORRECT") then
        set_color Color.green
          (set_description "✅ ประโยคของคุณถูกต้องสมบูรณ์แล้วค่ะ! เก่งมากๆ เลยค่ะ" embed)
      else raw embed in
    (None, tr ++ [Send (Rich (set_footer (powered_by ctx) embed))]).

Definition check_grammar cfg ai ctx sentence : cog -> outcome :=
  ai_command_check (check_grammar_body cfg ai ctx sentence).

(** [eng word]; [choice] is the index [random.choice] draws. *)
Definition daily_word_body (cfg : config) (ai : endpoint) (ctx : context)
    (choice : nat) (s : cog) : outcome :=
  match daily_words_list s !! choice with
  | None => (Some (CommandInvokeError "IndexError" "Cannot choose from an empty sequence"), [])
  | Some word_data =>
      let eng_word := eng word_data in
      let prompt := DAILY_WORD_EXAMPLE_PROMPT cfg eng_word in
      let '(tr, answer) := _call_ai ai s prompt in
      let example_sentence :=
        Str.replace "*" "" (Str.or_else answer "ไม่สามารถสร้างประโยคตัวอย่างได้ในขณะนี้") in
      let embed :=
        set_footer ("ใช้ " +:+ prefix ctx +:+ "eng vocab save " +:+ eng_word +:+
                    " เพื่อบันทึกคำนี้!")
          (add_field "ประโยคตัวอย่าง (จาก AI)" (code example_sentence)
             (add_field "ความหมายภาษาไทย" (thai word_data)
                (Embed ("ศัพท์น่ารู้ประจำวัน: " +:+ Str.title eng_word)
                   ("**" +:+ def word_data +:+ "**") Color.purple))) in
      (None, tr ++ [Send (Rich embed)])
  end.

Definition daily_word cfg ai ctx choice : cog -> outcome :=
  ai_command_check (daily_word_body cfg ai ctx choice).

(** [eng translate] *)
Definition translate_body (cfg : config) (ai : endpoint) (ctx : context)
    (text_to_translate : string) (s : cog) : outcome :=
  let prompt := TRANSLATE_PROMPT cfg text_to_translate in
  let '(tr, translated_text) := _call_ai ai s prompt in
  if negb (Str.truthy_opt translated_text) then
    (None, tr ++ [Send (Text "ขออภัยค่ะ เกิดข้อผิดพลาดในการแปลภาษาค่ะ")])
  else
    let embed :=
      set_footer (powered_by ctx)
        (add_field "คำแปล (จาก AI)" (code (default "" translated_text))
           (add_field "ข้อความต้นฉบับ" (code text_to_translate)
              (Embed "🌐 ผลการแปลภาษา" "" Color.dark_teal))) in
    (None, tr ++ [Send (Rich embed)]).

Definition translate cfg ai ctx text_to_translate : cog -> outcome :=
  ai_command_check (translate_body cfg ai ctx text_to_translate).

(** The words a user has saved, in the order of insertion. *)
Definition words_of (user_id : Z) (t : Sqlite.table (Z * string)) : list string :=
  omap (fun r : Z * (Z * string) =>
          if decide (r.2.1 = user_id) then Some r.2.2 else None)
       (Sqlite.rows t).

Definition already_saved (w : string) : string :=
  "⚠️ คุณเคยบันทึกคำว่า `" +:+ w +:+ "` ไปแล้วค่ะ".

Definition saved (ctx : context) (w : string) : embed :=
  set_footer ("ใช้ " +:+ prefix ctx +:+ "eng vocab list เพื่อดูคำศัพท์ทั้งหมด")
    (Embed "📖 บันทึกคำศัพท์สำเร็จ!"
       ("บันทึกคำว่า `" +:+ w +:+ "` ลงในคลังศัพท์ส่วนตัวของคุณเรียบร้อยแล้วค่ะ")
       Color.green).

(** [eng vocab save].  [fault] is a [sqlite3.Error] other than the
    [IntegrityError] of the uniqueness constraint. *)
Definition save_word (fault : option string) (ctx : context) (word : string) (s : cog)
  : list event * cog :=
  let user_id := author_id ctx in
  let clean_word := Str.strip (Str.lower word) in
  if negb (Str.truthy clean_word) then
    ([Send (Text "กรุณาระบุคำศัพท์ที่ต้องการบันทึกด้วยค่ะ")], s)
  else
    match fault with
    | Some e => ([Send (Text ("เกิดข้อผิดพลาดกับฐานข้อมูลค่ะ: `" +:+ e +:+ "`"))], s)
    | None =>
        if decide (clean_word ∈ words_of user_id (vocabulary s)) then
          ([Send (Text (already_saved clean_word))], s)
        else
          ([Send (Rich (saved ctx clean_word))],
           {| model := model s;
              vocabulary := (Sqlite.insert (user_id, clean_word) (vocabulary s)).2;
              daily_words_list := daily_words_list s |})
    end.

(** A history of save commands, by any users. *)
Definition save_all (saves : list (option string * context * string)) (s : cog) : cog :=
  foldl (fun st c => (save_word c.1.1 c.1.2 c.2 st).2) s saves.

(** Byte-wise order of the default collation of [ORDER BY]. *)
Definition bytes_le (a b : string) : Prop := String.leb a b = true.

Global Instance bytes_le_dec a b : Decision (bytes_le a b).
Proof. unfold bytes_le. apply _. Defined.

(** [SELECT word FROM vocabulary WHERE user_id = ? ORDER BY word] *)
Definition select_words (user_id : Z) (t : Sqlite.table (Z * string)) : list string :=
  merge_sort bytes_le (words_of user_id t).

(** [eng vocab list] *)
Definition list_vocab (ctx : context) (s : cog) : list event :=
  let words := select_words (author_id ctx) (vocabulary s) in
  match words with
  | [] =>
      [Send (Text ("คุณยังไม่มีคำศัพท์ที่บันทึกไว้เลย ลองใช้ `" +:+ prefix ctx +:+
                   "eng vocab save <word>` ดูสิคะ!"))]
  | _ =>
      [Send (Rich (Embed ("คลังคำศัพท์ของ " +:+ display_name ctx)
                     (join nl (map (fun word => "• " +:+ word) words))
                     Color.dark_purple))]
  end.

(** The commands of the [eng] group that do work. *)
Inductive invocation :=
| Check (sentence : string)
| Word (choice : nat)
| Translate (text_to_translate : string)
| VocabSave (fault : option string) (word : string)
| VocabList.

Definition uses_ai (i : invocation) : bool :=
  match i with
  | Check _ | Word _ | Translate _ => true
  | VocabSave _ _ | VocabList => false
  end.

Definition run (cfg : config) (ai : endpoint) (ctx : context) (i : invocation) (s : cog)
  : outcome * cog :=
  match i with
  | Check sentence => (check_grammar cfg ai ctx sentence s, s)
  | Word choice => (daily_word cfg ai ctx choice s, s)
  | Translate text => (translate cfg ai ctx text s, s)
  | VocabSave fault word => let '(tr, s') := save_word fault ctx word s in ((None, tr), s')
  | VocabList => ((None, list_vocab ctx s), s)
  end.

(** What the bot does with a message that names a command of the group:
    with the cog loaded the command runs; without it the name is unknown,
    the framework raises [CommandNotFound] and hands it to the error
    handler. *)
Definition process_commands (cfg : config) (ai : endpoint) (env : ErrorHandler.environment)
    (ectx : ErrorHandler.context) (ctx : context) (i : invocation) (bot : option cog)
  : list event * option cog :=
  match bot with
  | Some s =>
      let '((err, tr), s') := run cfg ai ctx i s in
      (tr ++ match err with
             | Some e => ErrorHandler.on_command_error env ectx e
             | None => []
             end,
       Some s')
  | None =>
      (ErrorHandler.on_command_error env
         (ErrorHandler.mk_context
            (ErrorHandler.author_id ectx) (ErrorHandler.author ectx)
            (ErrorHandler.display_name ectx) (ErrorHandler.guild ectx)
            (ErrorHandler.channel_id ectx) (ErrorHandler.channel_name ectx)
            (ErrorHandler.content ectx) (ErrorHandler.clean_prefix ectx)
            (ErrorHandler.invoked_with ectx) None None
            (ErrorHandler.bot_user_name ectx))
         CommandNotFound,
       None)
  end.


Definition alice : context := mk_context 7 "alice" "i.".

Definition fresh_cog : cog := mk_cog true Sqlite.empty default_words.



Definition no_key : config := mk_config None (fun x => x) (fun x => x) (fun x => x).

Definition silent : endpoint := fun _ => Failure "unreachable".

Definition unique_words (t : Sqlite.table (Z * string)) : Prop :=
  forall u, NoDup (words_of u t).

Definition ai_error : string := "ขออภัยค่ะ เกิดข้อผิดพลาดในการสื่อสารกับ AI ค่ะ".

Definition translation_error : string := "ขออภัยค่ะ เกิดข้อผิดพลาดในการแปลภาษาค่ะ".

Definition no_example : string := "ไม่สามารถสร้างประโยคตัวอย่างได้ในขณะนี้".

End Eng.

(** ** cogs/moderation.py

    Calls to the logger of this cog write to the console only and are left
    out of the traces. *)

Module Moderation.

(** A row of a guild's table of cases, without its key [case_id]. *)
Record case := mk_case {
  user_id : Z;
  moderator_id : Z;
  action : string;
  reason : option string;
  timestamp : Q;
  duration : option string
}.

(** db/moderation.db: for every guild that has them, the table
    [cases_<guild>] and the one-row table [mod_log_channels_<guild>] (the
    channel, once set). *)
Record database := mk_database {
  cases : gmap Z (Sqlite.table case);
  mod_log_channels : gmap Z (option Z)
}.

Definition no_tables : database := mk_database ∅ ∅.

(** The user or member a command is aimed at. *)
Record target := mk_target {
  id : Z;
  name : string;
  is_member : bool;
  top_role : option Z;
  timed_out_until : option Q;
  can_receive : bool
}.

Definition mention (user : Z) : string := "<@" +:+ pretty user +:+ ">".

Record context := mk_context {
  guild_id : Z;
  guild_name : string;
  owner_id : Z;
  author_id : Z;
  author : string;
  bot_user_id : Z;
  author_is_member : bool;
  me_is_member : bool;
  author_top_role : option Z;
  me_top_role : option Z;
  permissions : list string;
  bot_permissions : list string
}.

Record channel := mk_channel {
  is_text : bool;
  send_messages : bool;
  embed_links : bool
}.

(** A [reaction_add] event. *)
Record reaction := mk_reaction {
  reactor : Z;
  message_id : Z;
  emoji : string
}.

(** How sending the confirmation prompt ends: the message and both reactions
    are there, or sending the message failed, or the message was sent and
    adding a reaction failed. *)
Inductive prompt_result := PromptSent | SendFailed | ReactionFailed.

(** What the outside answers during one command: whether the database raises,
    the clock, the duration parser, the prompt, the reactions that arrive
    before the time-out in their order, and the results of the calls to the
    platform. *)
Record environment := mk_environment {
  db_fault : option string;
  now : Q;
  pytimeparse : string -> option Q;
  prompt : prompt_result;
  confirm_message_id : Z;
  arrivals : list reaction;
  dm : api_result;
  fetch_ban : api_result;
  api : api_result;
  get_channel : Z -> option channel
}.

(** [create_base_embed] of this cog *)
Definition create_base_embed (title description : string) (color : Z) : embed :=
  Embed title description color.

(** [_send_feedback_embed] *)
Definition _send_feedback_embed (title description : string) (color : Z) : list event :=
  [Send (Rich (create_base_embed title description color))].

(** [get_action_color] *)
Definition get_action_color (action : string) : Z :=
  let a := Str.lower action in
  if decide (a = "warn") then 0xF39C12
  else if decide (a = "timeout") then 0xF1C40F
  else if decide (a = "kick") then 0xE67E22
  else if decide (a = "ban") then 0xE74C3C
  else if decide (a = "unban") then 0x2ECC71
  else if decide (a = "untimeout") then 0x3498DB
  else if decide (a = "removetimeout") then 0x3498DB
  else 0x7289DA.

(** [int(x)] *)
Definition int (x : Q) : Z := Z.quot (Qnum x) (Zpos (Qden x)).

Definition Qltb (x y : Q) : bool := negb (Qle_bool y x).

(** [format_duration] *)
Definition format_duration (total_seconds : Q) : string :=
  if Qle_bool total_seconds 0 then "0s"
  else
    let secs := int total_seconds in
    let days := secs / 86400 in
    let rem := secs mod 86400 in
    let hours := rem / 3600 in
    let rem := rem mod 3600 in
    let mins := rem / 60 in
    let secs_final := rem mod 60 in
    let parts :=
      (if decide (days = 0) then [] else [pretty days +:+ "d"]) ++
      (if decide (hours = 0) then [] else [pretty hours +:+ "h"]) ++
      (if decide (mins = 0) then [] else [pretty mins +:+ "m"]) in
    let parts :=
      if decide (secs_final = 0) then
        match parts with [] => [pretty secs_final +:+ "s"] | _ => parts end
      else parts ++ [pretty secs_final +:+ "s"] in
    join " " parts.

(** [_ensure_guild_tables_exist]: [CREATE TABLE IF NOT EXISTS] for both
    tables of the guild; a database error is logged and swallowed. *)
Definition _ensure_guild_tables_exist (fault : option string) (guild_id : Z)
    (db : database) : database :=
  match fault with
  | Some _ => db
  | None =>
      {| cases :=
           match cases db !! guild_id with
           | Some _ => cases db
           | None => <[guild_id := Sqlite.empty]> (cases db)
           end;
         mod_log_channels :=
           match mod_log_channels db !! guild_id with
           | Some _ => mod_log_channels db
           | None => <[guild_id := None]> (mod_log_channels db)
           end |}
  end.

(** [create_case]: the new [case_id], or [None] when the database raised. *)
Definition create_case (fault : option string) (clock : Q) (guild_id user_id moderator_id : Z)
    (action : string) (reason duration : option string) (db : database)
  : option Z * database :=
  let db := _ensure_guild_tables_exist fault guild_id db in
  match fault with
  | Some _ => (None, db)
  | None =>
      match cases db !! guild_id with
      | Some t =>
          let '(case_id, t') :=
            Sqlite.insert (mk_case user_id moderator_id action reason clock duration) t in
          (Some case_id,
           {| cases := <[guild_id := t']> (cases db);
              mod_log_channels := mod_log_channels db |})
      | None => (None, db)
      end
  end.

(** [get_case]: the row with its key, as the dictionary of its columns. *)
Definition get_case (fault : option string) (guild_id case_id : Z) (db : database)
  : option (Z * case) * database :=
  let db := _ensure_guild_tables_exist fault guild_id db in
  match fault with
  | Some _ => (None, db)
  | None =>
      match cases db !! guild_id with
      | Some t => (Sqlite.select_by_rowid case_id t, db)
      | None => (None, db)
      end
  end.

(** [ORDER BY case_id DESC] *)
Definition case_id_desc (a b : Z * case) : Prop := b.1 <= a.1.

Global Instance case_id_desc_dec a b : Decision (case_id_desc a b).
Proof. unfold case_id_desc. apply _. Defined.

(** [get_user_cases] *)
Definition get_user_cases (fault : option string) (guild_id uid : Z) (db : database)
  : list (Z * case) * database :=
  let db := _ensure_guild_tables_exist fault guild_id db in
  match fault with
  | Some _ => ([], db)
  | None =>
      match cases db !! guild_id with
      | Some t =>
          (merge_sort case_id_desc
             (filter (fun r : Z * case => user_id r.2 = uid) (Sqlite.rows t)), db)
      | None => ([], db)
      end
  end.

(** The rows of a guild's table of cases; none when the table is not there. *)
Definition case_rows (guild_id : Z) (db : database) : list (Z * case) :=
  match cases db !! guild_id with
  | Some t => Sqlite.rows t
  | None => []
  end.

(** [_create_mod_log_embed]; [kwargs] are the extra fields in their order. *)
Definition _create_mod_log_embed (ctx : context) (title description : string)
    (member : target) (case_id : Z) (color : Z) (kwargs : list (string * string)) : embed :=
  let base :=
    add_field "Moderator"
      (mention (author_id ctx) +:+ " (" +:+ author ctx +:+ ")" +:+ nl +:+
       "ID: " +:+ pretty (author_id ctx))
      (add_field "User"
         (mention (id member) +:+ " (" +:+ name member +:+ ")" +:+ nl +:+
          "ID: " +:+ pretty (id member))
         (Embed title description color)) in
  set_footer ("Case ID: #" +:+ pretty case_id +:+ " (Guild Local) | " +:+ guild_name ctx)
    (foldl (fun e kv =>
              if Str.truthy kv.2
              then add_field (Str.title (Str.replace "_" " " kv.1)) (Str.take 1024 kv.2) e
              else e)
           base kwargs).

(** [_send_dm_notification]: a refused or failed direct message is logged
    and swallowed. *)
Definition _send_dm_notification (env : environment) (ctx : context) (member : target)
    (action_title : string) (reason : option string) (color : Z)
    (duration : option string) (expires_timestamp : option Z) : list event :=
  let embed :=
    add_field "Reason" (Str.or_else reason "No reason provided.")
      (Embed ("Your moderation status in " +:+ guild_name ctx +:+ " has been updated")
         ("You have been " +:+ action_title +:+ ".") color) in
  let embed :=
    if Str.truthy_opt duration then add_field "Duration" (default "" duration) embed
    else embed in
  let embed :=
    match expires_timestamp with
    | Some ts => if decide (ts = 0) then embed
                 else add_field "Expires" ("<t:" +:+ pretty ts +:+ ":R>") embed
    | None => embed
    end in
  if can_receive member then
    match dm env with
    | Done => [DirectMessage (id member) (Rich embed)]
    | _ => []
    end
  else [].

(** [send_mod_log] *)
Definition send_mod_log (env : environment) (guild_id : Z) (e : embed) (db : database)
  : list event * database :=
  let db := _ensure_guild_tables_exist (db_fault env) guild_id db in
  match db_fault env with
  | Some _ => ([], db)
  | None =>
      match mod_log_channels db !! guild_id with
      | Some (Some channel_id) =>
          if decide (channel_id = 0) then ([], db)
          else
            match get_channel env channel_id with
            | Some ch =>
                if is_text ch && send_messages ch && embed_links ch
                then ([ChannelSend channel_id (Rich e)], db)
                else ([], db)
            | None => ([], db)
            end
      | _ => ([], db)
      end
  end.

(** The [check] of the wait for a reaction *)
Definition check (env : environment) (ctx : context) (r : reaction) : bool :=
  bool_decide (reactor r = author_id ctx) &&
  bool_decide (message_id r = confirm_message_id env) &&
  bool_decide (emoji r ∈ ["✅"; "❌"]).

(** [_prompt_confirmation]: whether the action is confirmed, and whether the
    prompt message exists.  The first reaction that passes [check] decides;
    when none arrives in time the wait ends with a time-out, which counts as
    a cancellation like any other exception of the wait. *)
Definition _prompt_confirmation (env : environment) (ctx : context) (target_user : target)
    (action_name : string) (reason : option string) (timeout_seconds : Z)
  : list event * (bool * bool) :=
  let confirm_embed :=
    set_footer ("React with ✅ to confirm or ❌ to cancel within " +:+
                pretty timeout_seconds +:+ " seconds.")
      ((if Str.truthy_opt reason then add_field "Reason" (default "" reason) else fun e => e)
         (Embed ("Confirmation: " +:+ Str.title action_name +:+ " User")
            ("Are you sure you want to " +:+ Str.lower action_name +:+ " " +:+
             mention (id target_user) +:+ " (" +:+ pretty (id target_user) +:+ ")?")
            (get_action_color (Str.lower action_name)))) in
  let failed :=
    _send_feedback_embed "Action Failed"
      "Could not send confirmation prompt. Please check my permissions (Send Messages, Add Reactions)."
      Color.red in
  match prompt env with
  | SendFailed => (failed, (false, false))
  | ReactionFailed => (Send (Rich confirm_embed) :: failed, (false, true))
  | PromptSent =>
      let tr := [Send (Rich confirm_embed); AddReaction "✅"; AddReaction "❌"] in
      match List.find (check env ctx) (arrivals env) with
      | Some r => if decide (emoji r = "✅") then (tr, (true, true)) else (tr, (false, true))
      | None => (tr, (false, true))
      end
  end.

(** The text written to the audit log of the guild. *)
Definition audit_reason (ctx : context) (reason : string) : string :=
  Str.take 512 ("Mod: " +:+ author ctx +:+ " (" +:+ pretty (author_id ctx) +:+
                "). Reason: " +:+ reason).

(** A command either runs and leaves a trace, or is refused by one of the
    checks of its decorators. *)
Definition outcome : Type := (option command_error * list event) * database.

Definition missing (required granted : list string) : list string :=
  filter (fun p => p ∉ granted) required.

(** [@commands.has_permissions] and [@commands.bot_has_permissions] *)
Definition check_permissions (ctx : context) (user_needs bot_needs : list string)
    (body : database -> outcome) (db : database) : outcome :=
  match missing user_needs (permissions ctx) with
  | _ :: _ as m => ((Some (MissingPermissions m), []), db)
  | [] =>
      match missing bot_needs (bot_permissions ctx) with
      | _ :: _ as m => ((Some (BotMissingPermissions m), []), db)
      | [] => body db
      end
  end.

(** A body that ends without raising. *)
Definition returns (r : list event * database) : outcome := ((None, r.1), r.2).

(** The checks on the hierarchy of roles that kick, ban and timeout share:
    the feedback that ends the command, if any. *)
Definition hierarchy_check (ctx : context) (member : target) (verb : string)
  : option (list event) :=
  match top_role member, author_top_role ctx, me_top_role ctx with
  | Some member_position, Some author_position, Some me_position =>
      if bool_decide (author_position <= member_position) &&
         negb (bool_decide (author_id ctx = owner_id ctx)) then
        Some (_send_feedback_embed "Permissions Error"
                ("You can't " +:+ verb +:+ " someone with a higher or equal role.") Color.red)
      else if bool_decide (me_position <= member_position) then
        Some (_send_feedback_embed "Permissions Error"
                ("I cannot " +:+ verb +:+ " someone with a higher or equal role than me.")
                Color.red)
      else None
  | _, _, _ =>
      Some (_send_feedback_embed "Internal Error" "Could not determine role hierarchy."
              Color.red)
  end.

(** What a command answers when the call to the platform fails. *)
Definition api_failure (r : api_result) (forbidden : string) : list event :=
  match r with
  | Done => []
  | Forbidden => _send_feedback_embed "Permissions Error" forbidden Color.red
  | NotFound => _send_feedback_embed "API Error" "An API error occurred: Not Found" Color.red
  | HTTPException text =>
      _send_feedback_embed "API Error" ("An API error occurred: " +:+ text) Color.red
  | OtherException text =>
      _send_feedback_embed "Internal Error" ("An unexpected error occurred: " +:+ text)
        Color.red
  end.

Definition case_failed : list event :=
  _send_feedback_embed "Action Failed" "Failed to create moderation case. Check logs."
    Color.red.

(** *** kick *)

(** The checks of [kick] that come before the prompt: the feedback that ends
    the command, if any. *)
Definition kick_checks (ctx : context) (member : target) : option (list event) :=
  if decide (id member = author_id ctx) then
    Some (_send_feedback_embed "Action Failed" "You cannot kick yourself." Color.red)
  else if decide (id member = bot_user_id ctx) then
    Some (_send_feedback_embed "Action Failed" "I cannot kick myself." Color.red)
  else if negb (is_member member) then
    Some (_send_feedback_embed "Action Failed"
            ("Could not get full member data for " +:+ mention (id member) +:+
             ". Ensure I have Member Intents enabled.") Color.red)
  else if negb (author_is_member ctx) || negb (me_is_member ctx) then
    Some (_send_feedback_embed "Internal Error"
            "An internal error occurred (could not verify roles)." Color.red)
  else hierarchy_check ctx member "kick".

Definition kick_body (env : environment) (ctx : context) (member : target)
    (reason : option string) (db : database) : list event * database :=
  let db := _ensure_guild_tables_exist (db_fault env) (guild_id ctx) db in
  match kick_checks ctx member with
  | Some tr => (tr, db)
  | None =>
      let '(tr1, (confirmed, confirm_msg_obj)) :=
        _prompt_confirmation env ctx member "kick" reason 30 in
      let tr2 := if confirm_msg_obj : bool then [ClearReactions] else [] in
      let clean_up := if confirm_msg_obj : bool then [Delete] else [] in
      if negb confirmed then
        (tr1 ++ tr2 ++
         (if confirm_msg_obj then
            [Edit (Rich (create_base_embed "Action Cancelled"
                           ("Kick action for " +:+ mention (id member) +:+
                            " has been cancelled or timed out.") Color.red))]
          else
            _send_feedback_embed "Action Cancelled"
              ("Kick action for " +:+ mention (id member) +:+ " was cancelled.") Color.red),
         db)
      else
        let tr3 :=
          if confirm_msg_obj then
            [Edit (Rich (create_base_embed "Kick Confirmed"
                           ("Processing kick for " +:+ mention (id member) +:+ "...")
                           Color.green))]
          else [] in
        let '(case_id, db) :=
          create_case (db_fault env) (now env) (guild_id ctx) (id member) (author_id ctx)
            "kick" reason None db in
        match case_id with
        | None => (tr1 ++ tr2 ++ tr3 ++ case_failed ++ clean_up, db)
        | Some case_id =>
            let tr4 :=
              _send_dm_notification env ctx member "kicked" reason (get_action_color "kick")
                None None in
            let mod_log_embed :=
              _create_mod_log_embed ctx "Member Kicked" (mention (id member) +:+ " kicked.")
                member case_id (get_action_color "kick")
                [("reason", Str.or_else reason "No reason")] in
            match api env with
            | Done =>
                let '(tr5, db) := send_mod_log env (guild_id ctx) mod_log_embed db in
                (tr1 ++ tr2 ++ tr3 ++ tr4 ++
                 [Kick (guild_id ctx) (id member)
                    (audit_reason ctx (Str.or_else reason "None"))] ++
                 tr5 ++
                 _send_feedback_embed "Kick Successful"
                   ("Kicked " +:+ mention (id member) +:+ ".") Color.green,
                 db)
            | failure =>
                (tr1 ++ tr2 ++ tr3 ++ tr4 ++
                 api_failure failure "I don't have permission to kick this member." ++
                 clean_up,
                 db)
            end
        end
  end.

Definition kick (env : environment) (ctx : context) (member : target)
    (reason : option string) : database -> outcome :=
  check_permissions ctx ["kick_members"] ["kick_members"; "add_reactions"; "manage_messages"]
    (fun db => returns (kick_body env ctx member reason db)).

(** *** ban *)

Definition ban_checks (ctx : context) (user : target) : option (list event) :=
  if decide (id user = author_id ctx) then
    Some (_send_feedback_embed "Action Failed" "You cannot ban yourself." Color.red)
  else if decide (id user = bot_user_id ctx) then
    Some (_send_feedback_embed "Action Failed" "I cannot ban myself." Color.red)
  else if negb (author_is_member ctx) || negb (me_is_member ctx) then
    Some (_send_feedback_embed "Internal Error"
            "An internal error occurred (could not verify roles)." Color.red)
  else if is_member user then hierarchy_check ctx user "ban"
  else None.

Definition ban_body (env : environment) (ctx : context) (user : target)
    (reason : option string) (db : database) : list event * database :=
  let db := _ensure_guild_tables_exist (db_fault env) (guild_id ctx) db in
  match ban_checks ctx user with
  | Some tr => (tr, db)
  | None =>
      let '(tr1, (confirmed, confirm_msg_obj)) :=
        _prompt_confirmation env ctx user "ban" reason 30 in
      let tr2 := if confirm_msg_obj : bool then [ClearReactions] else [] in
      let clean_up := if confirm_msg_obj : bool then [Delete] else [] in
      let who := mention (id user) +:+ " (" +:+ pretty (id user) +:+ ")" in
      if negb confirmed then
        (tr1 ++ tr2 ++
         (if confirm_msg_obj then
            [Edit (Rich (create_base_embed "Action Cancelled"
                           ("Ban action for " +:+ mention (id user) +:+
                            " has been cancelled or timed out.") Color.red))]
          else
            _send_feedback_embed "Action Cancelled"
              ("Ban action for " +:+ mention (id user) +:+ " was cancelled.") Color.red),
         db)
      else
        let tr3 :=
          if confirm_msg_obj then
            [Edit (Rich (create_base_embed "Ban Confirmed"
                           ("Processing ban for " +:+ mention (id user) +:+ "...")
                           Color.green))]
          else [] in
        let '(case_id, db) :=
          create_case (db_fault env) (now env) (guild_id ctx) (id user) (author_id ctx)
            "ban" reason None db in
        match case_id with
        | None => (tr1 ++ tr2 ++ tr3 ++ case_failed ++ clean_up, db)
        | Some case_id =>
            let tr4 :=
              _send_dm_notification env ctx user "banned" reason (get_action_color "ban")
                None None in
            let mod_log_embed :=
              _create_mod_log_embed ctx "Member Banned" (who +:+ " banned.")
                user case_id (get_action_color "ban")
                [("reason", Str.or_else reason "No reason")] in
            match api env with
            | Done =>
                let '(tr5, db) := send_mod_log env (guild_id ctx) mod_log_embed db in
                (tr1 ++ tr2 ++ tr3 ++ tr4 ++
                 [Ban (guild_id ctx) (id user)
                    (audit_reason ctx (Str.or_else reason "None"))] ++
                 tr5 ++
                 _send_feedback_embed "Ban Successful" ("Banned " +:+ who +:+ ".") Color.green,
                 db)
            | failure =>
                (tr1 ++ tr2 ++ tr3 ++ tr4 ++
                 api_failure failure "I don't have permission to ban this user." ++
                 clean_up,
                 db)
            end
        end
  end.

Definition ban (env : environment) (ctx : context) (user : target)
    (reason : option string) : database -> outcome :=
  check_permissions ctx ["ban_members"] ["ban_members"; "add_reactions"; "manage_messages"]
    (fun db => returns (ban_body env ctx user reason db)).

(** *** unban *)

(** The check of [unban]: the user must be banned, and the bot must be able
    to tell. *)
Definition unban_checks (env : environment) (user : target) : option (list event) :=
  match fetch_ban env with
  | Done => None
  | NotFound =>
      Some (_send_feedback_embed "Action Failed"
              (mention (id user) +:+ " (" +:+ pretty (id user) +:+
               ") is not banned from this server.") Color.red)
  | Forbidden =>
      Some (_send_feedback_embed "Permissions Error"
              "I don't have permissions to check bans." Color.red)
  | HTTPException text =>
      Some (_send_feedback_embed "API Error"
              ("An API error occurred while checking ban status: " +:+ text) Color.red)
  | OtherException text =>
      Some (_send_feedback_embed "Internal Error"
              ("An unexpected error occurred: " +:+ text) Color.red)
  end.

Definition unban_body (env : environment) (ctx : context) (user : target)
    (reason : option string) (db : database) : list event * database :=
  let db := _ensure_guild_tables_exist (db_fault env) (guild_id ctx) db in
  let reason := Str.or_else reason "No reason provided." in
  match unban_checks env user with
  | Some tr => (tr, db)
  | None =>
      let who := mention (id user) +:+ " (" +:+ pretty (id user) +:+ ")" in
      let '(case_id, db) :=
        create_case (db_fault env) (now env) (guild_id ctx) (id user) (author_id ctx)
          "unban" (Some reason) None db in
      match case_id with
      | None => (case_failed, db)
      | Some case_id =>
          let tr4 :=
            _send_dm_notification env ctx user "unbanned" (Some reason)
              (get_action_color "unban") None None in
          let mod_log_embed :=
            _create_mod_log_embed ctx "Member Unbanned" (who +:+ " has been unbanned.")
              user case_id (get_action_color "unban") [("reason", reason)] in
          match api env with
          | Done =>
              let '(tr5, db) := send_mod_log env (guild_id ctx) mod_log_embed db in
              (tr4 ++ [Unban (guild_id ctx) (id user) (audit_reason ctx reason)] ++ tr5 ++
               _send_feedback_embed "Unban Successful" ("Unbanned " +:+ who +:+ ".")
                 Color.green,
               db)
          | failure =>
              (tr4 ++ api_failure failure "I don't have permission to unban users.", db)
          end
      end
  end.

Definition unban (env : environment) (ctx : context) (user : target)
    (reason : option string) : database -> outcome :=
  check_permissions ctx ["ban_members"] ["ban_members"]
    (fun db => returns (unban_body env ctx user reason db)).

(** *** untimeout *)

(** The checks of [untimeout].  Its comparison of roles reads
    [top_role.position] without a guard: a missing role raises. *)
Definition untimeout_checks (env : environment) (ctx : context) (member : target)
  : option (option command_error * list event) :=
  if match timed_out_until member with
     | None => true
     | Some until => Qltb until (now env)
     end then
    Some (None, _send_feedback_embed "Action Failed"
                  (mention (id member) +:+ " is not currently timed out.") Color.red)
  else if author_is_member ctx && me_is_member ctx then
    match top_role member, author_top_role ctx with
    | Some member_position, Some author_position =>
        if bool_decide (author_position <= member_position) &&
           negb (bool_decide (author_id ctx = owner_id ctx)) then
          Some (None, _send_feedback_embed "Permissions Error"
                        "You can't remove a timeout from someone with a higher or equal role."
                        Color.red)
        else None
    | _, _ =>
        Some (Some (CommandInvokeError "AttributeError"
                      "'NoneType' object has no attribute 'position'"), [])
    end
  else None.

Definition untimeout_body (env : environment) (ctx : context) (member : target)
    (reason : option string) (db : database) : outcome :=
  let db := _ensure_guild_tables_exist (db_fault env) (guild_id ctx) db in
  let reason := Str.or_else reason "No reason provided." in
  match untimeout_checks env ctx member with
  | Some r => (r, db)
  | None =>
      let '(case_id, db) :=
        create_case (db_fault env) (now env) (guild_id ctx) (id member) (author_id ctx)
          "untimeout" (Some reason) None db in
      match case_id with
      | None => returns (case_failed, db)
      | Some case_id =>
          let tr4 :=
            _send_dm_notification env ctx member "timeout removed" (Some reason)
              (get_action_color "untimeout") None None in
          let mod_log_embed :=
            _create_mod_log_embed ctx "Timeout Removed"
              ("Timeout removed for " +:+ mention (id member) +:+ ".")
              member case_id (get_action_color "untimeout") [("reason", reason)] in
          match api env with
          | Done =>
              let '(tr5, db) := send_mod_log env (guild_id ctx) mod_log_embed db in
              returns
                (tr4 ++ [SetTimeout (guild_id ctx) (id member) None (audit_reason ctx reason)] ++
                 tr5 ++
                 _send_feedback_embed "Timeout Removed"
                   ("Timeout removed for " +:+ mention (id member) +:+ ".") Color.green,
                 db)
          | failure =>
              returns
                (tr4 ++
                 api_failure failure
                   "I don't have permission to remove timeouts. Check my 'Moderate Members' permission.",
                 db)
          end
      end
  end.

Definition untimeout (env : environment) (ctx : context) (member : target)
    (reason : option string) : database -> outcome :=
  check_permissions ctx ["moderate_members"] ["moderate_members"]
    (untimeout_body env ctx member reason).

(** *** timeout *)

Definition max_timeout_seconds : Z := 28 * 24 * 60 * 60.

(** The first instant [datetime] cannot hold: the start of the year 10000. *)
Definition datetime_overflow : Z := 253402300800.

Definition timeout_checks (ctx : context) (member : target) : option (list event) :=
  if decide (id member = author_id ctx) then
    Some (_send_feedback_embed "Action Failed" "You cannot timeout yourself." Color.red)
  else if decide (id member = bot_user_id ctx) then
    Some (_send_feedback_embed "Action Failed" "I cannot timeout myself." Color.red)
  else if negb (is_member member) then
    Some (_send_feedback_embed "Action Failed"
            ("Could not get full member data for " +:+ mention (id member) +:+
             " to apply timeout.") Color.red)
  else if author_is_member ctx && me_is_member ctx then hierarchy_check ctx member "timeout"
  else
    Some (_send_feedback_embed "Internal Error"
            "An internal error occurred (could not verify roles)." Color.red).

(** [0 < seconds <= max_timeout_seconds] *)
Definition duration_allowed (seconds : Q) : bool :=
  Qltb 0 seconds && Qle_bool seconds (inject_Z max_timeout_seconds).

(** The checks on the duration: the seconds to apply, or the feedback that
    ends the command. *)
Definition timeout_duration (env : environment) (duration : string)
  : list event + Q :=
  match pytimeparse env duration with
  | None =>
      inl (_send_feedback_embed "Invalid Usage"
             "Invalid duration format (e.g., '1h30m', '1d', '30s')." Color.orange)
  | Some seconds =>
      if negb (duration_allowed seconds) then
        inl (_send_feedback_embed "Invalid Duration"
               "Duration must be between 1 second and 28 days." Color.orange)
      else if Qle_bool (inject_Z datetime_overflow) (now env + seconds) then
        inl (_send_feedback_embed "Invalid Duration"
               "Calculated duration is too far in the future." Color.orange)
      else inr seconds
  end.

Definition timeout_body (env : environment) (ctx : context) (member : target)
    (duration : string) (reason : option string) (db : database) : list event * database :=
  let db := _ensure_guild_tables_exist (db_fault env) (guild_id ctx) db in
  match timeout_checks ctx member with
  | Some tr => (tr, db)
  | None =>
      match timeout_duration env duration with
      | inl tr => (tr, db)
      | inr seconds =>
          let until := (now env + seconds)%Q in
          let expires_timestamp := int until in
          let duration_str := format_duration seconds in
          let '(case_id, db) :=
            create_case (db_fault env) (now env) (guild_id ctx) (id member) (author_id ctx)
              "timeout" reason (Some duration_str) db in
          match case_id with
          | None => (case_failed, db)
          | Some case_id =>
              let tr4 :=
                _send_dm_notification env ctx member "timed out" reason
                  (get_action_color "timeout") (Some duration_str) (Some expires_timestamp) in
              let mod_log_embed :=
                _create_mod_log_embed ctx "Member Timed Out"
                  (mention (id member) +:+ " timed out.")
                  member case_id (get_action_color "timeout")
                  [("reason", Str.or_else reason "No reason");
                   ("duration", duration_str);
                   ("expires", "<t:" +:+ pretty expires_timestamp +:+ ":R>")] in
              match api env with
              | Done =>
                  let '(tr5, db) := send_mod_log env (guild_id ctx) mod_log_embed db in
                  (tr4 ++
                   [SetTimeout (guild_id ctx) (id member) (Some until)
                      (audit_reason ctx (Str.or_else reason "None"))] ++
                   tr5 ++
                   _send_feedback_embed "Timeout Applied"
                     ("Timed out " +:+ mention (id member) +:+ " for " +:+ duration_str +:+ ".")
                     Color.green,
                   db)
              | failure =>
                  (tr4 ++
                   api_failure failure
                     ("I don't have permission to timeout " +:+ mention (id member) +:+
                      ". Check my 'Moderate Members' permission."),
                   db)
              end
          end
      end
  end.

Definition timeout (env : environment) (ctx : context) (member : target)
    (duration : string) (reason : option string) : database -> outcome :=
  check_permissions ctx ["moderate_members"] ["moderate_members"]
    (fun db => returns (timeout_body env ctx member duration reason db)).

(** *** warn *)

Definition warn_checks (ctx : context) (member : target) (reason : string)
  : option (list event) :=
  if negb (Str.truthy reason) then
    Some (_send_feedback_embed "Invalid Usage" "You must provide a reason for the warning."
            Color.orange)
  else if decide (id member = author_id ctx) then
    Some (_send_feedback_embed "Action Failed" "You cannot warn yourself." Color.red)
  else if decide (id member = bot_user_id ctx) then
    Some (_send_feedback_embed "Action Failed" "You cannot warn the bot." Color.red)
  else if negb (author_is_member ctx) then
    Some (_send_feedback_embed "Internal Error"
            "An internal error occurred (could not verify moderator)." Color.red)
  else None.

Definition warn_body (env : environment) (ctx : context) (member : target)
    (reason : string) (db : database) : list event * database :=
  let db := _ensure_guild_tables_exist (db_fault env) (guild_id ctx) db in
  match warn_checks ctx member reason with
  | Some tr => (tr, db)
  | None =>
      let '(case_id, db) :=
        create_case (db_fault env) (now env) (guild_id ctx) (id member) (author_id ctx)
          "warn" (Some reason) None db in
      match case_id with
      | None => (case_failed, db)
      | Some case_id =>
          let tr4 :=
            _send_dm_notification env ctx member "warned" (Some reason)
              (get_action_color "warn") None None in
          let mod_log_embed :=
            _create_mod_log_embed ctx "Member Warned" (mention (id member) +:+ " warned.")
              member case_id (get_action_color "warn") [("reason", reason)] in
          let '(tr5, db) := send_mod_log env (guild_id ctx) mod_log_embed db in
          (tr4 ++ tr5 ++
           _send_feedback_embed "Warning Issued" ("Warned " +:+ mention (id member) +:+ ".")
             Color.green,
           db)
      end
  end.

Definition warn (env : environment) (ctx : context) (member : target)
    (reason : string) : database -> outcome :=
  check_permissions ctx ["moderate_members"] []
    (fun db => returns (warn_body env ctx member reason db)).

(** Every table of cases has the keys 1, 2, ... in the order of its rows. *)
Definition sequential_db (db : database) : Prop :=
  forall g t, cases db !! g = Some t -> Sqlite.sequential t.

(** What one new case leaves in the database: one more row in the table of
    the guild, under the key that follows the key of the previous row (1 in
    a table without rows), holding the values given; the rows of the other
    guilds as they were; and the row is what [get_case] returns for the key. *)
Definition one_new_case (db db' : database) (guild user moderator : Z) (act : string)
    (why : option string) (clock : Q) (span : option string) : Prop :=
  exists case_id,
    case_id = 1 + default 0 (fst <$> last (case_rows guild db)) /\
    case_rows guild db' =
      case_rows guild db ++ [(case_id, mk_case user moderator act why clock span)] /\
    (forall g, g <> guild -> case_rows g db' = case_rows g db) /\
    exists row,
      get_case None guild case_id db' = (Some (case_id, row), db') /\
      action row = act /\ reason row = why /\ duration row = span.

(** The invoking user confirms: the prompt is there and, among the reactions
    that arrive before the time-out, there is a ✅ of the invoking user on the
    prompt that no ❌ of the invoking user on the prompt precedes. *)
Definition accepted (env : environment) (ctx : context) : Prop :=
  prompt env = PromptSent /\
  exists before r after,
    arrivals env = before ++ r :: after /\
    (reactor r = author_id ctx /\ message_id r = confirm_message_id env /\ emoji r = "✅") /\
    Forall (fun x => ~ (reactor x = author_id ctx /\ message_id x = confirm_message_id env /\
                        emoji x = "❌")) before.

(** The invoking user and the bot hold the permissions the decorators ask. *)
Definition permitted (ctx : context) (user_needs bot_needs : list string) : Prop :=
  missing user_needs (permissions ctx) = [] /\
  missing bot_needs (bot_permissions ctx) = [].

(** A guild, a moderator, a member below the moderator and the bot, and an
    outside where the moderator reacts with ✅ and every call succeeds. *)
Definition a_guild : context :=
  mk_context 1 "guild" 99 7 "alice#0001" 5 true true (Some 10) (Some 20)
    ["kick_members"; "ban_members"; "moderate_members"]
    ["kick_members"; "ban_members"; "moderate_members"; "add_reactions"; "manage_messages"].

Definition bob : target := mk_target 8 "bob#0002" true (Some 3) None true.

Definition reacting_with (emoji : string) (parsed : option Q) : environment :=
  mk_environment None (1700000000 # 1) (fun _ => parsed) PromptSent 500
    [mk_reaction 8 500 "✅"; mk_reaction 7 500 emoji] Done Done Done (fun _ => None).



(** An error feedback: one embed, in red or orange. *)
Definition error_feedback (tr : list event) : Prop :=
  exists title description color,
    tr = _send_feedback_embed title description color /\
    (color = Color.red \/ color = Color.orange).

(** What a kick or ban that is not confirmed leaves behind. *)
Definition nothing_done (env : environment) (ctx : context) (db : database)
    (out : outcome) : Prop :=
  Forall (fun e => removes_or_ends e = false) out.1.2 /\
  (forall g, case_rows g out.2 = case_rows g db) /\
  (out.2 = db \/ out.2 = _ensure_guild_tables_exist (db_fault env) (guild_id ctx) db) /\
  (is_Some (cases db !! guild_id ctx) -> is_Some (mod_log_channels db !! guild_id ctx) ->
   out.2 = db).

(** *** modlog *)
(** [channel.mention] *)
Definition channel_mention (channel_id : Z) : string := "<#" +:+ pretty channel_id +:+ ">".

(** [modlog]: with a channel the command stores it, without one it shows
    the channel that is stored.  The channel comes with what
    [channel.permissions_for(ctx.guild.me)] tells.  A database that raises
    does so on every statement (the connection itself opens): the [SELECT]
    is not guarded and its exception leaves the command, the [INSERT] is
    guarded.  [api] is the
    result of the message sent to the new channel. *)
Definition modlog_body (env : environment) (ctx : context) (prefix : string)
    (channel : option (Z * channel)) (db : database) : outcome :=
  let db := _ensure_guild_tables_exist (db_fault env) (guild_id ctx) db in
  match channel with
  | None =>
      match db_fault env with
      | Some e => ((Some (CommandInvokeError "OperationalError" e), []), db)
      | None =>
          match mod_log_channels db !! guild_id ctx with
          | Some (Some channel_id) =>
              match get_channel env channel_id with
              | Some _ =>
                  returns
                    (_send_feedback_embed "Modlog Channel"
                       ("Modlog channel for this guild: " +:+ channel_mention channel_id +:+ ".")
                       Color.blue, db)
              | None =>
                  returns
                    (_send_feedback_embed "Modlog Channel Not Found"
                       ("Modlog channel ID " +:+ pretty channel_id +:+
                        " is set for this guild, but the channel was not found.")
                       Color.orange, db)
              end
          | _ =>
              returns
                (_send_feedback_embed "Modlog Not Set"
                   ("Modlog channel not set for this guild. Use `" +:+ prefix +:+
                    "modlog #channel`.")
                   Color.orange, db)
          end
      end
  | Some (channel_id, bot_perms) =>
      if negb (send_messages bot_perms) || negb (embed_links bot_perms) then
        returns
          (_send_feedback_embed "Permissions Error"
             ("I need 'Send Messages' & 'Embed Links' permissions in " +:+
              channel_mention channel_id +:+ " to set it as the modlog.")
             Color.red, db)
      else
        match db_fault env with
        | Some _ =>
            returns
              (_send_feedback_embed "Error"
                 "Error updating modlog configuration for this guild." Color.red, db)
        | None =>
            returns
              (_send_feedback_embed "Modlog Updated"
                 ("✅ Modlog channel for this guild set to " +:+ channel_mention channel_id)
                 Color.green ++
               match api env with
               | Done =>
                   [ChannelSend channel_id
                      (Rich (create_base_embed "Modlog Configured"
                               ("This channel has been set as the moderation log channel by " +:+
                                mention (author_id ctx) +:+ ".")
                               Color.green))]
               | _ => []
               end,
               {| cases := cases db;
                  mod_log_channels := <[guild_id ctx := Some channel_id]> (mod_log_channels db) |})
        end
  end.

Definition modlog (env : environment) (ctx : context) (prefix : string)
    (channel : option (Z * channel)) : database -> outcome :=
  check_permissions ctx ["administrator"] [] (modlog_body env ctx prefix channel).

(** The channel stored as the mod-log of a guild, if any. *)
Definition mod_log_of (guild_id : Z) (db : database) : option Z :=
  default None (mod_log_channels db !! guild_id).

Definition writable : channel := mk_channel true true true.

Definition an_owner : context :=
  mk_context 1 "guild" 7 7 "alice#0001" 5 true true (Some 10) (Some 20)
    ["administrator"] ["send_messages"; "embed_links"].

Definition with_channel (channel_id : Z) : environment :=
  mk_environment None (1700000000 # 1) (fun _ => None) PromptSent 500 [] Done Done Done
    (fun c => if decide (c = channel_id) then Some writable else None).

Definition read_only : channel := mk_channel true false true.

(** *** case *)
(** The argument of [case]: the converter of [nextcord.User | int] yields a
    user, or else a number. *)
Inductive case_argument :=
| CaseId (case_id_input : Z)
| User (user : target).

(** What [case] takes from outside besides the database: for
    [bot.fetch_user] the name of the user, if the call returns; for the text
    of a stored timestamp the number
    [int(datetime.fromisoformat(text).timestamp())], if the text parses. *)
Record registry := mk_registry {
  fetch_user : Z -> option string;
  epoch : Q -> option Z
}.

(** The embed of one case.  As in [embed], the timestamp of the embed is
    left out, and so is its thumbnail, the avatar of the user. *)
Definition case_embed (look : registry) (ctx : context) (row : Z * case) : embed :=
  let case_details := row.2 in
  let display (uid : Z) : string :=
    match fetch_user look uid with
    | Some name => mention uid +:+ " (" +:+ name +:+ ")"
    | None => "Unknown (ID: " +:+ pretty uid +:+ ")"
    end in
  let embed :=
    add_field "Moderator"
      (display (moderator_id case_details) +:+ nl +:+ "ID: " +:+
       pretty (moderator_id case_details))
      (add_field "User"
         (display (user_id case_details) +:+ nl +:+ "ID: " +:+ pretty (user_id case_details))
         (Embed ("Case #" +:+ pretty row.1 +:+ " | " +:+ Str.title (action case_details)) ""
            (get_action_color (action case_details)))) in
  let embed :=
    if Str.truthy_opt (reason case_details)
    then add_field "Reason" (Str.take 1024 (default "" (reason case_details))) embed
    else embed in
  let embed :=
    if Str.truthy_opt (duration case_details)
    then add_field "Duration" (default "" (duration case_details)) embed
    else embed in
  set_footer ("Guild: " +:+ guild_name ctx +:+ " (" +:+ pretty (guild_id ctx) +:+ ")") embed.

(** One field of the history of a user. *)
Definition history_field (look : registry) (case_item : Z * case) : string * string :=
  let '(ts_str, rel_ts_str) :=
    match epoch look (timestamp case_item.2) with
    | Some t => ("<t:" +:+ pretty t +:+ ":f>", "<t:" +:+ pretty t +:+ ":R>")
    | None => ("Invalid Date", "")
    end in
  let mod_display_in_field := "Mod: <@" +:+ pretty (moderator_id case_item.2) +:+ ">" in
  let reason_preview :=
    match reason case_item.2 with
    | Some r =>
        if Str.truthy r then
          if decide (100 < Z.of_nat (String.length r)) then Str.take 100 r +:+ "..." else r
        else "No reason provided."
    | None => "No reason provided."
    end in
  let value :=
    mod_display_in_field +:+ nl +:+ "Date: " +:+ ts_str +:+ " (" +:+ rel_ts_str +:+ ")" +:+ nl +:+
    "Reason: " +:+ reason_preview in
  let value :=
    if Str.truthy_opt (duration case_item.2)
    then value +:+ nl +:+ "Duration: " +:+ default "" (duration case_item.2)
    else value in
  ("#" +:+ pretty case_item.1 +:+ " - " +:+ Str.title (action case_item.2),
   Str.take 1024 value).

(** The embed of the history of a user, without timestamp and thumbnail. *)
Definition history_embed (look : registry) (user : target) (user_case_list : list (Z * case))
  : embed :=
  let display_count := Z.min (Z.of_nat (length user_case_list)) 5 in
  let embed :=
    Embed ("Mod History: " +:+ name user)
      (pretty (Z.of_nat (length user_case_list)) +:+ " case(s) for " +:+ mention (id user) +:+ ".")
      0x3498DB in
  let embed :=
    foldl (fun e case_item =>
             let '(n, v) := history_field look case_item in add_field n v e)
          embed (take (Z.to_nat display_count) user_case_list) in
  let footer_text :=
    "User ID: " +:+ pretty (id user) +:+
    (if decide (display_count < Z.of_nat (length user_case_list))
     then " | Showing " +:+ pretty display_count +:+ " of " +:+
          pretty (Z.of_nat (length user_case_list)) +:+ " most recent cases."
     else "") in
  set_footer footer_text embed.

(** [case]; the last branch of the source, for an argument that is neither
    a number nor a user, cannot be reached through the converter. *)
Definition case_body (env : environment) (look : registry) (ctx : context)
    (identifier : case_argument) (db : database) : list event * database :=
  let db := _ensure_guild_tables_exist (db_fault env) (guild_id ctx) db in
  match identifier with
  | CaseId case_id_input =>
      let '(case_details, db) := get_case (db_fault env) (guild_id ctx) case_id_input db in
      match case_details with
      | None =>
          (_send_feedback_embed "Not Found"
             ("Case #" +:+ pretty case_id_input +:+ " not found in this guild.") Color.red, db)
      | Some row => ([Send (Rich (case_embed look ctx row))], db)
      end
  | User user =>
      let '(user_case_list, db) := get_user_cases (db_fault env) (guild_id ctx) (id user) db in
      match user_case_list with
      | [] =>
          (_send_feedback_embed "Not Found"
             ("No cases found for " +:+ mention (id user) +:+ " in this guild.") Color.blue, db)
      | _ => ([Send (Rich (history_embed look user user_case_list))], db)
      end
  end.

Definition case_command (env : environment) (look : registry) (ctx : context)
    (identifier : case_argument) : database -> outcome :=
  check_permissions ctx ["moderate_members"] []
    (fun db => returns (case_body env look ctx identifier db)).

Definition nobody_known : registry := mk_registry (fun _ => None) (fun _ => None).

(** Six warnings of the same member, one after the other. *)
Definition six_warnings : database :=
  foldl (fun db why => (create_case None (1700000000 # 1) 1 8 7 "warn" (Some why) None db).2)
        no_tables ["a"; "b"; "c"; "d"; "e"; "f"].

(** One unit of a formatted duration: nothing when the count is zero. *)
Definition unit_part (n : Z) (unit : string) : list string :=
  if decide (n = 0) then [] else [pretty n +:+ unit].


(** The calls that act on a member: kick, ban, unban, timeout. *)
Definition moderates (e : event) : bool :=
  match e with
  | Kick _ _ _ | Ban _ _ _ | Unban _ _ _ | SetTimeout _ _ _ _ => true
  | _ => false
  end.

Definition to_mod_log (e : event) : bool :=
  match e with ChannelSend _ _ => true | _ => false end.

(** Neither an action on a member nor a message to the mod-log. *)
Definition quiet (tr : list event) : Prop :=
  Forall (fun e => moderates e = false /\ to_mod_log e = false) tr.

Definition refusing (emoji : string) (parsed : option Q) (r : api_result) : environment :=
  mk_environment None (1700000000 # 1) (fun _ => parsed) PromptSent 500
    [mk_reaction 7 500 emoji] Done Done r (fun _ => None).


Definition an_officer : target := mk_target 9 "carol#0003" true (Some 10) None true.

End Moderation.

(** ** cogs/power.py *)

Module Power.

Record context := mk_context {
  author_id : Z;
  channel_id : Z;
  is_owner : bool
}.

(** A [message] event. *)
Record incoming := mk_incoming {
  msg_author : Z;
  msg_channel : Z;
  msg_content : string
}.

(** What the outside answers during one command: the number
    [random.randint(100000, 999999)] draws and the messages that arrive
    within the 15 seconds of the wait, in their order. *)
Record environment := mk_environment {
  randint : Z;
  arrivals : list incoming
}.

Definition outcome : Type := option command_error * list event.

(** [@commands.is_owner()] *)
Definition check_owner (ctx : context) (body : list event) : outcome :=
  if is_owner ctx then (None, body) else (Some NotOwner, []).

(** The [check] of both commands *)
Definition check (ctx : context) (message : incoming) : bool :=
  bool_decide (msg_author message = author_id ctx) &&
  bool_decide (msg_channel message = channel_id ctx).

(** [bot.wait_for("message", timeout=15.0, check=check)]: the first message
    that passes the check, or the time-out. *)
Definition wait_for_message (env : environment) (ctx : context) : option incoming :=
  List.find (check ctx) (arrivals env).

Definition restart_prompt (confirmation_code : string) : embed :=
  Embed "⚠️ Bot Restart Confirmation"
    ("Please type the following code to confirm the **restart**:" +:+ nl +:+ nl +:+
     "**`" +:+ confirmation_code +:+ "`**" +:+ nl +:+ nl +:+
     "*You have 15 seconds to respond. This action is irreversible.*")
    Color.orange.

(** [restart]: after [os.execv] the process is another one, nothing follows. *)
Definition restart_command_body (env : environment) (ctx : context) : list event :=
  let confirmation_code := pretty (randint env) in
  Send (Rich (restart_prompt confirmation_code)) ::
  match wait_for_message env ctx with
  | Some response_message =>
      if decide (msg_content response_message = confirmation_code) then
        [Send (Rich (Embed "✅ Restarting..."
                       "Confirmation accepted. The bot will now restart." Color.green));
         Execv]
      else
        [Send (Rich (Embed "❌ Incorrect Code" "Restart cancelled." Color.red))]
  | None => [Send (Rich (Embed "⏰ Timed Out" "Restart cancelled." Color.red))]
  end.

Definition restart_command (env : environment) (ctx : context) : outcome :=
  check_owner ctx (restart_command_body env ctx).

Definition shutdown_prompt (confirmation_code : string) : embed :=
  Embed "🛑 Bot Shutdown Confirmation"
    ("Please type the following code to confirm the **shutdown**:" +:+ nl +:+ nl +:+
     "**`" +:+ confirmation_code +:+ "`**" +:+ nl +:+ nl +:+
     "**Warning:** This action is final. The bot will go offline and must be started manually.")
    Color.dark_red.

(** [shutdown] *)
Definition shutdown_command_body (env : environment) (ctx : context) : list event :=
  let confirmation_code := pretty (randint env) in
  Send (Rich (shutdown_prompt confirmation_code)) ::
  match wait_for_message env ctx with
  | Some response_message =>
      if decide (msg_content response_message = confirmation_code) then
        [Send (Rich (Embed "✅ Shutting Down..." "Confirmation accepted. Goodbye!"
                       Color.green));
         Close]
      else
        [Send (Rich (Embed "❌ Incorrect Code" "Shutdown cancelled." Color.red))]
  | None => [Send (Rich (Embed "⏰ Timed Out" "Shutdown cancelled." Color.red))]
  end.

Definition shutdown_command (env : environment) (ctx : context) : outcome :=
  check_owner ctx (shutdown_command_body env ctx).

(** The invoking user types the code: among the messages that arrive within
    the 15 seconds, the first one of the invoking user in the channel of the
    command is exactly the code that was shown. *)
Definition code_typed (env : environment) (ctx : context) : Prop :=
  exists before m after,
    arrivals env = before ++ m :: after /\
    msg_author m = author_id ctx /\
    msg_channel m = channel_id ctx /\
    msg_content m = pretty (randint env) /\
    Forall (fun x => ~ (msg_author x = author_id ctx /\
                        msg_channel x = channel_id ctx)) before.

Definition the_owner : context := mk_context 7 20 true.

Definition typing (texts : list string) : environment :=
  mk_environment 123456 (map (mk_incoming 7 20) texts).

(** What the user of a power command gets: the trace of the command, then
    what the error handler does with the exception of its check. *)
Definition handle (eenv : ErrorHandler.environment) (ectx : ErrorHandler.context)
    (out : Power.outcome) : list event :=
  out.2 ++ match out.1 with
           | Some e => ErrorHandler.on_command_error eenv ectx e
           | None => []
           end.

End Power.

(** ** cogs/music.py *)

Module Music.

(** The task [asyncio.create_task(self.disconnect_after_timeout(guild_id))]:
    the guild it is for and the seconds it sleeps before it acts. *)
Record task := mk_task {
  task_guild : Z;
  sleep : Z
}.

(** [GuildMusicState] *)
Record GuildMusicState := mk_state {
  queue : list track;
  volume : Z;
  autoplay : bool;
  disconnect_task : option task;
  bound_channel : option Z;
  current_track : option track
}.

(** [GuildMusicState.__init__] *)
Definition new_state : GuildMusicState :=
  {| queue := []; volume := 50; autoplay := false; disconnect_task := None;
     bound_channel := None; current_track := None |}.

(** The cog with what it reads of the platform: the states by guild (a
    [defaultdict]) and the guilds whose [voice_client] is set. *)
Record cog := mk_cog {
  guild_states : gmap Z GuildMusicState;
  voice_clients : gset Z
}.

(** What [player.fetch_tracks] returns. *)
Inductive fetched :=
| FetchRaised
| NoTracks
| Tracks (tracks : list track)
| Playlist (playlist_name : string) (tracks : list track).

(** What the outside answers during one call: the searches of the node and
    the number [random.choice] draws. *)
Record environment := mk_environment {
  fetch_tracks : string -> fetched;
  choice : nat
}.

Definition outcome : Type := (option command_error * list event) * cog.

Definition set_state (guild_id : Z) (state : GuildMusicState) (c : cog) : cog :=
  {| guild_states := <[guild_id := state]> (guild_states c);
     voice_clients := voice_clients c |}.

(** [self.guild_states[guild_id]]: the state of the guild, made on first use. *)
Definition get_state (guild_id : Z) (c : cog) : GuildMusicState :=
  default new_state (guild_states c !! guild_id).

Definition EMOJIS_disconnect : string := "👋".

Definition create_embed (title description : string) : embed :=
  Embed title description 0xC603FC.

(** [disconnect_after_timeout], from the end of its sleep on *)
Definition disconnect_after_timeout (guild_id : Z) (c : cog) : list event * cog :=
  ((if decide (guild_id ∈ voice_clients c) then
      Disconnect guild_id ::
      match guild_states c !! guild_id with
      | Some state =>
          match bound_channel state with
          | Some ch =>
              [ChannelSend ch
                 (Rich (create_embed "" (EMOJIS_disconnect +:+
                                         " Disconnected due to inactivity.")))]
          | None => []
          end
      | None => []
      end
    else []),
   {| guild_states := delete guild_id (guild_states c);
      voice_clients := voice_clients c ∖ {[guild_id]} |}).

(** A task that is not cancelled sleeps and then runs its coroutine. *)
Definition run_task (t : task) (c : cog) : list event * cog :=
  disconnect_after_timeout (task_guild t) c.

(** [on_track_start] *)
Definition on_track_start (guild_id : Z) (t : track) (c : cog) : cog :=
  let state := get_state guild_id c in
  set_state guild_id
    {| queue := queue state; volume := volume state; autoplay := autoplay state;
       disconnect_task := None; bound_channel := bound_channel state;
       current_track := Some t |} c.

Definition with_current (current : option track) (state : GuildMusicState)
  : GuildMusicState :=
  {| queue := queue state; volume := volume state; autoplay := autoplay state;
     disconnect_task := disconnect_task state; bound_channel := bound_channel state;
     current_track := current |}.

(** [play_next] *)
Definition play_next (env : environment) (guild_id : Z) (c : cog) : outcome :=
  let state := get_state guild_id c in
  if decide (guild_id ∉ voice_clients c) then ((None, []), set_state guild_id state c)
  else
    let last_track := current_track state in
    match queue state with
    | next_track :: rest =>
        ((None, [Play guild_id next_track]),
         set_state guild_id
           {| queue := rest; volume := volume state; autoplay := autoplay state;
              disconnect_task := disconnect_task state;
              bound_channel := bound_channel state;
              current_track := Some next_track |} c)
    | [] =>
        let state := with_current None state in
        let schedule :=
          ((None, []),
           set_state guild_id
             {| queue := queue state; volume := volume state; autoplay := autoplay state;
                disconnect_task := Some (mk_task guild_id 30);
                bound_channel := bound_channel state;
                current_track := current_track state |} c) in
        let play (t : track) : outcome :=
          ((None, [Play guild_id t]), set_state guild_id (with_current (Some t) state) c) in
        let fallback : outcome :=
          match fetch_tracks env "lofi hip hop radio" with
          | FetchRaised =>
              ((Some (CommandInvokeError "Exception" "fetch_tracks"), []),
               set_state guild_id state c)
          | Tracks (t :: ts) =>
              play (nth (choice env mod length (t :: ts)) (t :: ts) t)
          | Playlist _ _ =>
              ((Some (CommandInvokeError "TypeError" "random.choice"), []),
               set_state guild_id state c)
          | _ => schedule
          end in
        if autoplay state then
          match last_track with
          | Some last =>
              if Str.truthy (identifier last) then
                match fetch_tracks env
                        ("https://music.youtube.com/watch?v=" +:+ identifier last +:+
                         "&list=RDAMVM" +:+ identifier last) with
                | Playlist _ (_ :: next_track :: _) => play next_track
                | _ => fallback
                end
              else fallback
          | None => fallback
          end
        else schedule
    end.

(** [on_track_end]; [replaced] tells whether [event.reason == "REPLACED"]. *)
Definition on_track_end (env : environment) (replaced : bool) (guild_id : Z) (c : cog)
  : outcome :=
  if replaced then ((None, []), c) else play_next env guild_id c.

(** [n] calls of [play_next] one after the other: the traces of the calls in
    their order and the cog at the end. *)
Fixpoint play_next_times (env : environment) (n : nat) (guild_id : Z) (c : cog)
  : list (list event) * cog :=
  match n with
  | O => ([], c)
  | S k =>
      let '((_, tr), c') := play_next env guild_id c in
      let '(trs, c'') := play_next_times env k guild_id c' in
      (tr :: trs, c'')
  end.

Definition song (n : string) : track := mk_track n ("song " +:+ n) ("https://example.org/" +:+ n).

Definition playing : cog :=
  mk_cog {[ 1 := mk_state [song "a"; song "b"] 50 false None (Some 20) None ]} {[ 1 ]}.

Definition no_search : environment := mk_environment (fun _ => NoTracks) 0.

(** *** The commands *)
Definition EMOJIS_error : string := "❌".

Definition EMOJIS_track : string := "<a:minecraft_xp_orb:1383114748673003563>".

Definition EMOJIS_info : string := "<a:minecraftenchantedbook:1383115499524587521>".

Definition EMOJIS_success : string := "<a:success:1383116048932536380>".

Definition EMOJIS_stop : string := "⏹️".

Definition EMOJIS_queue : string := "📋".

Definition EMOJIS_search : string := "🔎".

Definition EMOJIS_volume : string := "🔊".

Definition EMOJIS_autoplay : string := "🔄".

(** [f"{n:02d}"] for a number that is not negative *)
Definition two_digits (n : Z) : string :=
  if decide (n < 10) then "0" +:+ pretty n else pretty n.

(** [format_duration] of this cog, on milliseconds.  The source divides in
    floating point; the quotients below are the same numbers as long as the
    division by 1000 is exact to the millisecond (below 2^53 ms). *)
Definition format_duration (milliseconds : option Z) : string :=
  match milliseconds with
  | None => "N/A"
  | Some milliseconds =>
      let seconds := milliseconds / 1000 in
      let m := seconds / 60 in
      let s := seconds mod 60 in
      let h := m / 60 in
      let m := m mod 60 in
      if decide (0 < h) then two_digits h +:+ ":" +:+ two_digits m +:+ ":" +:+ two_digits s
      else two_digits m +:+ ":" +:+ two_digits s
  end.

(** What a command reads of the player [ctx.voice_client]. *)
Record player := mk_player {
  player_channel : Z;
  current : option track
}.

(** What a command reads of [ctx]: the guild ([None] in a direct message),
    the channel, the author and the voice channel the author is in, the
    player of the guild, and the name of the bot. *)
Record context := mk_context {
  guild : option Z;
  channel : Z;
  author_id : Z;
  author_voice : option Z;
  voice_client : option player;
  bot_user_name : string
}.

(** The calls to the player that the listeners do not make. *)
Inductive player_call :=
| Connect (channel : Z)        (* channel.connect(cls=mafic.Player) *)
| SetVolume (level : Z)        (* player.set_volume *)
| PlayerStop.                  (* player.stop *)

Inductive action :=
| Platform (e : event)
| Player (guild : Z) (call : player_call).

(** The attributes of a track that only the commands read, and the text of
    the exception of a search that raises. *)
Record library := mk_library {
  track_author : track -> string;
  track_length : track -> option Z;
  fetch_error : string
}.

(** An exception with its text [str(error)]. *)
Definition raised : Type := command_error * string.

Definition result : Type := (option raised * list action) * cog.

(** [cog_check] *)
Definition cog_check (ctx : context) : option raised :=
  match guild ctx with
  | None => Some (NoPrivateMessage, "Music commands cannot be used in DMs.")
  | Some _ => None
  end.

(** [cog_before_invoke] *)
Definition cog_before_invoke (command_name : string) (ctx : context) : option raised :=
  if decide (command_name = "node") then None
  else
    match author_voice ctx with
    | None =>
        Some (CommandError "You must be in a voice channel to use this command.",
              "You must be in a voice channel to use this command.")
    | Some author_channel =>
        match voice_client ctx with
        | Some p =>
            if decide (player_channel p <> author_channel) then
              Some (CommandError "You must be in the same voice channel as the bot.",
                    "You must be in the same voice channel as the bot.")
            else None
        | None => None
        end
    end.

(** [cog_command_error] *)
Definition cog_command_error (error : raised) : list event :=
  [Send (Rich (Embed (EMOJIS_error +:+ " An Error Occurred") error.2 Color.red))].

Definition footer_text (ctx : context) : string :=
  "🌺 " +:+ bot_user_name ctx +:+ " | By katxd.xyz".

Definition with_queue (q : list track) (bound : option Z) (state : GuildMusicState)
  : GuildMusicState :=
  {| queue := q; volume := volume state; autoplay := autoplay state;
     disconnect_task := disconnect_task state; bound_channel := bound;
     current_track := current_track state |}.

(** [play].  The icon of the author line and the thumbnail of the embed are
    left out, as [embed] has neither; the bot user is taken to have an
    avatar. *)
Definition play (env : environment) (lib : library) (ctx : context) (guild_id : Z)
    (query : string) (c : cog) : result :=
  let state := get_state guild_id c in
  let connected :=
    match voice_client ctx with
    | Some p => inr (current p, [], c)
    | None =>
        match author_voice ctx with
        | Some voice_channel =>
            inr (None,
                 [Player guild_id (Connect voice_channel);
                  Player guild_id (SetVolume (volume state))],
                 {| guild_states := guild_states c;
                    voice_clients := voice_clients c ∪ {[guild_id]} |})
        | None =>
            inl (CommandInvokeError "AttributeError"
                   "'NoneType' object has no attribute 'channel'",
                 "'NoneType' object has no attribute 'channel'")
        end
    end in
  match connected with
  | inl e => ((Some e, []), set_state guild_id state c)
  | inr (player_current, tr0, c) =>
      let bound := Some (channel ctx) in
      let search :=
        Platform (Send (Rich (create_embed EMOJIS_search
                                ("Searching for `" +:+ query +:+ "`...")))) in
      let not_found :=
        ((None,
          tr0 ++ [search;
                  Platform (Edit (Rich (Embed (EMOJIS_error +:+ " Not Found")
                                          "No tracks were found for your query." Color.red)))]),
         set_state guild_id (with_queue (queue state) bound state) c) in
      let finish (q : list track) (embed : embed) : result :=
        let c := set_state guild_id (with_queue q bound state) c in
        let tr := tr0 ++ [search; Platform (Edit (Rich (set_footer (footer_text ctx) embed)))] in
        match player_current with
        | Some _ => ((None, tr), c)
        | None =>
            let '((err, tr'), c) := play_next env guild_id c in
            ((match err with
              | Some e => Some (e, ErrorHandler.original_text e)
              | None => None
              end, tr ++ map Platform tr'), c)
        end in
      match fetch_tracks env query with
      | FetchRaised =>
          ((None,
            tr0 ++ [search;
                    Platform (Edit (Rich (Embed EMOJIS_error
                                            ("Error while searching: " +:+ fetch_error lib)
                                            Color.red)))]),
           set_state guild_id (with_queue (queue state) bound state) c)
      | NoTracks => not_found
      | Tracks [] => not_found
      | Playlist playlist_name tracks =>
          finish (queue state ++ tracks)
            (add_field (EMOJIS_info +:+ " Playlist Info")
               ("┗ **Added by <@" +:+ pretty (author_id ctx) +:+ ">** ``" +:+
                pretty (Z.of_nat (length tracks)) +:+ " tracks``")
               (set_author "🎵 | Playlist Added"
                  (create_embed ""
                     ("> **" +:+ EMOJIS_queue +:+ " [" +:+ playlist_name +:+ "](" +:+
                      match tracks with t :: _ => uri t | [] => "" end +:+ ")**"))))
      | Tracks (track :: _) =>
          let status_text :=
            match player_current with
            | None => "🎵 | Now Playing"
            | Some _ => "🎵 | Track Added"
            end in
          finish (queue state ++ [track])
            (add_field (EMOJIS_info +:+ " Track Info")
               ("┗ **" +:+ track_author lib track +:+ "** ``" +:+
                format_duration (track_length lib track) +:+ "``")
               (set_author status_text
                  (create_embed ""
                     ("> **" +:+ EMOJIS_track +:+ " [" +:+ track_title track +:+ "](" +:+
                      uri track +:+ ")**"))))
      end
  end.

Definition forget (guild_id : Z) (c : cog) : cog :=
  {| guild_states := delete guild_id (guild_states c);
     voice_clients := voice_clients c ∖ {[guild_id]} |}.

(** [disconnect] *)
Definition disconnect (ctx : context) (guild_id : Z) (c : cog) : result :=
  match voice_client ctx with
  | None => ((None, [Platform (Send (Text "I am not in a voice channel."))]), c)
  | Some _ =>
      ((None,
        [Platform (Disconnect guild_id);
         Platform (Send (Rich (create_embed ""
                                 (EMOJIS_success +:+ " Disconnected successfully."))))]),
       forget guild_id c)
  end.

Definition playing_now (ctx : context) : bool :=
  match voice_client ctx with
  | Some p => bool_decide (is_Some (current p))
  | None => false
  end.

(** [stop] *)
Definition stop (ctx : context) (guild_id : Z) (c : cog) : result :=
  if negb (playing_now ctx) then
    ((None, [Platform (Send (Text "There is nothing to stop."))]), c)
  else
    ((None,
      [Player guild_id PlayerStop;
       Platform (Send (Rich (create_embed ""
                               (EMOJIS_stop +:+ " Stopped playback and cleared the queue."))))]),
     match guild_states c !! guild_id with
     | Some state =>
         set_state guild_id
           {| queue := []; volume := volume state; autoplay := autoplay state;
              disconnect_task := None; bound_channel := bound_channel state;
              current_track := None |} c
     | None => c
     end).

(** [volume] *)
Definition volume_command (ctx : context) (guild_id : Z) (level : Z) (c : cog) : result :=
  if negb (bool_decide (0 <= level <= 150)) then
    ((None, [Platform (Send (Text "Volume must be between 0 and 150."))]), c)
  else
    match voice_client ctx with
    | None => ((None, [Platform (Send (Text "I am not in a voice channel."))]), c)
    | Some _ =>
        let state := get_state guild_id c in
        ((None,
          [Player guild_id (SetVolume level);
           Platform (Send (Rich (create_embed ""
                                   (EMOJIS_volume +:+ " Volume set to **" +:+ pretty level +:+
                                    "%**."))))]),
         set_state guild_id
           {| queue := queue state; volume := level; autoplay := autoplay state;
              disconnect_task := disconnect_task state; bound_channel := bound_channel state;
              current_track := current_track state |} c)
    end.

(** [autoplay] *)
Definition autoplay_command (ctx : context) (guild_id : Z) (c : cog) : result :=
  let state := get_state guild_id c in
  let status := if negb (autoplay state) then "On" else "Off" in
  ((None,
    [Platform (Send (Rich (create_embed ""
                             (EMOJIS_autoplay +:+ " Autoplay is now **" +:+ status +:+
                              "**."))))]),
   set_state guild_id
     {| queue := queue state; volume := volume state; autoplay := negb (autoplay state);
        disconnect_task := disconnect_task state; bound_channel := bound_channel state;
        current_track := current_track state |} c).

(** The commands of the cog, but for [skip], [queue], [node], [pause] and
    [resume], which read more of the player than its channel and its track. *)
Inductive request :=
| PlayQuery (query : string)
| DisconnectPlayer
| StopPlayback
| SetVolumeTo (level : Z)
| ToggleAutoplay.

Definition command_name (r : request) : string :=
  match r with
  | PlayQuery _ => "play"
  | DisconnectPlayer => "disconnect"
  | StopPlayback => "stop"
  | SetVolumeTo _ => "volume"
  | ToggleAutoplay => "autoplay"
  end.

(** Invoking a command: the check of the cog, the hook before the command,
    then the command. *)
Definition invoke (env : environment) (lib : library) (ctx : context) (r : request) (c : cog)
  : result :=
  match cog_check ctx, guild ctx with
  | Some e, _ => ((Some e, []), c)
  | None, None => ((None, []), c)
  | None, Some guild_id =>
      match cog_before_invoke (command_name r) ctx with
      | Some e => ((Some e, []), c)
      | None =>
          match r with
          | PlayQuery query => play env lib ctx guild_id query c
          | DisconnectPlayer => disconnect ctx guild_id c
          | StopPlayback => stop ctx guild_id c
          | SetVolumeTo level => volume_command ctx guild_id level c
          | ToggleAutoplay => autoplay_command ctx guild_id c
          end
      end
  end.

(** What the framework does with the exception of a command of this cog:
    the handler of the cog runs, then the listeners of [on_command_error]. *)
Definition dispatch_error (eenv : ErrorHandler.environment) (ectx : ErrorHandler.context)
    (error : raised) : list event :=
  cog_command_error error ++ ErrorHandler.on_command_error eenv ectx error.1.

(** Everything that happens to the cog: a command, the end or the start of a
    track, a disconnect task that wakes up. *)
Inductive happening :=
| Invoked (env : environment) (lib : library) (ctx : context) (r : request)
| TrackEnded (env : environment) (replaced : bool) (guild_id : Z)
| TrackStarted (guild_id : Z) (t : track)
| TaskWoke (t : task).

Definition step (h : happening) (c : cog) : cog :=
  match h with
  | Invoked env lib ctx r => (invoke env lib ctx r c).2
  | TrackEnded env replaced guild_id => (on_track_end env replaced guild_id c).2
  | TrackStarted guild_id t => on_track_start guild_id t c
  | TaskWoke t => (run_task t c).2
  end.

Definition steps (hs : list happening) (c : cog) : cog := foldl (fun c h => step h c) c hs.

(** The volume of every guild is between 0 and 150. *)
Definition volume_in_range (c : cog) : Prop :=
  forall g st, guild_states c !! g = Some st -> 0 <= volume st <= 150.

(** A listener in voice channel 40 of guild 1, where the bot plays [now]. *)
Definition listening (now : option track) : context :=
  mk_context (Some 1) 20 7 (Some 40) (Some (mk_player 40 now)) "Roxy".

Definition plain : library := mk_library (fun _ => "artist") (fun _ => Some 61000) "timeout".

Definition silence : cog := mk_cog ∅ ∅.

Definition finding (found : fetched) : environment := mk_environment (fun _ => found) 0.

Definition in_dm : context := mk_context None 20 7 None None "Roxy".

End Music.

(** ** utils/katlog.py *)

Module Katlog.

Definition ESC : string := String "027"%char EmptyString.

Definition _RESET : string := ESC +:+ "[0m".

(** [_COLORS.get(level)] *)
Definition _COLORS (level : string) : option string :=
  if decide (level = "TRACE") then Some (ESC +:+ "[37m")
  else if decide (level = "DEBUG") then Some (ESC +:+ "[36m")
  else if decide (level = "INFO") then Some (ESC +:+ "[34m")
  else if decide (level = "SUCCESS") then Some (ESC +:+ "[1;32m")
  else if decide (level = "EVENT") then Some (ESC +:+ "[35m")
  else if decide (level = "MODULE") then Some (ESC +:+ "[1;35m")
  else if decide (level = "DATABASE") then Some (ESC +:+ "[1;34m")
  else if decide (level = "WARNING") then Some (ESC +:+ "[33m")
  else if decide (level = "SYSTEM") then Some (ESC +:+ "[1;33m")
  else if decide (level = "ERROR") then Some (ESC +:+ "[31m")
  else if decide (level = "CRITICAL") then Some (ESC +:+ "[1;31m")
  else None.

(** [logging.getLevelName(name)] for a name: the number of a registered
    level ([None] stands for the text "Level <name>" of the others).  The
    levels are those of the module [logging] and the six that
    [_register_custom_levels] adds. *)
Definition getLevelName (level : string) : option Z :=
  if decide (level = "CRITICAL") then Some 50
  else if decide (level = "FATAL") then Some 50
  else if decide (level = "ERROR") then Some 40
  else if decide (level = "WARN") then Some 30
  else if decide (level = "WARNING") then Some 30
  else if decide (level = "INFO") then Some 20
  else if decide (level = "DEBUG") then Some 10
  else if decide (level = "NOTSET") then Some 0
  else if decide (level = "TRACE") then Some 5
  else if decide (level = "SUCCESS") then Some 25
  else if decide (level = "EVENT") then Some 17
  else if decide (level = "MODULE") then Some 16
  else if decide (level = "DATABASE") then Some 15
  else if decide (level = "SYSTEM") then Some 35
  else None.

(** [n] copies of a text: [text * n] *)
Fixpoint times (n : nat) (text : string) : string :=
  match n with
  | O => ""
  | S k => text +:+ times k text
  end.

(** [f"{level:<8}"]: the text, followed by spaces up to eight characters *)
Definition ljust8 (level : string) : string :=
  level +:+ times (8 - String.length level) " ".

(** The threshold [__init__] sets on the logger: [logging.DEBUG]. *)
Definition logger_level : Z := 10.

(** [_log]: the line the handler writes, if the logger lets the record
    through; [timestamp] is the clock as [%H:%M:%S]. *)
Definition _log (timestamp level message : string) : option string :=
  let '(level_value, level) :=
    match getLevelName level with
    | Some n => (n, level)
    | None => (20, "INFO")
    end in
  let color := default _RESET (_COLORS level) in
  let level_display := "[" +:+ ljust8 level +:+ "]" in
  let formatted_msg :=
    timestamp +:+ " " +:+ color +:+ level_display +:+ ":" +:+ _RESET +:+ " " +:+ message in
  if decide (logger_level <= level_value) then Some formatted_msg else None.

Definition trace (timestamp message : string) := _log timestamp "TRACE" message.
Definition debug (timestamp message : string) := _log timestamp "DEBUG" message.
Definition info (timestamp message : string) := _log timestamp "INFO" message.
Definition success (timestamp message : string) := _log timestamp "SUCCESS" message.
Definition event (timestamp message : string) := _log timestamp "EVENT" message.
Definition module (timestamp message : string) := _log timestamp "MODULE" message.
Definition database (timestamp message : string) := _log timestamp "DATABASE" message.
Definition warning (timestamp message : string) := _log timestamp "WARNING" message.
Definition system (timestamp message : string) := _log timestamp "SYSTEM" message.
Definition error (timestamp message : string) := _log timestamp "ERROR" message.
Definition critical (timestamp message : string) := _log timestamp "CRITICAL" message.

(** The banner line of [header] between the colour codes:
    [" " * padding + f" {text} " + " " * padding]. *)
Definition banner (terminal_width : Z) (text : string) : string :=
  let padding := (terminal_width - Z.of_nat (String.length text) - 2) / 2 in
  times (Z.to_nat padding) " " +:+ (" " +:+ text +:+ " ") +:+ times (Z.to_nat padding) " ".

(** [header]: the three texts given to [print]; [terminal_width] is
    [shutil.get_terminal_size().columns]. *)
Definition header (terminal_width : Z) (text color_key : string) : list string :=
  let color := default (ESC +:+ "[1;33m") (_COLORS (Str.upper color_key)) in
  [nl +:+ color +:+ times (Z.to_nat terminal_width) "=" +:+ _RESET;
   color +:+ banner terminal_width text +:+ _RESET;
   color +:+ times (Z.to_nat terminal_width) "=" +:+ _RESET +:+ nl].

(** The names the methods of the logger pass to [_log], but for [trace]. *)
Definition written_levels : list string :=
  ["DEBUG"; "INFO"; "SUCCESS"; "EVENT"; "MODULE"; "DATABASE"; "WARNING"; "SYSTEM"; "ERROR";
   "CRITICAL"].

End Katlog.

(** ** main.py *)

Module Bot.

(** [s.endswith(suffix)] *)
Definition endswith (suffix s : string) : bool :=
  bool_decide (Str.drop (String.length s - String.length suffix) s = suffix).

(** [filename[:-3]] *)
Definition stem (filename : string) : string :=
  Str.take (String.length filename - 3) filename.

Definition is_cog_file (filename : string) : bool :=
  endswith ".py" filename && negb (Str.startswith "_" filename).

(** One turn of the loop of [_load_cogs]; [load_extension] tells for the
    name of an extension whether loading it raises, and with what text.  The
    state is the count [loaded_cogs] and the calls to the logger so far. *)
Definition load_one (load_extension : string -> option string)
    (acc : Z * list Discord.event) (filename : string) : Z * list Discord.event :=
  if is_cog_file filename then
    match load_extension ("cogs." +:+ stem filename) with
    | None => (acc.1 + 1, acc.2 ++ [Log INFO ("Loaded cog: " +:+ stem filename)])
    | Some e =>
        (acc.1, acc.2 ++ [Log ERROR ("Failed to load cog " +:+ stem filename +:+ ": " +:+ e)])
    end
  else acc.

(** [_load_cogs]: [listdir] is the content of ./cogs in the order
    [os.listdir] gives it. *)
Definition _load_cogs (listdir : list string) (load_extension : string -> option string)
  : Z * list Discord.event :=
  foldl (load_one load_extension) (0, []) listdir.

(** The files whose extension loads. *)
Definition loads (load_extension : string -> option string) (filename : string) : bool :=
  is_cog_file filename &&
  match load_extension ("cogs." +:+ stem filename) with None => true | Some _ => false end.

Definition broken_music (extension : string) : option string :=
  if decide (extension = "cogs.music") then Some "No module named 'mafic'" else None.

End Bot.

(** * Properties *)

(** ** Strings *)

Section strings.

Lemma append_inj_r (p a b : string) : p +:+ a = p +:+ b -> a = b.
Proof.
  induction p as [|c p IH]; simpl; [done|].
  intros H. injection H as H. by apply IH.
Qed.

End strings.

(** Two texts built by appending to string literals differ: compare the
    literal heads, cancel one shared variable part, compare the tails. *)
Ltac string_ne :=
  let H := fresh in
  intros H; cbv beta iota delta [String.append] in H;
  repeat (injection H as H); try discriminate H;
  fold String.append in H; apply append_inj_r in H; discriminate H.

(** ** Python strings *)

Module StrProps.
Import Str.

















Lemma truthy_iff s : truthy s = true <-> s <> "".
Proof.
  unfold truthy. destruct (String.eqb_spec s ""); simpl; split; congruence.
Qed.

(** The byte-wise order on strings. *)
Lemma leb_iff a b : String.leb a b = true <-> String_as_OT.lt a b \/ a = b.
Proof.
  unfold String.leb. rewrite <- String_as_OT.cmp_lt, <- String_as_OT.cmp_eq.
  unfold String_as_OT.cmp. destruct (String.compare a b); split; try done; auto.
  intros [?|?]; done.
Qed.

Lemma leb_trans a b c :
  String.leb a b = true -> String.leb b c = true -> String.leb a c = true.
Proof.
  rewrite !leb_iff. intros [Hab| ->] [Hbc| ->]; auto.
  left. eapply String_as_OT.lt_trans; eauto.
Qed.

End StrProps.

(** ** SQLite tables *)

Module SqliteProps.
Import Sqlite.

Section autoincrement.
Context {A : Type}.
Implicit Types (t : table A) (a : A).

Lemma sequential_empty : sequential (@empty A).
Proof. by split. Qed.

Lemma sequential_key_bound t r :
  sequential t -> r ∈ rows t -> 1 <= r.1 <= Z.of_nat (length (rows t)).
Proof.
  intros [_ Hkeys] Hr.
  assert (r.1 ∈ fst <$> rows t) as Hin by (by apply list_elem_of_fmap_2).
  rewrite Hkeys in Hin. apply list_elem_of_fmap in Hin as (i & -> & Hi).
  apply elem_of_seq in Hi. lia.
Qed.

Lemma max_rowid_bound (rs : list (Z * A)) n :
  0 <= n -> (forall r, r ∈ rs -> r.1 <= n) -> 0 <= max_rowid rs <= n.
Proof.
  intros Hn. induction rs as [|r rs IH]; intros Hrs; simpl; [lia|].
  pose proof (Hrs r (list_elem_of_here _ _)).
  destruct IH as [? ?]; [intros; apply Hrs; by apply list_elem_of_further|]. lia.
Qed.

Lemma next_rowid_sequential t :
  sequential t -> next_rowid t = Z.of_nat (length (rows t)) + 1.
Proof.
  intros Ht. unfold next_rowid. destruct (Ht) as [-> _].
  pose proof (max_rowid_bound (rows t) (Z.of_nat (length (rows t))) ltac:(lia)) as Hb.
  destruct Hb as [? ?]; [|lia].
  intros r Hr. by apply (sequential_key_bound t r Ht).
Qed.

Lemma insert_sequential a t : sequential t -> sequential (insert a t).2.
Proof.
  intros Ht. pose proof (next_rowid_sequential t Ht) as Hk.
  unfold insert. simpl. rewrite Hk. destruct Ht as [Hseq Hkeys]. split; simpl.
  - rewrite length_app. simpl. lia.
  - rewrite fmap_app, length_app, Hkeys. simpl.
    rewrite Nat.add_1_r, seq_S, fmap_app. simpl. do 3 f_equal. lia.
Qed.

Lemma last_rowid_sequential t : sequential t -> last_rowid t = Z.of_nat (length (rows t)).
Proof.
  intros [_ Hkeys]. unfold last_rowid. rewrite <- fmap_last, Hkeys, fmap_last.
  destruct (length (rows t)) as [|n]; [done|].
  rewrite seq_S, last_snoc. simpl. f_equal.
Qed.

(** The new row gets the key after the previous one and can be read back. *)
Lemma insert_select a t :
  sequential t ->
  (insert a t).1 = last_rowid t + 1 /\
  rows (insert a t).2 = rows t ++ [((insert a t).1, a)] /\
  select_by_rowid (insert a t).1 (insert a t).2 = Some ((insert a t).1, a).
Proof.
  intros Ht. rewrite last_rowid_sequential by done.
  pose proof (next_rowid_sequential t Ht) as Hk. unfold insert. simpl.
  split; [done|]. split; [done|].
  unfold select_by_rowid. simpl.
  rewrite list_find_app_r.
  - simpl. rewrite decide_True by done. done.
  - apply list_find_None, Forall_forall. intros r Hr Heq.
    pose proof (sequential_key_bound t r Ht Hr). lia.
Qed.

End autoincrement.

End SqliteProps.

(** ** cogs/prefix.py *)

Module PrefixProps.
Import Prefix.

Lemma elem_of_stored g p s : p ∈ stored g s <-> (g, p) ∈ guild_prefixes s.
Proof.
  unfold stored. rewrite elem_of_map. split.
  - intros [[g' p'] [-> [Hg Hin]%elem_of_filter]]. simpl in *. by subst.
  - intros Hin. exists (g, p). split; [done|]. by apply elem_of_filter.
Qed.

Lemma cache_add_lookup g p c g' :
  default ∅ (cache_add g p c !! g') =
  if decide (g = g') then default ∅ (c !! g) ∪ {[p]} else default ∅ (c !! g').
Proof.
  unfold cache_add. case_decide as Hg.
  - subst. by rewrite lookup_insert_eq.
  - by rewrite lookup_insert_ne.
Qed.

Lemma load_prefixes_lookup rows c g p :
  p ∈ default ∅ (foldl (fun c row => cache_add row.1 row.2 c) c rows !! g) <->
  p ∈ default ∅ (c !! g) \/ (g, p) ∈ rows.
Proof.
  revert c. induction rows as [|[g' p'] rows IH]; intros c; simpl.
  - rewrite elem_of_nil. tauto.
  - rewrite IH, cache_add_lookup, elem_of_cons. case_decide as Hg.
    + subst. rewrite elem_of_union, elem_of_singleton. split.
      * intros [[?| ->]|?]; auto.
      * intros [?|[Heq|?]]; auto. injection Heq as ->. auto.
    + split; [intros [?|?]; auto|].
      intros [?|[Heq|?]]; auto. injection Heq as ? ?. congruence.
Qed.

Lemma init_in_sync table : in_sync (init table).
Proof.
  intros g. apply set_eq. intros p. unfold init, load_prefixes. simpl.
  rewrite load_prefixes_lookup, elem_of_stored, lookup_empty. simpl.
  rewrite elem_of_elements, elem_of_empty. tauto.
Qed.

Lemma add_prefix_to_db_in_sync fault g p s :
  in_sync s -> in_sync (add_prefix_to_db fault g p s).2.
Proof.
  intros Hs. unfold add_prefix_to_db.
  destruct fault; [done|]. case_decide as Hin; [done|]. simpl.
  intros g'. apply set_eq. intros q. simpl.
  rewrite cache_add_lookup, elem_of_stored. simpl.
  rewrite elem_of_union, elem_of_singleton, <- elem_of_stored.
  case_decide as Hg.
  - subst. rewrite Hs, elem_of_union, elem_of_singleton. split.
    + intros [?| ->]; auto.
    + intros [?|[= ->]]; auto.
  - rewrite Hs. split; [auto|]. intros [?|[= ? ?]]; [done|congruence].
Qed.

Lemma remove_prefix_from_db_in_sync fault g p s :
  in_sync s -> in_sync (remove_prefix_from_db fault g p s).2.
Proof.
  intros Hs. unfold remove_prefix_from_db.
  destruct fault; [done|].
  assert (Hp : forall q, q ∈ default ∅ (prefix_cache s !! g) <-> (g, q) ∈ guild_prefixes s).
  { intros q. by rewrite Hs, elem_of_stored. }
  case_decide as Hin; simpl; intros g'; apply set_eq; intros q;
    rewrite elem_of_stored; simpl; rewrite elem_of_difference, elem_of_singleton,
      <- elem_of_stored, <- Hs.
  - apply Hp in Hin. destruct (prefix_cache s !! g) as [ps|] eqn:Hc; simpl in Hin;
      [|set_solver].
    rewrite decide_True by done.
    destruct (decide (g = g')) as [<-|Hg].
    + rewrite lookup_insert_eq, Hc. simpl. rewrite elem_of_difference, elem_of_singleton.
      split; [intros [? ?]; split; [done|congruence]|].
      intros [? Hne]; split; [done|]. intros ->. by apply Hne.
    + rewrite lookup_insert_ne by done. split; [|tauto].
      intros ?. split; [done|congruence].
  - split; [|tauto]. intros Hq. split; [done|]. intros [= <- ->].
    apply Hin, Hp. done.
Qed.

Lemma clear_all_prefixes_in_sync fault ctx s :
  in_sync s -> in_sync (clear_all_prefixes_body fault ctx s).2.
Proof.
  intros Hs. unfold clear_all_prefixes_body. destruct fault; [done|]. simpl.
  intros g. apply set_eq. intros q. rewrite elem_of_stored. simpl.
  rewrite elem_of_filter, <- elem_of_stored, <- Hs. simpl.
  destruct (prefix_cache s !! guild_id ctx) eqn:Hc.
  - destruct (decide (g = guild_id ctx)) as [->|Hg].
    + rewrite lookup_insert_eq. simpl. rewrite elem_of_empty. tauto.
    + rewrite lookup_insert_ne by done. tauto.
  - split; [|tauto]. intros Hq. split; [|done]. intros ->. rewrite Hc in Hq. set_solver.
Qed.

Lemma on_guild_remove_in_sync fault g s :
  in_sync s -> in_sync (on_guild_remove fault g s).2.
Proof.
  intros Hs. unfold on_guild_remove. destruct fault; [done|]. simpl.
  intros g'. apply set_eq. intros q. rewrite elem_of_stored. simpl.
  rewrite elem_of_filter, <- elem_of_stored, <- Hs. simpl.
  destruct (decide (g' = g)) as [->|Hg].
  - rewrite lookup_delete_eq. simpl. rewrite elem_of_empty. tauto.
  - rewrite lookup_delete_ne by done. tauto.
Qed.

Lemma run_in_sync i s : in_sync s -> in_sync (run i s).2.
Proof.
  intros Hs. unfold run, add_new_prefix, remove_existing_prefix, clear_all_prefixes,
    has_permissions_administrator.
  destruct (inv_op i) as [p|p|]; destruct (administrator (inv_ctx i)); simpl; try done.
  - unfold add_new_prefix_body. repeat case_decide; try done.
    pose proof (add_prefix_to_db_in_sync (inv_fault i) (guild_id (inv_ctx i)) p s Hs) as H'.
    destruct (add_prefix_to_db _ _ _ _) as [[[] tr] s']; done.
  - unfold remove_existing_prefix_body. case_decide; [done|].
    pose proof (remove_prefix_from_db_in_sync (inv_fault i) (guild_id (inv_ctx i)) p s Hs) as H'.
    destruct (remove_prefix_from_db _ _ _ _) as [[[] tr] s']; done.
  - by apply clear_all_prefixes_in_sync.
Qed.

Lemma run_all_in_sync invs s : in_sync s -> in_sync (run_all invs s).
Proof.
  revert s. induction invs as [|i invs IH]; intros s Hs; [done|].
  apply IH, run_in_sync, Hs.
Qed.

Lemma get_all_prefixes_in_sync g s :
  in_sync s -> get_all_prefixes g s = default_prefix :: elements (stored g s).
Proof.
  intros Hs. unfold get_all_prefixes. rewrite <- Hs.
  destruct (prefix_cache s !! g); simpl; [done|]. by rewrite elements_empty.
Qed.

(** *** Replies of the add and remove commands *)

Lemma added_ne_exists p :
  "Prefix `" +:+ p +:+ "` added successfully." <> "Prefix `" +:+ p +:+ "` already exists.".
Proof. string_ne. Qed.

Lemma added_ne_default p :
  "Prefix `" +:+ p +:+ "` added successfully." <>
  "Prefix `" +:+ p +:+ "` is the default prefix and cannot be added again.".
Proof. string_ne. Qed.

Lemma not_elem_of_singleton_send a b : a <> b -> Send (Text a) ∉ [Send (Text b)].
Proof. intros Hab H. apply list_elem_of_singleton in H. congruence. Qed.

Lemma default_in_all g s : default_prefix ∈ get_all_prefixes g s.
Proof. unfold get_all_prefixes. destruct (prefix_cache s !! g); apply list_elem_of_here. Qed.

(** Adding a prefix that is stored, or the default one, never succeeds and
    leaves the cog as it was. *)
Lemma add_known_rejected ctx fault p s :
  p ∈ stored (guild_id ctx) s \/ p = default_prefix ->
  rejected (mk_invocation ctx fault (Add p)) s /\
  (run (mk_invocation ctx fault (Add p)) s).2 = s.
Proof.
  intros Hp. unfold rejected, run, add_new_prefix, has_permissions_administrator. simpl.
  destruct (administrator ctx); simpl; [|split; [apply not_elem_of_nil|done]].
  unfold add_new_prefix_body.
  case_decide as He; [split; [apply not_elem_of_singleton_send; string_ne|done]|].
  case_decide as Hl; [split; [apply not_elem_of_singleton_send; string_ne|done]|].
  case_decide as Hm; [split; [apply not_elem_of_singleton_send; string_ne|done]|].
  case_decide as Hd;
    [split; [apply not_elem_of_singleton_send, added_ne_default|done]|].
  destruct Hp as [Hp| ->]; [|destruct Hd; split; [done|apply default_in_all]].
  apply elem_of_stored in Hp. unfold add_prefix_to_db.
  destruct fault as [e|]; simpl.
  - split; [|done]. intros [H|H]%elem_of_cons; [done|].
    revert H. apply not_elem_of_singleton_send, added_ne_exists.
  - rewrite decide_True by done. simpl.
    split; [apply not_elem_of_singleton_send, added_ne_exists|done].
Qed.

(** Removing the default prefix never succeeds and leaves the cog as it was. *)
Lemma remove_default_rejected ctx fault s :
  rejected (mk_invocation ctx fault (Remove default_prefix)) s /\
  (run (mk_invocation ctx fault (Remove default_prefix)) s).2 = s.
Proof.
  unfold rejected, run, remove_existing_prefix, has_permissions_administrator. simpl.
  destruct (administrator ctx); simpl; [|split; [apply not_elem_of_nil|done]].
  split; [apply not_elem_of_singleton_send; string_ne|done].
Qed.

(** C3.  After any sequence of add, remove and clear commands on a cog
    started from any table, the active prefix list of every guild is the
    default prefix "i." followed by exactly the custom prefixes stored for
    the guild; adding a stored prefix or the default prefix is rejected and
    changes nothing; removing the default prefix is rejected and changes
    nothing. *)
Theorem C3_active_prefixes_default_plus_stored :
  forall (table : gset (Z * string)) (invs : list invocation),
    let s := run_all invs (init table) in
    (forall g, get_all_prefixes g s = default_prefix :: elements (stored g s)) /\
    (forall ctx fault p,
        p ∈ stored (guild_id ctx) s \/ p = default_prefix ->
        rejected (mk_invocation ctx fault (Add p)) s /\
        (run (mk_invocation ctx fault (Add p)) s).2 = s) /\
    (forall ctx fault,
        rejected (mk_invocation ctx fault (Remove default_prefix)) s /\
        (run (mk_invocation ctx fault (Remove default_prefix)) s).2 = s).
Proof.
  intros table invs s. split; [|split].
  - intros g. apply get_all_prefixes_in_sync, run_all_in_sync, init_in_sync.
  - intros ctx fault p. apply add_known_rejected.
  - intros ctx fault. apply remove_default_rejected.
Qed.

Lemma C3_active_prefixes_default_plus_stored_witness :
  let s := run_all [mk_invocation an_admin None (Add "!")] (init ∅) in
  get_all_prefixes 1 s = ["i."; "!"] /\
  (run (mk_invocation an_admin None (Add "!")) s).2 = s /\
  (run (mk_invocation an_admin None (Add "i.")) s).2 = s /\
  (run (mk_invocation an_admin None (Remove "i.")) s).2 = s.
Proof.
  intros s. subst s.
  destruct (C3_active_prefixes_default_plus_stored ∅ [mk_invocation an_admin None (Add "!")])
    as (Hall & Hadd & Hremove).
  split; [|split; [|split]].
  - rewrite (Hall 1). by vm_compute.
  - apply (Hadd an_admin None "!"). left. apply elem_of_stored. by vm_compute.
  - apply (Hadd an_admin None "i."). by right.
  - apply (Hremove an_admin None).
Defined.

(** *** The bound on custom prefixes *)

Lemma stored_mono g s s' :
  guild_prefixes s' ⊆ guild_prefixes s -> (size (stored g s') <= size (stored g s))%nat.
Proof.
  intros Hsub. apply subseteq_size. intros p. rewrite !elem_of_stored. apply Hsub.
Qed.

Lemma length_get_all_prefixes g s :
  in_sync s -> length (get_all_prefixes g s) = S (size (stored g s)).
Proof. intros Hs. by rewrite get_all_prefixes_in_sync. Qed.

Lemma add_prefix_to_db_size fault g p s g' :
  (size (stored g' (add_prefix_to_db fault g p s).2) <=
   if decide (g = g') then S (size (stored g s)) else size (stored g' s))%nat.
Proof.
  unfold add_prefix_to_db. destruct fault; simpl.
  { case_decide; subst; lia. }
  destruct (decide ((g, p) ∈ guild_prefixes s)); simpl.
  { case_decide; subst; lia. }
  case_decide as Hg.
  - subst g'. transitivity (size (stored g s ∪ {[p]})).
    + apply subseteq_size. intros q. rewrite elem_of_union, elem_of_singleton,
        !elem_of_stored. simpl. rewrite elem_of_union, elem_of_singleton.
      intros [?|Heq]; [auto|]. injection Heq as ->. auto.
    + rewrite size_union_alt.
      pose proof (subseteq_size ({[p]} ∖ stored g s) ({[p]} : gset string)) as Hle.
      rewrite size_singleton in Hle.
      assert ({[p]} ∖ stored g s ⊆ ({[p]} : gset string)) as Hsub.
      { intros q. rewrite elem_of_difference. tauto. }
      specialize (Hle Hsub). lia.
  - apply subseteq_size. intros q. rewrite !elem_of_stored. simpl.
    rewrite elem_of_union, elem_of_singleton. intros [?|Heq]; [done|].
    injection Heq as ? ?. congruence.
Qed.

Lemma run_bounded i s : in_sync s -> bounded s -> bounded (run i s).2.
Proof.
  intros Hs Hb g. unfold run, add_new_prefix, remove_existing_prefix, clear_all_prefixes,
    has_permissions_administrator.
  destruct (inv_op i) as [p|p|]; destruct (administrator (inv_ctx i)); simpl;
    try apply Hb.
  - unfold add_new_prefix_body.
    case_decide; [apply Hb|]. case_decide; [apply Hb|].
    case_decide as Hmax; [apply Hb|]. case_decide; [apply Hb|].
    rewrite length_get_all_prefixes in Hmax by done.
    pose proof (add_prefix_to_db_size (inv_fault i) (guild_id (inv_ctx i)) p s g) as Hsz.
    destruct (add_prefix_to_db _ _ _ _) as [[[] tr] s']; simpl in *;
      (case_decide; [subst g; lia|specialize (Hb g); lia]).
  - unfold remove_existing_prefix_body. case_decide; [apply Hb|].
    assert (guild_prefixes
              (remove_prefix_from_db (inv_fault i) (guild_id (inv_ctx i)) p s).2
            ⊆ guild_prefixes s) as Hsub.
    { unfold remove_prefix_from_db. destruct (inv_fault i); [done|].
      case_decide; simpl; intros q; rewrite elem_of_difference; tauto. }
    apply (stored_mono g) in Hsub. specialize (Hb g).
    destruct (remove_prefix_from_db _ _ _ _) as [[[] tr] s']; simpl in *; lia.
  - unfold clear_all_prefixes_body. destruct (inv_fault i); simpl; [apply Hb|].
    etransitivity; [apply stored_mono|apply Hb]. simpl.
    intros q. rewrite elem_of_filter. tauto.
Qed.

Lemma run_all_bounded invs s :
  in_sync s -> bounded s -> in_sync (run_all invs s) /\ bounded (run_all invs s).
Proof.
  revert s. induction invs as [|i invs IH]; intros s Hs Hb; [done|].
  apply IH; [by apply run_in_sync|by apply run_bounded].
Qed.

(** With nine custom prefixes stored the add command stores nothing. *)
Lemma add_at_maximum ctx fault p s :
  in_sync s -> size (stored (guild_id ctx) s) = 9%nat ->
  (run (mk_invocation ctx fault (Add p)) s).2 = s /\
  rejected (mk_invocation ctx fault (Add p)) s /\
  (administrator ctx = true -> p <> "" -> (String.length p <= 10)%nat ->
   (run (mk_invocation ctx fault (Add p)) s).1 = (None, [Send (Text max_reached)])).
Proof.
  intros Hs Hnine. unfold rejected, run, add_new_prefix, has_permissions_administrator.
  simpl. destruct (administrator ctx); simpl;
    [|split; [done|split; [apply not_elem_of_nil|done]]].
  unfold add_new_prefix_body.
  case_decide as He;
    [split; [done|split; [apply not_elem_of_singleton_send; string_ne|done]]|].
  case_decide as Hl;
    [split; [done|split; [apply not_elem_of_singleton_send; string_ne|intros; lia]]|].
  rewrite length_get_all_prefixes, Hnine by done.
  rewrite decide_True by lia. simpl.
  split; [done|split; [apply not_elem_of_singleton_send; string_ne|done]].
Qed.

(** C4 (as amended).  Starting from a table with at most nine custom
    prefixes per guild, no sequence of add, remove and clear commands
    stores more than nine for any guild.  When a guild has nine, the add
    command stores nothing and does not succeed; for an administrator and
    a prefix that is not empty and at most ten characters long the reply is
    the maximum-reached message. *)
Theorem C4_custom_prefixes_bounded_by_nine :
  forall (table : gset (Z * string)) (invs : list invocation),
    bounded (init table) ->
    let s := run_all invs (init table) in
    bounded s /\
    (forall ctx fault p,
        size (stored (guild_id ctx) s) = 9%nat ->
        (run (mk_invocation ctx fault (Add p)) s).2 = s /\
        rejected (mk_invocation ctx fault (Add p)) s /\
        (administrator ctx = true -> p <> "" -> (String.length p <= 10)%nat ->
         (run (mk_invocation ctx fault (Add p)) s).1 =
         (None, [Send (Text max_reached)]))).
Proof.
  intros table invs Hb s.
  destruct (run_all_bounded invs (init table) (init_in_sync table) Hb) as [Hs Hb'].
  split; [done|]. intros ctx fault p. by apply add_at_maximum.
Qed.

Lemma nine_prefixes_bounded : bounded (init nine_prefixes).
Proof.
  intros g. destruct (decide (g = 1)) as [->|Hg]; [vm_compute; lia|].
  replace (stored g (init nine_prefixes)) with (∅ : gset string);
    [rewrite size_empty; lia|].
  symmetry. apply set_eq. intros q. rewrite elem_of_stored. simpl.
  unfold nine_prefixes. rewrite elem_of_list_to_set, elem_of_empty.
  split; [|done]. rewrite !elem_of_cons, elem_of_nil.
  intros H. repeat destruct H as [H|H]; try done; injection H as ? ?; congruence.
Qed.

Lemma C4_custom_prefixes_bounded_by_nine_witness :
  let ctx := an_admin in
  let s := run_all [] (init nine_prefixes) in
  bounded s /\
  (run (mk_invocation ctx None (Add "!")) s).2 = s /\
  (run (mk_invocation ctx None (Add "!")) s).1 = (None, [Send (Text max_reached)]).
Proof.
  intros ctx s.
  destruct (C4_custom_prefixes_bounded_by_nine nine_prefixes [] nine_prefixes_bounded)
    as [Hb Hadd].
  destruct (Hadd ctx None "!") as (Hsame & _ & Hmsg); [by vm_compute|].
  split; [exact Hb|]. split; [exact Hsame|].
  apply Hmsg; [reflexivity|discriminate|simpl; lia].
Defined.

(** C4 as stated fails: with nine custom prefixes stored, adding a prefix of
    eleven characters is answered with the too-long message, not with the
    maximum-reached one. *)
Lemma C4_counterexample_too_long_prefix_at_maximum :
  let ctx := an_admin in
  let s := init nine_prefixes in
  size (stored 1 s) = 9%nat /\
  length (get_all_prefixes 1 s) = 10%nat /\
  (run (mk_invocation ctx None (Add "12345678901")) s).1 =
    (None, [Send (Text "Prefix is too long. Maximum length is 10 characters.")]) /\
  (run (mk_invocation ctx None (Add "12345678901")) s).1 <>
    (None, [Send (Text max_reached)]).
Proof.
  intros ctx s. split; [by vm_compute|]. split; [by vm_compute|].
  split; [by vm_compute|]. by vm_compute.
Qed.

End PrefixProps.

(** ** cogs/error_handler.py *)

Module ErrorHandlerProps.
Import ErrorHandler.

(** An unknown command name: [ctx.command] is not set, the handler writes
    one line to the log and does nothing else. *)
Lemma command_not_found_only_logs env ctx :
  ctx_command ctx = None ->
  on_command_error env ctx CommandNotFound = [Log INFO (not_found_line ctx)].
Proof.
  intros Hc. unfold on_command_error, not_found_line. by rewrite Hc.
Qed.

Lemma missing_argument_reply env ctx c param :
  ctx_command ctx = Some c ->
  on_error c = false ->
  cog_command_error c <> Some true ->
  replies (on_command_error env ctx (MissingRequiredArgument param)) =
  [Rich (usage_hint ctx c param)].
Proof.
  intros Hc Hl Hcog. unfold on_command_error, with_usage, usage_hint. rewrite Hc, Hl.
  destruct (cog_command_error c) as [[]|]; done.
Qed.

Lemma missing_argument_left_to_local_handler env ctx c param :
  ctx_command ctx = Some c ->
  on_error c = true \/ cog_command_error c = Some true ->
  on_command_error env ctx (MissingRequiredArgument param) = [].
Proof.
  intros Hc H. unfold on_command_error. rewrite Hc.
  destruct (on_error c); [done|]. destruct H as [?| ->]; done.
Qed.

(** C7 (as amended).  For an unknown command name the handler sends no reply:
    it writes one line to the log and returns.  For a known command invoked
    without a required argument the handler replies with one embed that names
    the missing parameter and shows the command's signature, provided the
    command has no error handler of its own and its cog does not override
    [cog_command_error]; for a command that has either, the handler returns
    at once and sends nothing. *)
Theorem C7_unknown_command_silent_missing_argument_hint :
  forall (env : environment) (ctx : context),
    (ctx_command ctx = None ->
     on_command_error env ctx CommandNotFound = [Log INFO (not_found_line ctx)] /\
     replies (on_command_error env ctx CommandNotFound) = []) /\
    (forall c param,
        ctx_command ctx = Some c ->
        (on_error c = false -> cog_command_error c <> Some true ->
         replies (on_command_error env ctx (MissingRequiredArgument param)) =
           [Rich (usage_hint ctx c param)] /\
         description (usage_hint ctx c param) =
           "You missed the required argument: `" +:+ param +:+ "`." /\
         ("Correct Usage",
          code_block (Str.strip (clean_prefix ctx +:+ qualified_name c +:+ " " +:+
                                 signature c)))
           ∈ fields (usage_hint ctx c param)) /\
        (on_error c = true \/ cog_command_error c = Some true ->
         on_command_error env ctx (MissingRequiredArgument param) = [])).
Proof.
  intros env ctx. split.
  - intros Hc. rewrite command_not_found_only_logs by done. done.
  - intros c param Hc. split.
    + intros Hl Hcog. split; [by apply missing_argument_reply|]. split; [done|].
      unfold usage_hint, add_field. simpl. do 2 apply list_elem_of_further.
      apply list_elem_of_here.
    + by apply missing_argument_left_to_local_handler.
Qed.

Lemma C7_unknown_command_silent_missing_argument_hint_witness :
  replies (on_command_error an_environment (a_message "i.nope" "nope" None) CommandNotFound)
    = [] /\
  replies (on_command_error an_environment (a_message "i.kick" "kick" (Some kick_command))
             (MissingRequiredArgument "member"))
    = [Rich (usage_hint (a_message "i.kick" "kick" (Some kick_command)) kick_command "member")].
Proof.
  destruct (C7_unknown_command_silent_missing_argument_hint an_environment
              (a_message "i.nope" "nope" None)) as [Hnone _].
  destruct (C7_unknown_command_silent_missing_argument_hint an_environment
              (a_message "i.kick" "kick" (Some kick_command))) as [_ Hsome].
  split.
  - apply Hnone. reflexivity.
  - apply (Hsome kick_command "member"); [reflexivity|reflexivity|discriminate].
Defined.

(** C7 as stated fails: [play] is a known command with the required argument
    [query]; when it is invoked without it the handler sends nothing, because
    the music cog overrides [cog_command_error]. *)
Lemma C7_counterexample_cog_with_own_error_handler :
  ctx_command (a_message "i.play" "play" (Some play_command)) = Some play_command /\
  on_command_error an_environment (a_message "i.play" "play" (Some play_command))
    (MissingRequiredArgument "query") = [].
Proof. split; reflexivity. Qed.

End ErrorHandlerProps.

(** ** cogs/eng.py *)

Module EngProps.
Import Eng StrProps.

Global Instance bytes_le_total : Total bytes_le.
Proof. intros a b. apply String.leb_total. Qed.

Global Instance bytes_le_trans : Transitive bytes_le.
Proof. intros a b c. apply leb_trans. Qed.

Lemma words_of_insert u u' w t :
  words_of u (Sqlite.insert (u', w) t).2 =
  words_of u t ++ (if decide (u' = u) then [w] else []).
Proof.
  unfold words_of, Sqlite.insert. simpl. rewrite omap_app. simpl.
  by destruct (decide (u' = u)).
Qed.








(** *** Normalisation of saved words *)








(** *** Without a credential *)

(** C8 (as amended).  Without a credential [setup] does not add the cog: it
    prints a notice on the console and leaves the bot as it was, so the
    commands of the cog do not exist.  Invoking an AI-backed command on a bot
    without the cog is an unknown command: nothing is asked of the AI and no
    message is sent, the error handler only writes a line to the log.  The
    message that the feature is unavailable is what an AI-backed command
    sends, without calling the AI, when the cog is loaded and its model is
    not set; constructing the cog without a credential leaves the model not
    set. *)
Theorem C8_no_credential_cog_not_loaded :
  forall (cfg : config) (ai : endpoint) (env : ErrorHandler.environment)
         (ectx : ErrorHandler.context) (ctx : context) (i : invocation),
    uses_ai i = true ->
    (no_credential cfg = true ->
     forall loaded stored file,
       load_extension cfg loaded stored file None =
         ([Print "WARNING: GEMINI_API_KEY not found in utils/config.py. AI features will be disabled.";
           Print "Could not load 'EnglishLearning' cog: GEMINI_API_KEY is not set."], None) /\
       model (__init__ cfg loaded stored file).2 = false /\
       let tr := (process_commands cfg ai env ectx ctx i None).1 in
       replies tr = [] /\ (forall prompt, GenerateContent prompt ∉ tr) /\
       exists line, tr = [Log INFO line]) /\
    (forall s, model s = false ->
               run cfg ai ctx i s = ((None, [Send (Text ai_unavailable)]), s)).
Proof.
  intros cfg ai env ectx ctx i Hai. split.
  - intros Hno loaded stored file. split; [|split].
    + unfold load_extension, setup. by rewrite Hno.
    + unfold __init__, _initialize_model. rewrite Hno.
      by destruct (_load_daily_words file).
    + unfold process_commands. cbn [fst].
      rewrite ErrorHandlerProps.command_not_found_only_logs by done.
      split; [done|]. split; [|by eexists].
      intros prompt Hin. by apply list_elem_of_singleton in Hin.
  - intros s Hs. destruct i; try done; unfold run, check_grammar, daily_word, translate,
      ai_command_check; by rewrite Hs.
Qed.

Lemma C8_no_credential_cog_not_loaded_witness :
  (load_extension no_key None Sqlite.empty None None).2 = None /\
  run no_key silent alice (Translate "hello") (mk_cog false Sqlite.empty default_words) =
    ((None, [Send (Text ai_unavailable)]), mk_cog false Sqlite.empty default_words).
Proof.
  destruct (C8_no_credential_cog_not_loaded no_key silent ErrorHandler.an_environment
              (ErrorHandler.a_message "i.eng translate hello" "eng" None) alice
              (Translate "hello") eq_refl) as [Hsetup Hrun].
  destruct (Hsetup eq_refl None Sqlite.empty None) as (Hload & _).
  split.
  - by rewrite Hload.
  - apply Hrun. reflexivity.
Defined.

(** C8 as stated fails: without a credential the extension loads no cog, and
    a user who then invokes [eng check] receives no message at all. *)
Lemma C8_counterexample_no_message_without_credential :
  no_credential no_key = true /\
  (load_extension no_key None Sqlite.empty None None).2 = None /\
  replies (process_commands no_key silent ErrorHandler.an_environment
             (ErrorHandler.a_message "i.eng check I has a pen" "eng" None) alice
             (Check "I has a pen")
             (load_extension no_key None Sqlite.empty None None).2).1 = [].
Proof. split; [reflexivity|]. split; reflexivity. Qed.

End EngProps.

(** ** cogs/moderation.py *)

Module ModerationProps.
Import Moderation SqliteProps.

(** *** The tables of a guild *)

Lemma ensure_fault e g db : _ensure_guild_tables_exist (Some e) g db = db.
Proof. done. Qed.

Lemma ensure_cases g db g' :
  cases (_ensure_guild_tables_exist None g db) !! g' =
  if decide (g' = g) then Some (default Sqlite.empty (cases db !! g)) else cases db !! g'.
Proof.
  simpl. destruct (cases db !! g) eqn:Hg; case_decide as Heq; subst; simpl.
  - done.
  - done.
  - by rewrite lookup_insert_eq.
  - by rewrite lookup_insert_ne.
Qed.

(** Creating the tables adds no row to any guild. *)
Lemma case_rows_ensure fault g db g' :
  case_rows g' (_ensure_guild_tables_exist fault g db) = case_rows g' db.
Proof.
  destruct fault; [done|]. unfold case_rows. rewrite ensure_cases.
  case_decide as Heq; [subst|done]. by destruct (cases db !! g).
Qed.

(** Where both tables of the guild are there, nothing is created. *)
Lemma ensure_present fault g db :
  is_Some (cases db !! g) -> is_Some (mod_log_channels db !! g) ->
  _ensure_guild_tables_exist fault g db = db.
Proof.
  intros [t Ht] [c Hc]. destruct fault; [done|].
  unfold _ensure_guild_tables_exist. rewrite Ht, Hc. by destruct db.
Qed.

Lemma ensure_is_present g db :
  is_Some (cases (_ensure_guild_tables_exist None g db) !! g) /\
  is_Some (mod_log_channels (_ensure_guild_tables_exist None g db) !! g).
Proof.
  simpl. split.
  - destruct (cases db !! g) eqn:Hg; [by rewrite Hg|by rewrite lookup_insert_eq].
  - destruct (mod_log_channels db !! g) eqn:Hg; [by rewrite Hg|by rewrite lookup_insert_eq].
Qed.

Lemma ensure_idemp fault g db :
  _ensure_guild_tables_exist fault g (_ensure_guild_tables_exist fault g db) =
  _ensure_guild_tables_exist fault g db.
Proof.
  destruct fault; [done|]. apply ensure_present; apply ensure_is_present.
Qed.

Lemma no_tables_sequential : sequential_db no_tables.
Proof. intros g t Hg. simpl in Hg. by rewrite lookup_empty in Hg. Qed.

Lemma ensure_sequential fault g db :
  sequential_db db -> sequential_db (_ensure_guild_tables_exist fault g db).
Proof.
  intros Hdb. destruct fault; [done|]. intros g' t. rewrite ensure_cases.
  case_decide as Heq; [subst|apply Hdb].
  destruct (cases db !! g) eqn:Hg; simpl; intros [= <-]; [by eapply Hdb|].
  apply sequential_empty.
Qed.

(** *** Creating and reading a case *)

Lemma create_case_unfold clock g u m a r d db :
  create_case None clock g u m a r d db =
  (Some (Sqlite.insert (mk_case u m a r clock d)
           (default Sqlite.empty (cases db !! g))).1,
   {| cases := <[g := (Sqlite.insert (mk_case u m a r clock d)
                         (default Sqlite.empty (cases db !! g))).2]>
                 (cases (_ensure_guild_tables_exist None g db));
      mod_log_channels := mod_log_channels (_ensure_guild_tables_exist None g db) |}).
Proof.
  unfold create_case. rewrite ensure_cases, decide_True by done. done.
Qed.

Lemma create_case_ensure fault clock g u m a r d db :
  create_case fault clock g u m a r d (_ensure_guild_tables_exist fault g db) =
  create_case fault clock g u m a r d db.
Proof. unfold create_case. by rewrite ensure_idemp. Qed.

Lemma create_case_is_present clock g u m a r d db :
  let db' := (create_case None clock g u m a r d db).2 in
  is_Some (cases db' !! g) /\ is_Some (mod_log_channels db' !! g).
Proof.
  rewrite create_case_unfold. cbn [fst snd cases mod_log_channels]. split.
  - by rewrite lookup_insert_eq.
  - apply ensure_is_present.
Qed.

Lemma create_case_sequential fault clock g u m a r d db :
  sequential_db db -> sequential_db (create_case fault clock g u m a r d db).2.
Proof.
  intros Hdb. destruct fault as [e|]; [done|].
  rewrite create_case_unfold. intros g' t. cbn [fst snd cases mod_log_channels].
  destruct (decide (g' = g)) as [->|Hne].
  - rewrite lookup_insert_eq. intros [= <-]. apply insert_sequential.
    destruct (cases db !! g) eqn:Hg; simpl; [by eapply Hdb|apply sequential_empty].
  - rewrite lookup_insert_ne by done. intros Ht.
    eapply (ensure_sequential None g db Hdb). exact Ht.
Qed.

Lemma create_case_one_new_case clock g u m a r d db :
  sequential_db db ->
  exists case_id,
    (create_case None clock g u m a r d db).1 = Some case_id /\
    one_new_case db (create_case None clock g u m a r d db).2 g u m a r clock d.
Proof.
  intros Hdb.
  assert (Ht : Sqlite.sequential (default Sqlite.empty (cases db !! g))).
  { destruct (cases db !! g) eqn:Hg; simpl; [by eapply Hdb|apply sequential_empty]. }
  destruct (insert_select (mk_case u m a r clock d) _ Ht) as (Hk & Hrows & Hsel).
  assert (Hlast : Sqlite.last_rowid (default Sqlite.empty (cases db !! g)) =
                  default 0 (fst <$> last (case_rows g db))).
  { unfold Sqlite.last_rowid, case_rows. by destruct (cases db !! g). }
  assert (Hold : Sqlite.rows (default Sqlite.empty (cases db !! g)) = case_rows g db).
  { unfold case_rows. by destruct (cases db !! g). }
  rewrite Hlast in Hk. rewrite Hold in Hrows.
  pose proof (create_case_is_present clock g u m a r d db) as Hpresent.
  rewrite create_case_unfold in *. cbn [fst snd] in *.
  eexists. split; [done|].
  exists (1 + default 0 (fst <$> last (case_rows g db))).
  split; [done|]. split; [|split].
  - unfold case_rows at 1. cbn [cases]. rewrite lookup_insert_eq, Hrows, Hk.
    do 3 f_equal. lia.
  - intros g' Hne. unfold case_rows at 1. cbn [cases]. rewrite lookup_insert_ne by done.
    fold (case_rows g' (_ensure_guild_tables_exist None g db)). apply case_rows_ensure.
  - exists (mk_case u m a r clock d). split; [|done]. unfold get_case.
    rewrite ensure_present by apply Hpresent. cbn [cases].
    rewrite lookup_insert_eq.
    replace (1 + default 0 (fst <$> last (case_rows g db)))
      with (Sqlite.insert (mk_case u m a r clock d) (default Sqlite.empty (cases db !! g))).1
      by lia.
    by rewrite Hsel.
Qed.

(** *** The confirmation prompt *)

Lemma find_split {A} (f : A -> bool) l x :
  List.find f l = Some x ->
  exists before after, l = before ++ x :: after /\
                       Forall (fun y => f y = false) before /\ f x = true.
Proof.
  induction l as [|y l IH]; simpl; [done|].
  destruct (f y) eqn:Hy.
  - intros [= ->]. by exists [], l.
  - intros (before & after & -> & Hb & Hx)%IH.
    exists (y :: before), after. split; [done|]. split; [by constructor|done].
Qed.

Lemma check_iff env ctx r :
  check env ctx r = true <->
  reactor r = author_id ctx /\ message_id r = confirm_message_id env /\
  (emoji r = "✅" \/ emoji r = "❌").
Proof.
  unfold check. rewrite !andb_true_iff, !bool_decide_eq_true.
  rewrite !elem_of_cons, elem_of_nil. tauto.
Qed.

Lemma find_accepted env ctx r :
  prompt env = PromptSent ->
  List.find (check env ctx) (arrivals env) = Some r -> emoji r = "✅" -> accepted env ctx.
Proof.
  intros Hp (before & after & Hl & Hb & Hr)%find_split He. split; [done|].
  exists before, r, after. split; [done|]. apply check_iff in Hr. split; [tauto|].
  eapply Forall_impl; [exact Hb|]. intros x Hx (? & ? & ?).
  assert (check env ctx x = true) by (apply check_iff; auto). congruence.
Qed.

Lemma accepted_find env ctx :
  accepted env ctx ->
  exists r, List.find (check env ctx) (arrivals env) = Some r /\ emoji r = "✅".
Proof.
  intros (_ & before & r & after & -> & (Hr1 & Hr2 & Hr3) & Hb).
  induction Hb as [|x before Hx Hb IH]; simpl.
  - exists r. split; [|done].
    rewrite (proj2 (check_iff env ctx r)); [done|auto].
  - destruct (check env ctx x) eqn:Hc; [|done].
    exists x. split; [done|]. apply check_iff in Hc as (? & ? & [?|?]); [done|].
    destruct Hx. auto.
Qed.

(** The prompt confirms exactly when the invoking user has accepted. *)
Lemma prompt_confirmed env ctx user act why n :
  accepted env ctx ->
  exists tr, _prompt_confirmation env ctx user act why n = (tr, (true, true)).
Proof.
  intros Ha. destruct (accepted_find env ctx Ha) as (r & Hf & He).
  destruct Ha as [Hp _]. unfold _prompt_confirmation. rewrite Hp, Hf.
  rewrite decide_True by done. by eexists.
Qed.

Lemma prompt_cancelled env ctx user act why n :
  ~ accepted env ctx ->
  exists tr shown,
    _prompt_confirmation env ctx user act why n = (tr, (false, shown)) /\
    Forall (fun e => removes_or_ends e = false) tr.
Proof.
  intros Hna. unfold _prompt_confirmation, _send_feedback_embed.
  destruct (prompt env) eqn:Hp.
  - destruct (List.find _ _) as [r|] eqn:Hf.
    + case_decide as He; [by destruct Hna; eapply find_accepted|].
      do 2 eexists. split; [done|]. by repeat constructor.
    + do 2 eexists. split; [done|]. by repeat constructor.
  - do 2 eexists. split; [done|]. by repeat constructor.
  - do 2 eexists. split; [done|]. by repeat constructor.
Qed.

(** *** The commands that pass their checks *)

Lemma check_permissions_permitted ctx user_needs bot_needs body db :
  permitted ctx user_needs bot_needs ->
  check_permissions ctx user_needs bot_needs body db = body db.
Proof. intros [Hu Hb]. unfold check_permissions. by rewrite Hu, Hb. Qed.

Lemma check_permissions_refused ctx user_needs bot_needs body db :
  ~ permitted ctx user_needs bot_needs ->
  exists e, check_permissions ctx user_needs bot_needs body db = ((Some e, []), db).
Proof.
  intros Hn. unfold check_permissions, permitted in *.
  destruct (missing user_needs _); [|by eexists].
  destruct (missing bot_needs _); [|by eexists]. by destruct Hn.
Qed.

Lemma send_mod_log_snd env g e db :
  (send_mod_log env g e db).2 = _ensure_guild_tables_exist (db_fault env) g db.
Proof.
  unfold send_mod_log. destruct (db_fault env); [done|].
  destruct (mod_log_channels _ !! g) as [[c|]|]; try done.
  case_decide; [done|]. destruct (get_channel env c) as [ch|]; [|done].
  by destruct (is_text ch && send_messages ch && embed_links ch).
Qed.

(** After a case was created, sending to the mod-log leaves the database as
    it is. *)
Lemma send_mod_log_after_case env clock g u m a r d e db :
  db_fault env = None ->
  (send_mod_log env g e (create_case None clock g u m a r d db).2).2 =
  (create_case None clock g u m a r d db).2.
Proof.
  intros Hf. rewrite send_mod_log_snd.
  apply ensure_present; apply create_case_is_present.
Qed.

(** Closes a goal about the database left by a command that ends with
    [send_mod_log], from the fact [Hlog] that it leaves the database alone. *)
Ltac mod_log_done Hlog :=
  cbn [snd] in *;
  match goal with
  | |- context [send_mod_log ?env ?g ?e ?db] =>
      let H := fresh in
      pose proof (Hlog e) as H; destruct (send_mod_log env g e db); cbn [snd] in *
  end.

Lemma create_case_some clock g u m a r d db :
  exists case_id, (create_case None clock g u m a r d db).1 = Some case_id.
Proof. rewrite create_case_unfold. by eexists. Qed.

Lemma kick_passes env ctx member why db :
  db_fault env = None ->
  permitted ctx ["kick_members"] ["kick_members"; "add_reactions"; "manage_messages"] ->
  kick_checks ctx member = None ->
  accepted env ctx ->
  (kick env ctx member why db).2 =
  (create_case None (now env) (guild_id ctx) (id member) (author_id ctx) "kick" why None db).2.
Proof.
  intros Hf Hp Hc Ha. unfold kick. rewrite check_permissions_permitted by done.
  unfold returns, kick_body. rewrite Hf, Hc.
  destruct (prompt_confirmed env ctx member "kick" why 30 Ha) as [tr ->].
  cbn [negb]. rewrite create_case_ensure.
  pose proof (fun e => send_mod_log_after_case env (now env) (guild_id ctx) (id member)
                         (author_id ctx) "kick" why None e db Hf) as Hlog.
  destruct (create_case_some (now env) (guild_id ctx) (id member) (author_id ctx)
              "kick" why None db) as [k Hk].
  destruct (create_case None _ _ _ _ _ _ _ db) as [cid db1]. simpl in Hk. subst cid.
  destruct (api env); try done.
  by mod_log_done Hlog.
Qed.

Lemma ban_passes env ctx user why db :
  db_fault env = None ->
  permitted ctx ["ban_members"] ["ban_members"; "add_reactions"; "manage_messages"] ->
  ban_checks ctx user = None ->
  accepted env ctx ->
  (ban env ctx user why db).2 =
  (create_case None (now env) (guild_id ctx) (id user) (author_id ctx) "ban" why None db).2.
Proof.
  intros Hf Hp Hc Ha. unfold ban. rewrite check_permissions_permitted by done.
  unfold returns, ban_body. rewrite Hf, Hc.
  destruct (prompt_confirmed env ctx user "ban" why 30 Ha) as [tr ->].
  cbn [negb]. rewrite create_case_ensure.
  pose proof (fun e => send_mod_log_after_case env (now env) (guild_id ctx) (id user)
                         (author_id ctx) "ban" why None e db Hf) as Hlog.
  destruct (create_case_some (now env) (guild_id ctx) (id user) (author_id ctx)
              "ban" why None db) as [k Hk].
  destruct (create_case None _ _ _ _ _ _ _ db) as [cid db1]. simpl in Hk. subst cid.
  destruct (api env); try done.
  by mod_log_done Hlog.
Qed.

Lemma unban_passes env ctx user why db :
  db_fault env = None ->
  permitted ctx ["ban_members"] ["ban_members"] ->
  unban_checks env user = None ->
  (unban env ctx user why db).2 =
  (create_case None (now env) (guild_id ctx) (id user) (author_id ctx) "unban"
     (Some (Str.or_else why "No reason provided.")) None db).2.
Proof.
  intros Hf Hp Hc. unfold unban. rewrite check_permissions_permitted by done.
  unfold returns, unban_body. rewrite Hf, Hc. rewrite create_case_ensure.
  pose proof (fun e => send_mod_log_after_case env (now env) (guild_id ctx) (id user)
                         (author_id ctx) "unban"
                         (Some (Str.or_else why "No reason provided.")) None e db Hf) as Hlog.
  destruct (create_case_some (now env) (guild_id ctx) (id user) (author_id ctx)
              "unban" (Some (Str.or_else why "No reason provided.")) None db) as [k Hk].
  destruct (create_case None _ _ _ _ _ _ _ db) as [cid db1]. simpl in Hk. subst cid.
  destruct (api env); try done.
  by mod_log_done Hlog.
Qed.

Lemma untimeout_passes env ctx member why db :
  db_fault env = None ->
  permitted ctx ["moderate_members"] ["moderate_members"] ->
  untimeout_checks env ctx member = None ->
  (untimeout env ctx member why db).2 =
  (create_case None (now env) (guild_id ctx) (id member) (author_id ctx) "untimeout"
     (Some (Str.or_else why "No reason provided.")) None db).2.
Proof.
  intros Hf Hp Hc. unfold untimeout. rewrite check_permissions_permitted by done.
  unfold returns, untimeout_body. rewrite Hf, Hc. rewrite create_case_ensure.
  pose proof (fun e => send_mod_log_after_case env (now env) (guild_id ctx) (id member)
                         (author_id ctx) "untimeout"
                         (Some (Str.or_else why "No reason provided.")) None e db Hf) as Hlog.
  destruct (create_case_some (now env) (guild_id ctx) (id member) (author_id ctx)
              "untimeout" (Some (Str.or_else why "No reason provided.")) None db) as [k Hk].
  destruct (create_case None _ _ _ _ _ _ _ db) as [cid db1]. simpl in Hk. subst cid.
  destruct (api env); try done.
  by mod_log_done Hlog.
Qed.

Lemma timeout_passes env ctx member span seconds why db :
  db_fault env = None ->
  permitted ctx ["moderate_members"] ["moderate_members"] ->
  timeout_checks ctx member = None ->
  timeout_duration env span = inr seconds ->
  (timeout env ctx member span why db).2 =
  (create_case None (now env) (guild_id ctx) (id member) (author_id ctx) "timeout"
     why (Some (format_duration seconds)) db).2.
Proof.
  intros Hf Hp Hc Hd. unfold timeout. rewrite check_permissions_permitted by done.
  unfold returns, timeout_body. rewrite Hf, Hc, Hd. rewrite create_case_ensure.
  pose proof (fun e => send_mod_log_after_case env (now env) (guild_id ctx) (id member)
                         (author_id ctx) "timeout" why (Some (format_duration seconds))
                         e db Hf) as Hlog.
  destruct (create_case_some (now env) (guild_id ctx) (id member) (author_id ctx)
              "timeout" why (Some (format_duration seconds)) db) as [k Hk].
  destruct (create_case None _ _ _ _ _ _ _ db) as [cid db1]. simpl in Hk. subst cid.
  destruct (api env); try done.
  by mod_log_done Hlog.
Qed.

Lemma warn_passes env ctx member why db :
  db_fault env = None ->
  permitted ctx ["moderate_members"] [] ->
  warn_checks ctx member why = None ->
  (warn env ctx member why db).2 =
  (create_case None (now env) (guild_id ctx) (id member) (author_id ctx) "warn"
     (Some why) None db).2.
Proof.
  intros Hf Hp Hc. unfold warn. rewrite check_permissions_permitted by done.
  unfold returns, warn_body. rewrite Hf, Hc. rewrite create_case_ensure.
  pose proof (fun e => send_mod_log_after_case env (now env) (guild_id ctx) (id member)
                         (author_id ctx) "warn" (Some why) None e db Hf) as Hlog.
  destruct (create_case_some (now env) (guild_id ctx) (id member) (author_id ctx)
              "warn" (Some why) None db) as [k Hk].
  destruct (create_case None _ _ _ _ _ _ _ db) as [cid db1]. simpl in Hk. subst cid.
  by mod_log_done Hlog.
Qed.

(** C2.  In a database whose tables of cases only ever saw insertions, every
    moderation action that passes its checks (the permissions of its
    decorators, its own checks, the confirmation for kick and ban, a database
    that does not raise) leaves exactly one new row in the table of cases of
    the guild; the key of the row is one more than the key of the previous
    row of the guild (1 for the first); and [get_case] with the guild and
    that key returns the row with the action, reason and duration that were
    given to [create_case]. *)
Theorem C2_one_sequential_case_per_action :
  forall (db : database),
    sequential_db db ->
    (forall clock g u m a r d,
        exists case_id,
          (create_case None clock g u m a r d db).1 = Some case_id /\
          one_new_case db (create_case None clock g u m a r d db).2 g u m a r clock d) /\
    (forall env ctx member why,
        db_fault env = None ->
        permitted ctx ["kick_members"] ["kick_members"; "add_reactions"; "manage_messages"] ->
        kick_checks ctx member = None -> accepted env ctx ->
        one_new_case db (kick env ctx member why db).2 (guild_id ctx) (id member)
          (author_id ctx) "kick" why (now env) None) /\
    (forall env ctx user why,
        db_fault env = None ->
        permitted ctx ["ban_members"] ["ban_members"; "add_reactions"; "manage_messages"] ->
        ban_checks ctx user = None -> accepted env ctx ->
        one_new_case db (ban env ctx user why db).2 (guild_id ctx) (id user)
          (author_id ctx) "ban" why (now env) None) /\
    (forall env ctx user why,
        db_fault env = None ->
        permitted ctx ["ban_members"] ["ban_members"] ->
        unban_checks env user = None ->
        one_new_case db (unban env ctx user why db).2 (guild_id ctx) (id user)
          (author_id ctx) "unban" (Some (Str.or_else why "No reason provided.")) (now env)
          None) /\
    (forall env ctx member why,
        db_fault env = None ->
        permitted ctx ["moderate_members"] [] ->
        warn_checks ctx member why = None ->
        one_new_case db (warn env ctx member why db).2 (guild_id ctx) (id member)
          (author_id ctx) "warn" (Some why) (now env) None) /\
    (forall env ctx member span seconds why,
        db_fault env = None ->
        permitted ctx ["moderate_members"] ["moderate_members"] ->
        timeout_checks ctx member = None ->
        timeout_duration env span = inr seconds ->
        one_new_case db (timeout env ctx member span why db).2 (guild_id ctx) (id member)
          (author_id ctx) "timeout" why (now env) (Some (format_duration seconds))) /\
    (forall env ctx member why,
        db_fault env = None ->
        permitted ctx ["moderate_members"] ["moderate_members"] ->
        untimeout_checks env ctx member = None ->
        one_new_case db (untimeout env ctx member why db).2 (guild_id ctx) (id member)
          (author_id ctx) "untimeout" (Some (Str.or_else why "No reason provided."))
          (now env) None).
Proof.
  intros db Hdb.
  assert (Hone : forall clock g u m a r d,
             one_new_case db (create_case None clock g u m a r d db).2 g u m a r clock d).
  { intros. by destruct (create_case_one_new_case clock g u m a r d db Hdb) as (? & _ & ?). }
  split; [intros; by apply create_case_one_new_case|].
  split; [intros; rewrite kick_passes by done; apply Hone|].
  split; [intros; rewrite ban_passes by done; apply Hone|].
  split; [intros; rewrite unban_passes by done; apply Hone|].
  split; [intros; rewrite warn_passes by done; apply Hone|].
  split; [intros; erewrite timeout_passes by done; apply Hone|].
  intros; rewrite untimeout_passes by done; apply Hone.
Qed.

Lemma a_guild_accepted : accepted (reacting_with "✅" None) a_guild.
Proof.
  split; [reflexivity|].
  exists [mk_reaction 8 500 "✅"], (mk_reaction 7 500 "✅"), [].
  split; [reflexivity|]. split; [by repeat split|].
  constructor; [|constructor]. by intros (? & _).
Qed.

Lemma C2_one_sequential_case_per_action_witness :
  one_new_case no_tables (kick (reacting_with "✅" None) a_guild bob (Some "spam") no_tables).2
    1 8 7 "kick" (Some "spam") (1700000000 # 1) None /\
  case_rows 1 (kick (reacting_with "✅" None) a_guild bob (Some "spam") no_tables).2 =
    [(1, mk_case 8 7 "kick" (Some "spam") (1700000000 # 1) None)].
Proof.
  destruct (C2_one_sequential_case_per_action no_tables no_tables_sequential)
    as (_ & Hkick & _).
  split.
  - apply (Hkick (reacting_with "✅" None) a_guild bob (Some "spam")).
    + reflexivity.
    + split; reflexivity.
    + reflexivity.
    + exact a_guild_accepted.
  - by vm_compute.
Defined.

(** *** The duration of a timeout *)

Lemma Qltb_iff x y : Qltb x y = true <-> (x < y)%Q.
Proof.
  unfold Qltb. rewrite negb_true_iff, <- not_true_iff_false, Qle_bool_iff.
  split; [apply Qnot_le_lt|apply Qlt_not_le].
Qed.

Lemma duration_allowed_iff seconds :
  duration_allowed seconds = true <-> (0 < seconds)%Q /\ (seconds <= inject_Z 2419200)%Q.
Proof.
  unfold duration_allowed. by rewrite andb_true_iff, Qltb_iff, Qle_bool_iff.
Qed.



Lemma timeout_duration_accepted env span seconds :
  timeout_duration env span = inr seconds ->
  pytimeparse env span = Some seconds /\ (0 < seconds)%Q /\ (seconds <= inject_Z 2419200)%Q.
Proof.
  unfold timeout_duration. destruct (pytimeparse env span) as [s|]; [|done].
  destruct (duration_allowed s) eqn:Hd; [|done]. simpl.
  destruct (Qle_bool _ _); [done|]. intros [= ->]. split; [done|].
  by apply duration_allowed_iff.
Qed.

Lemma hierarchy_check_feedback ctx member verb tr :
  hierarchy_check ctx member verb = Some tr -> error_feedback tr.
Proof.
  unfold hierarchy_check, error_feedback.
  destruct (top_role member), (author_top_role ctx), (me_top_role ctx);
    repeat case_match; intros [= <-]; eauto 10.
Qed.

Lemma timeout_checks_feedback ctx member tr :
  timeout_checks ctx member = Some tr -> error_feedback tr.
Proof.
  unfold timeout_checks. repeat case_match; try apply hierarchy_check_feedback;
    intros [= <-]; unfold error_feedback; eauto 10.
Qed.




End ModerationProps.

(** ** Confirmation before kick, ban, restart and shutdown *)

Module ConfirmationProps.
Import Moderation ModerationProps.

Lemma accepted_dec env ctx : accepted env ctx \/ ~ accepted env ctx.
Proof.
  destruct (prompt env) eqn:Hp; [|right; intros [? _]; congruence..].
  destruct (List.find (check env ctx) (arrivals env)) as [r|] eqn:Hf.
  - destruct (decide (emoji r = "✅")) as [He|He].
    + left. by eapply find_accepted.
    + right. intros (r' & Hf' & He')%accepted_find. congruence.
  - right. intros (r' & Hf' & He')%accepted_find. congruence.
Qed.

Lemma feedback_harmless tr : error_feedback tr -> Forall (fun e => removes_or_ends e = false) tr.
Proof. intros (t & d & c & -> & _). by repeat constructor. Qed.

Lemma kick_checks_feedback ctx member tr :
  kick_checks ctx member = Some tr -> error_feedback tr.
Proof.
  unfold kick_checks. repeat case_match; try apply hierarchy_check_feedback;
    intros [= <-]; unfold error_feedback; eauto 10.
Qed.

Lemma ban_checks_feedback ctx user tr :
  ban_checks ctx user = Some tr -> error_feedback tr.
Proof.
  unfold ban_checks. repeat case_match; try apply hierarchy_check_feedback;
    try done; intros [= <-]; unfold error_feedback; eauto 10.
Qed.

Lemma nothing_done_ensure env ctx db err tr :
  Forall (fun e => removes_or_ends e = false) tr ->
  nothing_done env ctx db
    ((err, tr), _ensure_guild_tables_exist (db_fault env) (guild_id ctx) db).
Proof.
  intros Htr. split; [done|]. split; [intros; apply case_rows_ensure|].
  split; [by right|]. intros. by apply ensure_present.
Qed.

Lemma nothing_done_refused env ctx db e : nothing_done env ctx db ((Some e, []), db).
Proof. split; [constructor|]. split; [done|]. split; [by left|done]. Qed.

Lemma kick_cancelled env ctx member why db :
  ~ accepted env ctx -> nothing_done env ctx db (kick env ctx member why db).
Proof.
  intros Hna. unfold kick, check_permissions.
  destruct (missing _ (permissions ctx)); [|apply nothing_done_refused].
  destruct (missing _ (bot_permissions ctx)); [|apply nothing_done_refused].
  unfold returns, kick_body.
  destruct (kick_checks ctx member) as [tr|] eqn:Hc.
  { apply nothing_done_ensure, feedback_harmless. by eapply kick_checks_feedback. }
  destruct (prompt_cancelled env ctx member "kick" why 30 Hna) as (tr & shown & -> & Htr).
  cbn [negb fst snd]. apply nothing_done_ensure.
  rewrite !Forall_app. split; [done|]. destruct shown; by repeat constructor.
Qed.

Lemma ban_cancelled env ctx user why db :
  ~ accepted env ctx -> nothing_done env ctx db (ban env ctx user why db).
Proof.
  intros Hna. unfold ban, check_permissions.
  destruct (missing _ (permissions ctx)); [|apply nothing_done_refused].
  destruct (missing _ (bot_permissions ctx)); [|apply nothing_done_refused].
  unfold returns, ban_body.
  destruct (ban_checks ctx user) as [tr|] eqn:Hc.
  { apply nothing_done_ensure, feedback_harmless. by eapply ban_checks_feedback. }
  destruct (prompt_cancelled env ctx user "ban" why 30 Hna) as (tr & shown & -> & Htr).
  cbn [negb fst snd]. apply nothing_done_ensure.
  rewrite !Forall_app. split; [done|]. destruct shown; by repeat constructor.
Qed.

Lemma power_check_iff ctx m :
  Power.check ctx m = true <->
  Power.msg_author m = Power.author_id ctx /\ Power.msg_channel m = Power.channel_id ctx.
Proof. unfold Power.check. by rewrite andb_true_iff, !bool_decide_eq_true. Qed.

Lemma code_typed_wait env ctx :
  Power.code_typed env ctx <->
  exists m, Power.wait_for_message env ctx = Some m /\
            Power.msg_content m = pretty (Power.randint env).
Proof.
  unfold Power.wait_for_message. split.
  - intros (before & m & after & -> & Ha & Hc & Hm & Hb). exists m. split; [|done].
    induction Hb as [|x before Hx Hb IH]; simpl.
    + by rewrite (proj2 (power_check_iff ctx m)).
    + destruct (Power.check ctx x) eqn:Hcx; [|done].
      by apply power_check_iff in Hcx.
  - intros (m & (before & after & Hl & Hb & Hm)%find_split & Hcode).
    apply power_check_iff in Hm as [? ?].
    exists before, m, after. split; [done|]. do 3 (split; [done|]).
    eapply Forall_impl; [exact Hb|]. intros x Hx Hcx%power_check_iff. congruence.
Qed.

Lemma restart_gated env ctx :
  (~ Power.code_typed env ctx ->
   Forall (fun e => removes_or_ends e = false) (Power.restart_command env ctx).2) /\
  (Power.is_owner ctx = true -> Power.code_typed env ctx ->
   last (Power.restart_command env ctx).2 = Some Execv).
Proof.
  unfold Power.restart_command, Power.check_owner, Power.restart_command_body. split.
  - intros Hn. destruct (Power.is_owner ctx); [|constructor]. cbn [snd].
    constructor; [done|].
    destruct (Power.wait_for_message env ctx) as [m|] eqn:Hw; [|by repeat constructor].
    case_decide as Hm; [|by repeat constructor].
    destruct Hn. apply code_typed_wait. eauto.
  - intros -> (m & -> & Hm)%code_typed_wait. by rewrite decide_True.
Qed.

Lemma shutdown_gated env ctx :
  (~ Power.code_typed env ctx ->
   Forall (fun e => removes_or_ends e = false) (Power.shutdown_command env ctx).2) /\
  (Power.is_owner ctx = true -> Power.code_typed env ctx ->
   last (Power.shutdown_command env ctx).2 = Some Close).
Proof.
  unfold Power.shutdown_command, Power.check_owner, Power.shutdown_command_body. split.
  - intros Hn. destruct (Power.is_owner ctx); [|constructor]. cbn [snd].
    constructor; [done|].
    destruct (Power.wait_for_message env ctx) as [m|] eqn:Hw; [|by repeat constructor].
    case_decide as Hm; [|by repeat constructor].
    destruct Hn. apply code_typed_wait. eauto.
  - intros -> (m & -> & Hm)%code_typed_wait. by rewrite decide_True.
Qed.

(** C1 (as amended).  A kick or a ban that the invoking user does not confirm
    (no ✅ of the invoking user on the prompt before the time-out and before a
    ❌ of theirs) removes no member and writes no case row: the rows of every
    guild are as before, and the database is unchanged but for the two empty
    tables of the guild, which the command creates before the prompt when
    they are missing.  A restart or shutdown whose code is not typed exactly
    by the invoking user (their first message in the channel within the
    time-out) neither replaces nor closes the process.  A member is removed,
    a case row of a kick or ban is written, or the process is replaced or
    closed only after that confirmation. *)
Theorem C1_confirmation_gates_kick_ban_restart_shutdown :
  (forall env ctx member why db,
      (~ accepted env ctx -> nothing_done env ctx db (kick env ctx member why db)) /\
      (Exists (fun e => removes_or_ends e = true) (kick env ctx member why db).1.2 \/
       (exists g, case_rows g (kick env ctx member why db).2 <> case_rows g db) ->
       accepted env ctx)) /\
  (forall env ctx user why db,
      (~ accepted env ctx -> nothing_done env ctx db (ban env ctx user why db)) /\
      (Exists (fun e => removes_or_ends e = true) (ban env ctx user why db).1.2 \/
       (exists g, case_rows g (ban env ctx user why db).2 <> case_rows g db) ->
       accepted env ctx)) /\
  (forall env ctx,
      (~ Power.code_typed env ctx ->
       Forall (fun e => removes_or_ends e = false) (Power.restart_command env ctx).2) /\
      (Exists (fun e => removes_or_ends e = true) (Power.restart_command env ctx).2 ->
       Power.code_typed env ctx) /\
      (Power.is_owner ctx = true -> Power.code_typed env ctx ->
       last (Power.restart_command env ctx).2 = Some Execv)) /\
  (forall env ctx,
      (~ Power.code_typed env ctx ->
       Forall (fun e => removes_or_ends e = false) (Power.shutdown_command env ctx).2) /\
      (Exists (fun e => removes_or_ends e = true) (Power.shutdown_command env ctx).2 ->
       Power.code_typed env ctx) /\
      (Power.is_owner ctx = true -> Power.code_typed env ctx ->
       last (Power.shutdown_command env ctx).2 = Some Close)).
Proof.
  assert (Hno : forall tr, Forall (fun e => removes_or_ends e = false) tr ->
                           ~ Exists (fun e => removes_or_ends e = true) tr).
  { intros tr Hall Hex. apply Exists_exists in Hex as (e & Hin & He).
    rewrite Forall_forall in Hall. specialize (Hall e Hin). congruence. }
  assert (Hcode : forall env ctx, Power.code_typed env ctx \/ ~ Power.code_typed env ctx).
  { intros env ctx. destruct (Power.wait_for_message env ctx) as [m|] eqn:Hw.
    - destruct (decide (Power.msg_content m = pretty (Power.randint env))).
      + left. apply code_typed_wait. eauto.
      + right. intros (m' & ? & ?)%code_typed_wait. congruence.
    - right. intros (m' & ? & ?)%code_typed_wait. congruence. }
  split; [|split; [|split]].
  - intros env ctx member why db. split; [apply kick_cancelled|].
    intros Heff. destruct (accepted_dec env ctx) as [?|Hna]; [done|].
    destruct (kick_cancelled env ctx member why db Hna) as (Htr & Hrows & _).
    destruct Heff as [Hex|[g Hg]]; [by apply Hno in Htr|by destruct Hg].
  - intros env ctx user why db. split; [apply ban_cancelled|].
    intros Heff. destruct (accepted_dec env ctx) as [?|Hna]; [done|].
    destruct (ban_cancelled env ctx user why db Hna) as (Htr & Hrows & _).
    destruct Heff as [Hex|[g Hg]]; [by apply Hno in Htr|by destruct Hg].
  - intros env ctx. destruct (restart_gated env ctx) as [Hn Hy].
    split; [done|]. split; [|done]. intros Hex.
    destruct (Hcode env ctx) as [?|Hnc]; [done|]. by apply Hn, Hno in Hnc.
  - intros env ctx. destruct (shutdown_gated env ctx) as [Hn Hy].
    split; [done|]. split; [|done]. intros Hex.
    destruct (Hcode env ctx) as [?|Hnc]; [done|]. by apply Hn, Hno in Hnc.
Qed.

Lemma a_guild_not_accepted : ~ accepted (reacting_with "❌" None) a_guild.
Proof.
  intros (r & Hf & He)%accepted_find. vm_compute in Hf. injection Hf as <-.
  by vm_compute in He.
Qed.

Lemma C1_confirmation_gates_kick_ban_restart_shutdown_witness :
  nothing_done (reacting_with "❌" None) a_guild no_tables
    (kick (reacting_with "❌" None) a_guild bob None no_tables) /\
  Forall (fun e => removes_or_ends e = false)
    (Power.restart_command (Power.typing ["123457"; "123456"]) Power.the_owner).2 /\
  last (Power.restart_command (Power.typing ["123456"]) Power.the_owner).2 = Some Execv.
Proof.
  destruct C1_confirmation_gates_kick_ban_restart_shutdown as (Hkick & _ & Hrestart & _).
  split; [|split].
  - apply Hkick. exact a_guild_not_accepted.
  - apply Hrestart. intros (m & Hw & Hm)%code_typed_wait.
    vm_compute in Hw. injection Hw as <-. by vm_compute in Hm.
  - apply Hrestart; [reflexivity|]. apply code_typed_wait. eexists. split; reflexivity.
Defined.

(** C1 as stated fails: a kick that the moderator cancels with ❌, in a guild
    the bot has not moderated before, changes the database: the two tables of
    the guild are created. *)
Lemma C1_counterexample_cancelled_kick_creates_tables :
  ~ accepted (reacting_with "❌" None) a_guild /\
  (kick (reacting_with "❌" None) a_guild bob None no_tables).2 <> no_tables /\
  cases (kick (reacting_with "❌" None) a_guild bob None no_tables).2 !! 1 =
    Some Sqlite.empty /\
  cases no_tables !! 1 = None.
Proof.
  split; [exact a_guild_not_accepted|].
  assert (H : cases (kick (reacting_with "❌" None) a_guild bob None no_tables).2 !! 1 =
              Some Sqlite.empty) by (by vm_compute).
  split; [|split; [exact H|done]].
  intros Heq. rewrite Heq in H. done.
Qed.

End ConfirmationProps.

(** ** cogs/music.py *)

Module MusicProps.
Import Music.

Lemma get_state_set_state g st c : get_state g (set_state g st c) = st.
Proof. unfold get_state, set_state. simpl. by rewrite lookup_insert_eq. Qed.

(** With a track at the head of the queue, [play_next] takes it off and
    plays it. *)
Lemma play_next_head env g c t rest :
  g ∈ voice_clients c -> queue (get_state g c) = t :: rest ->
  (play_next env g c).1 = (None, [Play g t]) /\
  queue (get_state g (play_next env g c).2) = rest /\
  current_track (get_state g (play_next env g c).2) = Some t /\
  autoplay (get_state g (play_next env g c).2) = autoplay (get_state g c) /\
  voice_clients (play_next env g c).2 = voice_clients c.
Proof.
  intros Hg Hq. unfold play_next. rewrite decide_False by (by intros []).
  rewrite Hq. cbn [fst snd]. by rewrite get_state_set_state.
Qed.

(** With an empty queue, [play_next] leaves the queue empty; with autoplay
    off it plays nothing and schedules the disconnection in 30 seconds. *)
Lemma play_next_empty env g c :
  g ∈ voice_clients c -> queue (get_state g c) = [] ->
  queue (get_state g (play_next env g c).2) = [] /\
  (autoplay (get_state g c) = false ->
   (play_next env g c).1 = (None, []) /\
   disconnect_task (get_state g (play_next env g c).2) = Some (mk_task g 30) /\
   current_track (get_state g (play_next env g c).2) = None /\
   voice_clients (play_next env g c).2 = voice_clients c).
Proof.
  intros Hg Hq. unfold play_next. rewrite decide_False by (by intros []).
  rewrite Hq. cbn [autoplay with_current]. split.
  - destruct (autoplay (get_state g c)).
    + repeat case_match; cbn [snd]; by rewrite get_state_set_state.
    + cbn [snd]. by rewrite get_state_set_state.
  - intros ->. cbn [fst snd]. by rewrite get_state_set_state.
Qed.

Lemma play_next_times_S env n g c :
  play_next_times env (S n) g c =
  ((play_next_times env n g c).1 ++ [(play_next env g (play_next_times env n g c).2).1.2],
   (play_next env g (play_next_times env n g c).2).2).
Proof.
  revert c. induction n as [|n IH]; intros c.
  - simpl. by destruct (play_next env g c) as [[? ?] ?].
  - change (play_next_times env (S (S n)) g c) with
      (let '((_, tr), c') := play_next env g c in
       let '(trs, c'') := play_next_times env (S n) g c' in (tr :: trs, c'')).
    destruct (play_next env g c) as [[err tr] c'] eqn:Hp.
    rewrite IH. cbn [play_next_times]. rewrite Hp.
    by destruct (play_next_times env n g c').
Qed.

(** The first calls take the tracks off the queue one by one, from the head,
    and play them. *)
Lemma play_next_times_drains env g k :
  forall c tracks,
    g ∈ voice_clients c -> queue (get_state g c) = tracks -> (k <= length tracks)%nat ->
    (play_next_times env k g c).1 = map (fun t => [Play g t]) (take k tracks) /\
    queue (get_state g (play_next_times env k g c).2) = drop k tracks /\
    autoplay (get_state g (play_next_times env k g c).2) = autoplay (get_state g c) /\
    voice_clients (play_next_times env k g c).2 = voice_clients c.
Proof.
  induction k as [|k IH]; intros c tracks Hg Hq Hk; [done|].
  destruct tracks as [|t rest]; [simpl in Hk; lia|].
  destruct (play_next_head env g c t rest Hg Hq) as (Htr & Hrest & _ & Hauto & Hvc).
  cbn [play_next_times]. destruct (play_next env g c) as [[err tr] c'].
  cbn [fst snd] in *. injection Htr as -> ->.
  destruct (IH c' rest) as (Htrs & Hqueue & Hauto' & Hvc');
    [by rewrite Hvc|done|simpl in Hk; lia|].
  destruct (play_next_times env k g c') as [trs c'']. cbn [fst snd] in *.
  split; [by rewrite Htrs|]. split; [done|]. split; congruence.
Qed.

(** When the task runs, the player is disconnected and the state of the
    guild is deleted. *)
Lemma run_task_disconnects g c :
  g ∈ voice_clients c ->
  (exists rest, (run_task (mk_task g 30) c).1 = Disconnect g :: rest) /\
  guild_states (run_task (mk_task g 30) c).2 !! g = None /\
  g ∉ voice_clients (run_task (mk_task g 30) c).2.
Proof.
  intros Hg. unfold run_task, disconnect_after_timeout. cbn [fst snd task_guild].
  rewrite decide_True by done. split; [by eexists|]. cbn [guild_states voice_clients].
  split; [apply lookup_delete_eq|]. rewrite elem_of_difference, elem_of_singleton. tauto.
Qed.

(** C6.  In a guild with a connected player and N tracks in the queue, each
    of the first N calls of [play_next] takes exactly the head track off the
    queue and plays it; after N+1 calls the queue is empty and, with autoplay
    off, the last call plays nothing and schedules the task that sleeps 30
    seconds, disconnects the player and deletes the music state of the
    guild. *)
Theorem C6_play_next_drains_queue_then_schedules_disconnect :
  forall (env : environment) (g : Z) (c : cog) (tracks : list track),
    g ∈ voice_clients c ->
    queue (get_state g c) = tracks ->
    (forall k, (k <= length tracks)%nat ->
               (play_next_times env k g c).1 = map (fun t => [Play g t]) (take k tracks) /\
               queue (get_state g (play_next_times env k g c).2) = drop k tracks) /\
    queue (get_state g (play_next_times env (S (length tracks)) g c).2) = [] /\
    (autoplay (get_state g c) = false ->
     last (play_next_times env (S (length tracks)) g c).1 = Some [] /\
     disconnect_task (get_state g (play_next_times env (S (length tracks)) g c).2) =
       Some (mk_task g 30) /\
     (exists rest,
         (run_task (mk_task g 30) (play_next_times env (S (length tracks)) g c).2).1 =
         Disconnect g :: rest) /\
     guild_states (run_task (mk_task g 30)
                     (play_next_times env (S (length tracks)) g c).2).2 !! g = None /\
     g ∉ voice_clients (run_task (mk_task g 30)
                          (play_next_times env (S (length tracks)) g c).2).2).
Proof.
  intros env g c tracks Hg Hq. split.
  - intros k Hk. by destruct (play_next_times_drains env g k c tracks Hg Hq Hk) as (? & ? & _).
  - destruct (play_next_times_drains env g (length tracks) c tracks Hg Hq (le_n _))
      as (_ & Hqueue & Hauto & Hvc).
    rewrite drop_all in Hqueue. rewrite play_next_times_S. cbn [fst snd].
    assert (Hg' : g ∈ voice_clients (play_next_times env (length tracks) g c).2)
      by (by rewrite Hvc).
    destruct (play_next_empty env g _ Hg' Hqueue) as [Hempty Hoff].
    split; [done|]. intros Ha. rewrite <- Hauto in Ha.
    destruct (Hoff Ha) as (Htr & Htask & _ & Hvc').
    split; [by rewrite last_snoc, Htr|]. split; [done|].
    apply run_task_disconnects. by rewrite Hvc'.
Qed.

Lemma C6_play_next_drains_queue_then_schedules_disconnect_witness :
  (play_next_times no_search 2 1 playing).1 = [[Play 1 (song "a")]; [Play 1 (song "b")]] /\
  queue (get_state 1 (play_next_times no_search 3 1 playing).2) = [] /\
  disconnect_task (get_state 1 (play_next_times no_search 3 1 playing).2) =
    Some (mk_task 1 30) /\
  guild_states (run_task (mk_task 1 30) (play_next_times no_search 3 1 playing).2).2 !! 1 = None.
Proof.
  assert (Hg : 1 ∈ voice_clients playing)
    by (unfold playing; cbn [voice_clients]; by apply elem_of_singleton).
  destruct (C6_play_next_drains_queue_then_schedules_disconnect no_search 1 playing
              [song "a"; song "b"] Hg eq_refl) as (Hfirst & Hqueue & Hoff).
  destruct (Hfirst 2%nat (le_n _)) as [Htr _].
  destruct (Hoff eq_refl) as (_ & Htask & _ & Hgone & _).
  split; [exact Htr|]. split; [exact Hqueue|]. split; [exact Htask|exact Hgone].
Defined.

End MusicProps.

(** ** More on strings *)

Section strings_more.

Lemma string_length_app (a b : string) :
  String.length (a +:+ b) = (String.length a + String.length b)%nat.
Proof.
  induction a as [|c a IH]; [done|].
  change (String c a +:+ b) with (String c (a +:+ b)). simpl. by rewrite IH.
Qed.

Lemma string_length_take n s : (String.length (Str.take n s) <= n)%nat.
Proof.
  revert s. induction n as [|n IH]; intros [|c s]; simpl; try lia.
  specialize (IH s). lia.
Qed.

Lemma prefix_app (p r : string) : String.prefix p (p +:+ r) = true.
Proof.
  induction p as [|c p IH]; [by destruct r|].
  change (String c p +:+ r) with (String c (p +:+ r)). simpl.
  destruct (Ascii.ascii_dec c c); [done|congruence].
Qed.

Lemma drop_app (p r : string) : Str.drop (String.length p) (p +:+ r) = r.
Proof. induction p as [|c p IH]; [by destruct r|]. done. Qed.

Lemma append_empty_r (s : string) : s +:+ "" = s.
Proof.
  induction s as [|c s IH]; [done|].
  change (String c s +:+ "") with (String c (s +:+ "")). by rewrite IH.
Qed.

End strings_more.

(** ** cogs/prefix.py: the table over time *)

Module PrefixStorageProps.
Import Prefix PrefixProps.

Lemma get_prefix_in_sync g s :
  in_sync s -> get_prefix (Some g) s = default_prefix :: elements (stored g s).
Proof.
  intros Hs. unfold get_prefix. rewrite <- Hs.
  destruct (prefix_cache s !! g) as [ps|]; simpl.
  - case_decide; [subst; by rewrite elements_empty|done].
  - by rewrite elements_empty.
Qed.

Lemma stored_ext g s s' :
  guild_prefixes s = guild_prefixes s' -> stored g s = stored g s'.
Proof. unfold stored. by intros ->. Qed.

(** X1.  When the bot leaves a guild, [on_guild_remove] deletes every prefix
    stored for the guild together with its cache entry and sends nothing: only
    the default prefix stays active there, and every other guild keeps its
    stored and its active prefixes.  When the database raises, the cog is left
    as it was. *)
Theorem guild_removal_forgets_prefixes :
  forall (g : Z) (s : cog),
    let s' := (on_guild_remove None g s).2 in
    (on_guild_remove None g s).1 = [] /\
    stored g s' = ∅ /\
    get_prefix (Some g) s' = [default_prefix] /\
    (forall g', g' <> g ->
                stored g' s' = stored g' s /\
                get_prefix (Some g') s' = get_prefix (Some g') s) /\
    (forall e, (on_guild_remove (Some e) g s).2 = s).
Proof.
  intros g s s'. subst s'. unfold on_guild_remove. cbn [fst snd].
  split; [done|]. split; [|split; [|split; [|done]]].
  - apply set_eq. intros p. rewrite elem_of_stored. simpl.
    rewrite elem_of_filter, elem_of_empty. simpl. tauto.
  - unfold get_prefix. simpl. by rewrite lookup_delete_eq.
  - intros g' Hne. split.
    + apply set_eq. intros p. rewrite !elem_of_stored. simpl.
      rewrite elem_of_filter. simpl. tauto.
    + unfold get_prefix. simpl. by rewrite lookup_delete_ne.
Qed.

(** X2.  After any sequence of add, remove and clear commands, a cog that is
    built anew from the table (the bot is restarted) answers [get_prefix] for
    every guild, and for direct messages, as the running cog does. *)
Theorem prefixes_survive_restart :
  forall (table : gset (Z * string)) (invs : list invocation) (guild : option Z),
    let s := run_all invs (init table) in
    get_prefix guild (init (guild_prefixes s)) = get_prefix guild s.
Proof.
  intros table invs [g|] s; [|done].
  rewrite !get_prefix_in_sync.
  - done.
  - apply run_all_in_sync, init_in_sync.
  - apply init_in_sync.
Qed.

Lemma run_well_formed i s : well_formed s -> well_formed (run i s).2.
Proof.
  intros Hs. unfold run, add_new_prefix, remove_existing_prefix, clear_all_prefixes,
    has_permissions_administrator.
  destruct (inv_op i) as [p|p|]; destruct (administrator (inv_ctx i)); simpl; try done.
  - unfold add_new_prefix_body.
    case_decide as He; [done|]. case_decide as Hl; [done|]. case_decide as Hm; [done|].
    case_decide as Hd; [done|].
    assert (Hp : p <> default_prefix).
    { intros ->. apply Hd. split; [done|apply default_in_all]. }
    unfold add_prefix_to_db. destruct (inv_fault i); [done|]. case_decide; [done|]. simpl.
    intros g q. simpl. rewrite elem_of_union, elem_of_singleton.
    intros [Hin|[= -> ->]]; [exact (Hs g q Hin)|]. split; [done|]. split; [lia|done].
  - unfold remove_existing_prefix_body. case_decide; [done|].
    unfold remove_prefix_from_db. destruct (inv_fault i); [done|].
    case_decide; simpl; intros g q; simpl; rewrite elem_of_difference; intros [Hin _];
      exact (Hs g q Hin).
  - unfold clear_all_prefixes_body. destruct (inv_fault i); [done|]. simpl.
    intros g q. simpl. rewrite elem_of_filter. intros [_ Hin]. exact (Hs g q Hin).
Qed.

Lemma run_all_well_formed invs s : well_formed s -> well_formed (run_all invs s).
Proof.
  revert s. induction invs as [|i invs IH]; intros s Hs; [done|].
  apply IH, run_well_formed, Hs.
Qed.

(** X3.  If every stored prefix is not empty, at most ten characters long and
    not the default prefix, this still holds after any sequence of add, remove
    and clear commands; every active prefix of a guild is then not empty and
    at most ten characters long, and no prefix is listed twice. *)
Theorem stored_prefixes_stay_well_formed :
  forall (table : gset (Z * string)) (invs : list invocation),
    well_formed (init table) ->
    let s := run_all invs (init table) in
    well_formed s /\
    (forall g p, p ∈ get_prefix (Some g) s ->
                 p <> "" /\ (String.length p <= 10)%nat) /\
    (forall g, NoDup (get_prefix (Some g) s)).
Proof.
  intros table invs Hw s.
  assert (Hs : in_sync s) by apply run_all_in_sync, init_in_sync.
  assert (Hw' : well_formed s) by (by apply run_all_well_formed).
  split; [done|]. split.
  - intros g p. rewrite get_prefix_in_sync by done.
    rewrite elem_of_cons, elem_of_elements, elem_of_stored.
    intros [->|Hin]; [split; [done|simpl; lia]|].
    destruct (Hw' g p Hin) as (? & ? & _). done.
  - intros g. rewrite get_prefix_in_sync by done. apply NoDup_cons. split.
    + rewrite elem_of_elements, elem_of_stored. intros Hin.
      by destruct (Hw' g _ Hin) as (_ & _ & ?).
    + apply NoDup_elements.
Qed.

Lemma stored_prefixes_stay_well_formed_witness :
  let s := run_all [mk_invocation an_admin None (Add "!");
                    mk_invocation an_admin None (Add "12345678901");
                    mk_invocation an_admin None (Add "i.")] (init ∅) in
  well_formed s /\ get_prefix (Some 1) s = ["i."; "!"].
Proof.
  intros s.
  assert (Hw : well_formed (init ∅)).
  { intros g p Hin. simpl in Hin. by apply elem_of_empty in Hin. }
  destruct (stored_prefixes_stay_well_formed ∅
              [mk_invocation an_admin None (Add "!");
               mk_invocation an_admin None (Add "12345678901");
               mk_invocation an_admin None (Add "i.")] Hw) as [H _].
  split; [exact H|]. by vm_compute.
Defined.

(** X4.  In a guild with fewer than nine custom prefixes an administrator who
    adds a prefix that is not empty, at most ten characters long, not the
    default and not yet stored, and then removes it, gets the two success
    messages; in between the prefix is active, and afterwards the table and
    the active prefixes of every guild are what they were. *)
Theorem add_then_remove_restores :
  forall (ctx : context) (p : string) (s : cog),
    in_sync s ->
    administrator ctx = true ->
    p <> "" -> (String.length p <= 10)%nat -> p <> default_prefix ->
    p ∉ stored (guild_id ctx) s ->
    (size (stored (guild_id ctx) s) < 9)%nat ->
    let first := run (mk_invocation ctx None (Add p)) s in
    let second := run (mk_invocation ctx None (Remove p)) first.2 in
    first.1 = (None, [Send (Text (added p))]) /\
    p ∈ get_prefix (Some (guild_id ctx)) first.2 /\
    second.1 = (None, [Send (Text (removed p))]) /\
    guild_prefixes second.2 = guild_prefixes s /\
    (forall guild, get_prefix guild second.2 = get_prefix guild s).
Proof.
  intros ctx p s Hs Hadmin He Hl Hd Hnew Hsize first second.
  assert (Hnin : (guild_id ctx, p) ∉ guild_prefixes s) by (by rewrite <- elem_of_stored).
  assert (Hfirst : first = ((None, [Send (Text (added p))]),
                            {| guild_prefixes := guild_prefixes s ∪ {[(guild_id ctx, p)]};
                               prefix_cache := cache_add (guild_id ctx) p (prefix_cache s) |})).
  { subst first. unfold run, add_new_prefix, has_permissions_administrator. simpl.
    rewrite Hadmin. unfold add_new_prefix_body.
    rewrite decide_False by done. rewrite decide_False by lia.
    rewrite length_get_all_prefixes by done. rewrite decide_False by lia.
    rewrite decide_False by tauto. unfold add_prefix_to_db.
    rewrite decide_False by done. done. }
  assert (Hs1 : in_sync first.2).
  { subst first. by apply run_in_sync. }
  assert (Hin1 : (guild_id ctx, p) ∈ guild_prefixes first.2).
  { rewrite Hfirst. simpl. apply elem_of_union. right. by apply elem_of_singleton. }
  assert (Hsecond : second.1 = (None, [Send (Text (removed p))]) /\
                    guild_prefixes second.2 = guild_prefixes first.2 ∖ {[(guild_id ctx, p)]}).
  { subst second. unfold run, remove_existing_prefix, has_permissions_administrator. simpl.
    rewrite Hadmin. unfold remove_existing_prefix_body.
    rewrite decide_False by done. unfold remove_prefix_from_db.
    rewrite decide_True by done. done. }
  destruct Hsecond as [Hreply Htable].
  assert (Hsame : guild_prefixes second.2 = guild_prefixes s).
  { rewrite Htable, Hfirst. simpl. apply set_eq. intros q.
    rewrite elem_of_difference, elem_of_union, elem_of_singleton.
    split; [tauto|]. intros Hq. split; [auto|]. by intros ->. }
  split; [by rewrite Hfirst|]. split; [|split; [done|split; [done|]]].
  - rewrite get_prefix_in_sync by done. apply elem_of_cons. right.
    by rewrite elem_of_elements, elem_of_stored.
  - intros [g|]; [|done].
    assert (Hs2 : in_sync second.2) by (subst second; by apply run_in_sync).
    rewrite !get_prefix_in_sync by done. do 2 f_equal. by apply stored_ext.
Qed.

Lemma add_then_remove_restores_witness :
  let s := init {[ (1, "?") ]} in
  (run (mk_invocation an_admin None (Add "!")) s).1 = (None, [Send (Text (added "!"))]) /\
  get_prefix (Some 1)
    (run (mk_invocation an_admin None (Remove "!"))
       (run (mk_invocation an_admin None (Add "!")) s).2).2 = ["i."; "?"].
Proof.
  intros s.
  assert (Hnew : "!" ∉ stored (guild_id an_admin) s).
  { rewrite elem_of_stored. simpl. rewrite elem_of_singleton. by intros [= ]. }
  assert (Hsize : (size (stored (guild_id an_admin) s) < 9)%nat) by (vm_compute; lia).
  destruct (add_then_remove_restores an_admin "!" s (init_in_sync _) eq_refl
              ltac:(discriminate) ltac:(simpl; lia) ltac:(discriminate) Hnew Hsize)
    as (Hfirst & _ & _ & _ & Hback).
  split; [exact Hfirst|]. rewrite (Hback (Some 1)). by vm_compute.
Defined.

(** X5.  After the clear command of an administrator the guild has no stored
    prefix, its only active prefix is the default one, the list command
    answers that only the default prefix is active, and every other guild
    keeps its stored and its active prefixes. *)
Theorem clear_leaves_only_default :
  forall (ctx : context) (s : cog),
    administrator ctx = true ->
    let cleared := (run (mk_invocation ctx None Clear) s).2 in
    stored (guild_id ctx) cleared = ∅ /\
    get_prefix (Some (guild_id ctx)) cleared = [default_prefix] /\
    list_prefixes ctx cleared =
      ((None, [Send (Text "Only the default prefix is active: `i.`")]), cleared) /\
    (forall g, g <> guild_id ctx ->
               stored g cleared = stored g s /\
               get_prefix (Some g) cleared = get_prefix (Some g) s).
Proof.
  intros ctx s Hadmin cleared. subst cleared.
  unfold run, clear_all_prefixes, has_permissions_administrator. simpl. rewrite Hadmin.
  cbn [snd]. unfold clear_all_prefixes_body. cbn [snd].
  split; [|split; [|split]].
  - apply set_eq. intros p. rewrite elem_of_stored. simpl.
    rewrite elem_of_filter, elem_of_empty. simpl. tauto.
  - unfold get_prefix. simpl. destruct (prefix_cache s !! guild_id ctx) eqn:Hc.
    + rewrite lookup_insert_eq. by rewrite decide_True.
    + by rewrite Hc.
  - unfold list_prefixes, get_all_prefixes. simpl.
    destruct (prefix_cache s !! guild_id ctx) eqn:Hc.
    + rewrite lookup_insert_eq, elements_empty. by rewrite decide_True.
    + rewrite Hc. by rewrite decide_True.
  - intros g Hne. split.
    + apply set_eq. intros p. rewrite !elem_of_stored. simpl.
      rewrite elem_of_filter. simpl. tauto.
    + unfold get_prefix. simpl. destruct (prefix_cache s !! guild_id ctx) eqn:Hc; [|done].
      by rewrite lookup_insert_ne.
Qed.

Lemma clear_leaves_only_default_witness :
  get_prefix (Some 1) (run (mk_invocation an_admin None Clear) (init nine_prefixes)).2 = ["i."].
Proof.
  destruct (clear_leaves_only_default an_admin (init nine_prefixes) eq_refl) as (_ & H & _).
  exact H.
Defined.

Lemma removed_ne_not_found p :
  "Prefix `" +:+ p +:+ "` removed successfully." <>
  "Prefix `" +:+ p +:+ "` not found or is not a custom prefix.".
Proof. string_ne. Qed.

(** X6.  An add, remove or clear command of a user who is not an
    administrator, or during which the database raises, leaves the table and
    the cache as they were and does not send the success message; for the user
    who is not an administrator the command fails with [MissingPermissions]
    and sends nothing. *)
Theorem refused_or_failed_prefix_command_changes_nothing :
  forall (i : invocation) (s : cog),
    administrator (inv_ctx i) = false \/ is_Some (inv_fault i) ->
    (run i s).2 = s /\ rejected i s /\
    (administrator (inv_ctx i) = false ->
     (run i s).1 = (Some (MissingPermissions ["administrator"]), [])).
Proof.
  intros [ctx fault op] s H. unfold rejected, run, add_new_prefix, remove_existing_prefix,
    clear_all_prefixes, has_permissions_administrator. simpl in *.
  destruct (administrator ctx) eqn:Hadmin.
  2:{ destruct op; (split; [done|split; [apply not_elem_of_nil|done]]). }
  destruct H as [?|[e ->]]; [done|].
  destruct op as [p|p|]; simpl.
  - unfold add_new_prefix_body.
    case_decide; [split; [done|split; [apply not_elem_of_singleton_send; string_ne|done]]|].
    case_decide; [split; [done|split; [apply not_elem_of_singleton_send; string_ne|done]]|].
    case_decide; [split; [done|split; [apply not_elem_of_singleton_send; string_ne|done]]|].
    case_decide; [split; [done|split; [apply not_elem_of_singleton_send, added_ne_default|done]]|].
    simpl. split; [done|]. split; [|done].
    intros [Hin|Hin]%elem_of_cons; [done|]. revert Hin.
    apply not_elem_of_singleton_send, added_ne_exists.
  - unfold remove_existing_prefix_body.
    case_decide; [split; [done|split; [apply not_elem_of_singleton_send; string_ne|done]]|].
    simpl. split; [done|]. split; [|done].
    intros [Hin|Hin]%elem_of_cons; [done|]. revert Hin.
    apply not_elem_of_singleton_send, removed_ne_not_found.
  - split; [done|]. split; [|done]. apply not_elem_of_singleton_send. string_ne.
Qed.

Lemma refused_or_failed_prefix_command_changes_nothing_witness :
  (run (mk_invocation an_admin (Some "database is locked") (Add "!")) (init ∅)).2 = init ∅.
Proof.
  destruct (refused_or_failed_prefix_command_changes_nothing
              (mk_invocation an_admin (Some "database is locked") (Add "!")) (init ∅))
    as [H _]; [right; by eexists|exact H].
Defined.

End PrefixStorageProps.

(** ** cogs/eng.py: the vocabulary table and the failures of the AI *)

Module VocabularyProps.
Import Eng StrProps EngProps.

Lemma save_word_unique fault ctx word s :
  unique_words (vocabulary s) -> unique_words (vocabulary (save_word fault ctx word s).2).
Proof.
  intros Hs. unfold save_word.
  destruct (negb (Str.truthy (Str.strip (Str.lower word)))); [done|].
  destruct fault; [done|]. case_decide as Hin; [done|].
  intros u. cbn [snd vocabulary]. rewrite words_of_insert.
  case_decide as Hu; [subst u|by rewrite app_nil_r].
  apply NoDup_app. split; [apply Hs|]. split; [|apply NoDup_singleton].
  intros w Hw ->%list_elem_of_singleton. done.
Qed.

Lemma save_all_unique saves s :
  unique_words (vocabulary s) -> unique_words (vocabulary (save_all saves s)).
Proof.
  revert s. induction saves as [|c saves IH]; intros s Hs; [done|].
  apply IH. by apply save_word_unique.
Qed.

(** X7.  If no user has a word twice in the table, then after any sequence of
    save commands (by any users, with or without database errors) the stored
    words of every user, and the list the vocabulary command shows them, hold
    no word twice. *)
Theorem vocabulary_holds_each_word_once :
  forall (saves : list (option string * context * string)) (s : cog),
    unique_words (vocabulary s) ->
    forall user_id,
      NoDup (words_of user_id (vocabulary (save_all saves s))) /\
      NoDup (select_words user_id (vocabulary (save_all saves s))).
Proof.
  intros saves s Hs u.
  pose proof (save_all_unique saves s Hs u) as Hu. split; [done|].
  unfold select_words. by rewrite merge_sort_Permutation.
Qed.

Lemma vocabulary_holds_each_word_once_witness :
  NoDup (select_words 7
           (vocabulary (save_all [(None, alice, "Pear"); (None, alice, " PEAR ");
                                  (None, alice, "apple")] fresh_cog))) /\
  select_words 7
    (vocabulary (save_all [(None, alice, "Pear"); (None, alice, " PEAR ");
                           (None, alice, "apple")] fresh_cog)) = ["apple"; "pear"].
Proof.
  assert (H : unique_words (vocabulary fresh_cog)) by (intros u; constructor).
  destruct (vocabulary_holds_each_word_once
              [(None, alice, "Pear"); (None, alice, " PEAR "); (None, alice, "apple")]
              fresh_cog H 7) as [_ Hsel].
  split; [exact Hsel|]. by vm_compute.
Defined.

(** X8.  A save command changes neither the stored words of any other user nor
    the answer of the list command to them. *)
Theorem saving_leaves_other_users_words :
  forall (fault : option string) (ctx other : context) (word : string) (s : cog),
    author_id other <> author_id ctx ->
    let s' := (save_word fault ctx word s).2 in
    words_of (author_id other) (vocabulary s') = words_of (author_id other) (vocabulary s) /\
    list_vocab other s' = list_vocab other s.
Proof.
  intros fault ctx other word s Hne s'.
  assert (H : words_of (author_id other) (vocabulary s') =
              words_of (author_id other) (vocabulary s)).
  { subst s'. unfold save_word.
    destruct (negb (Str.truthy (Str.strip (Str.lower word)))); [done|].
    destruct fault; [done|]. case_decide; [done|].
    cbn [snd vocabulary]. rewrite words_of_insert.
    rewrite decide_False by done. by rewrite app_nil_r. }
  split; [done|]. unfold list_vocab, select_words. by rewrite H.
Qed.

Lemma saving_leaves_other_users_words_witness :
  list_vocab (mk_context 8 "bob" "i.") (save_word None alice "apple" fresh_cog).2 =
  list_vocab (mk_context 8 "bob" "i.") fresh_cog.
Proof.
  destruct (saving_leaves_other_users_words None alice (mk_context 8 "bob" "i.") "apple"
              fresh_cog ltac:(discriminate)) as [_ H].
  exact H.
Defined.

(** X9.  With a model configured, a failure of the AI call does not make the
    grammar, translate or daily-word command raise: the error is printed and
    the user gets the apology text of the command; the grammar check gives the
    same apology when the AI answers with white space only; the daily word is
    still sent, with its Thai meaning and a placeholder for the example. *)
Theorem ai_failure_is_answered_not_raised :
  forall (cfg : config) (ai : endpoint) (ctx : context) (s : cog),
    model s = true ->
    (forall sentence e,
        ai (CHECK_GRAMMAR_PROMPT cfg sentence) = Failure e ->
        check_grammar cfg ai ctx sentence s =
          (None, [Typing; GenerateContent (CHECK_GRAMMAR_PROMPT cfg sentence);
                  Print ("AI API Error: " +:+ e); Send (Text ai_error)])) /\
    (forall sentence text,
        ai (CHECK_GRAMMAR_PROMPT cfg sentence) = Answer text -> Str.strip text = "" ->
        check_grammar cfg ai ctx sentence s =
          (None, [Typing; GenerateContent (CHECK_GRAMMAR_PROMPT cfg sentence);
                  Send (Text ai_error)])) /\
    (forall text e,
        ai (TRANSLATE_PROMPT cfg text) = Failure e ->
        translate cfg ai ctx text s =
          (None, [Typing; GenerateContent (TRANSLATE_PROMPT cfg text);
                  Print ("AI API Error: " +:+ e); Send (Text translation_error)])) /\
    (forall choice word_data e,
        daily_words_list s !! choice = Some word_data ->
        ai (DAILY_WORD_EXAMPLE_PROMPT cfg (eng word_data)) = Failure e ->
        exists embed,
          daily_word cfg ai ctx choice s =
            (None, [Typing; GenerateContent (DAILY_WORD_EXAMPLE_PROMPT cfg (eng word_data));
                    Print ("AI API Error: " +:+ e); Send (Rich embed)]) /\
          fields embed = [("ความหมายภาษาไทย", thai word_data);
                          ("ประโยคตัวอย่าง (จาก AI)", code no_example)]).
Proof.
  intros cfg ai ctx s Hm. split; [|split; [|split]].
  - intros sentence e Hai. unfold check_grammar, ai_command_check, check_grammar_body, _call_ai.
    by rewrite Hm, Hai.
  - intros sentence text Hai He. unfold check_grammar, ai_command_check, check_grammar_body,
      _call_ai. rewrite Hm, Hai. simpl. by rewrite He.
  - intros text e Hai. unfold translate, ai_command_check, translate_body, _call_ai.
    by rewrite Hm, Hai.
  - intros choice word_data e Hw Hai. unfold daily_word, ai_command_check, daily_word_body,
      _call_ai. rewrite Hm, Hw, Hai. simpl. eexists. split; [done|]. done.
Qed.

Lemma ai_failure_is_answered_not_raised_witness :
  check_grammar no_key silent alice "I has a pen" fresh_cog =
    (None, [Typing; GenerateContent "I has a pen"; Print "AI API Error: unreachable";
            Send (Text ai_error)]).
Proof.
  destruct (ai_failure_is_answered_not_raised no_key silent alice fresh_cog eq_refl)
    as [H _].
  apply (H "I has a pen" "unreachable"). reflexivity.
Defined.

End VocabularyProps.

(** ** cogs/moderation.py: refusals, the mod-log and the history of cases *)

Module ModerationRecordProps.
Import Moderation SqliteProps ModerationProps ConfirmationProps.

Lemma int_inject_Z z : int (inject_Z z) = z.
Proof. unfold int, inject_Z. simpl. apply Z.quot_1_r. Qed.

Lemma Qle_bool_inject_Z a b : Qle_bool (inject_Z a) (inject_Z b) = (a <=? b).
Proof.
  destruct (Z.leb_spec a b) as [H|H].
  - apply Qle_bool_iff. by rewrite <- Zle_Qle.
  - apply not_true_is_false. rewrite Qle_bool_iff, <- Zle_Qle. lia.
Qed.

(** X10.  For a positive whole number of seconds written as d days, h hours
    (under 24), m minutes (under 60) and s seconds (under 60),
    [format_duration] lists the parts that are not zero, in this order, each
    followed by its unit letter, separated by single spaces. *)
Theorem format_duration_lists_nonzero_units :
  forall d h m s : Z,
    0 <= d -> 0 <= h < 24 -> 0 <= m < 60 -> 0 <= s < 60 ->
    0 < d * 86400 + h * 3600 + m * 60 + s ->
    format_duration (inject_Z (d * 86400 + h * 3600 + m * 60 + s)) =
    join " " (unit_part d "d" ++ unit_part h "h" ++ unit_part m "m" ++ unit_part s "s").
Proof.
  intros d h m s Hd Hh Hm Hs Hpos. unfold format_duration.
  change 0%Q with (inject_Z 0). rewrite Qle_bool_inject_Z.
  destruct (Z.leb_spec (d * 86400 + h * 3600 + m * 60 + s) 0) as [?|_]; [lia|].
  rewrite int_inject_Z.
  set (t := d * 86400 + h * 3600 + m * 60 + s).
  assert (Hdays : t / 86400 = d) by (subst t; Z.div_mod_to_equations; lia).
  assert (Hrem : t mod 86400 = h * 3600 + m * 60 + s) by (subst t; Z.div_mod_to_equations; lia).
  rewrite Hdays, Hrem.
  assert (Hhours : (h * 3600 + m * 60 + s) / 3600 = h) by (Z.div_mod_to_equations; lia).
  assert (Hrem2 : (h * 3600 + m * 60 + s) mod 3600 = m * 60 + s)
    by (Z.div_mod_to_equations; lia).
  rewrite Hhours, Hrem2.
  assert (Hmins : (m * 60 + s) / 60 = m) by (Z.div_mod_to_equations; lia).
  assert (Hsecs : (m * 60 + s) mod 60 = s) by (Z.div_mod_to_equations; lia).
  rewrite Hmins, Hsecs. unfold unit_part.
  destruct (decide (s = 0)) as [->|Hs0].
  - rewrite !app_nil_r.
    destruct (decide (d = 0)) as [->|?]; destruct (decide (h = 0)) as [->|?];
      destruct (decide (m = 0)) as [->|?]; done.
  - by rewrite !app_assoc.
Qed.

Lemma format_duration_lists_nonzero_units_witness :
  format_duration (inject_Z (1 * 86400 + 2 * 3600 + 3 * 60 + 4)) = "1d 2h 3m 4s" /\
  format_duration (inject_Z (0 * 86400 + 1 * 3600 + 0 * 60 + 0)) = "1h".
Proof.
  split.
  - exact (format_duration_lists_nonzero_units 1 2 3 4 ltac:(lia) ltac:(lia) ltac:(lia)
             ltac:(lia) ltac:(lia)).
  - exact (format_duration_lists_nonzero_units 0 1 0 0 ltac:(lia) ltac:(lia) ltac:(lia)
             ltac:(lia) ltac:(lia)).
Defined.

Global Instance case_id_desc_total : Total case_id_desc.
Proof. intros a b. unfold case_id_desc. lia. Qed.

Global Instance case_id_desc_trans : Transitive case_id_desc.
Proof. intros a b c. unfold case_id_desc. lia. Qed.


Lemma quiet_app a b : quiet a -> quiet b -> quiet (a ++ b).
Proof. intros. by apply Forall_app. Qed.

Lemma quiet_feedback t d c : quiet (_send_feedback_embed t d c).
Proof. by repeat constructor. Qed.

Lemma quiet_error_feedback tr : error_feedback tr -> quiet tr.
Proof. intros (t & d & c & -> & _). apply quiet_feedback. Qed.

Lemma quiet_prompt env ctx user act why n :
  quiet (_prompt_confirmation env ctx user act why n).1.
Proof.
  unfold _prompt_confirmation, _send_feedback_embed. destruct (prompt env); cbn [fst].
  - destruct (List.find _ _) as [r|]; [case_decide|]; by repeat constructor.
  - by repeat constructor.
  - by repeat constructor.
Qed.

Lemma quiet_dm env ctx member t r c d x : quiet (_send_dm_notification env ctx member t r c d x).
Proof.
  unfold _send_dm_notification. destruct (can_receive member); [|constructor].
  destruct (dm env); by repeat constructor.
Qed.

Lemma quiet_api_failure r text : quiet (api_failure r text).
Proof. destruct r; by repeat constructor. Qed.

Create HintDb quiet.

#[global] Hint Resolve quiet_app quiet_feedback quiet_prompt quiet_dm quiet_api_failure : quiet.

Lemma kick_refused_by_platform env ctx member why db :
  db_fault env = None ->
  permitted ctx ["kick_members"] ["kick_members"; "add_reactions"; "manage_messages"] ->
  kick_checks ctx member = None -> accepted env ctx -> api env <> Done ->
  quiet (kick env ctx member why db).1.2.
Proof.
  intros Hf Hp Hc Ha Hapi. unfold kick. rewrite check_permissions_permitted by done.
  unfold returns, kick_body. rewrite Hf, Hc.
  pose proof (quiet_prompt env ctx member "kick" why 30) as Hq.
  destruct (prompt_confirmed env ctx member "kick" why 30 Ha) as [tr Htr].
  rewrite Htr in *. cbn [negb fst] in *. rewrite create_case_ensure.
  destruct (create_case None _ _ _ _ _ _ _ db) as [[k|] db1]; cbn [fst snd].
  - destruct (api env) eqn:Hr; [done|..]; cbn [fst snd];
      repeat apply quiet_app; auto with quiet; by repeat constructor.
  - repeat apply quiet_app; auto with quiet; by repeat constructor.
Qed.

Lemma ban_refused_by_platform env ctx user why db :
  db_fault env = None ->
  permitted ctx ["ban_members"] ["ban_members"; "add_reactions"; "manage_messages"] ->
  ban_checks ctx user = None -> accepted env ctx -> api env <> Done ->
  quiet (ban env ctx user why db).1.2.
Proof.
  intros Hf Hp Hc Ha Hapi. unfold ban. rewrite check_permissions_permitted by done.
  unfold returns, ban_body. rewrite Hf, Hc.
  pose proof (quiet_prompt env ctx user "ban" why 30) as Hq.
  destruct (prompt_confirmed env ctx user "ban" why 30 Ha) as [tr Htr].
  rewrite Htr in *. cbn [negb fst] in *. rewrite create_case_ensure.
  destruct (create_case None _ _ _ _ _ _ _ db) as [[k|] db1]; cbn [fst snd].
  - destruct (api env) eqn:Hr; [done|..]; cbn [fst snd];
      repeat apply quiet_app; auto with quiet; by repeat constructor.
  - repeat apply quiet_app; auto with quiet; by repeat constructor.
Qed.

Lemma timeout_refused_by_platform env ctx member span seconds why db :
  db_fault env = None ->
  permitted ctx ["moderate_members"] ["moderate_members"] ->
  timeout_checks ctx member = None -> timeout_duration env span = inr seconds ->
  api env <> Done ->
  quiet (timeout env ctx member span why db).1.2.
Proof.
  intros Hf Hp Hc Hd Hapi. unfold timeout. rewrite check_permissions_permitted by done.
  unfold returns, timeout_body. rewrite Hf, Hc, Hd. rewrite create_case_ensure.
  destruct (create_case None _ _ _ _ _ _ _ db) as [[k|] db1]; cbn [fst snd].
  - destruct (api env) eqn:Hr; [done|..]; cbn [fst snd];
      repeat apply quiet_app; auto with quiet; by repeat constructor.
  - apply quiet_feedback.
Qed.

(** X12.  When the permissions and checks pass (and a kick or ban is
    confirmed) but the platform refuses the kick, ban or timeout itself, the
    case has already been written: exactly one new case row is left, although
    no member was acted on and nothing is sent to the mod-log channel. *)
Theorem action_refused_by_platform_still_leaves_case :
  forall (env : environment) (db : database),
    sequential_db db -> db_fault env = None -> api env <> Done ->
    (forall ctx member why,
        permitted ctx ["kick_members"] ["kick_members"; "add_reactions"; "manage_messages"] ->
        kick_checks ctx member = None -> accepted env ctx ->
        quiet (kick env ctx member why db).1.2 /\
        one_new_case db (kick env ctx member why db).2 (guild_id ctx) (id member)
          (author_id ctx) "kick" why (now env) None) /\
    (forall ctx user why,
        permitted ctx ["ban_members"] ["ban_members"; "add_reactions"; "manage_messages"] ->
        ban_checks ctx user = None -> accepted env ctx ->
        quiet (ban env ctx user why db).1.2 /\
        one_new_case db (ban env ctx user why db).2 (guild_id ctx) (id user)
          (author_id ctx) "ban" why (now env) None) /\
    (forall ctx member span seconds why,
        permitted ctx ["moderate_members"] ["moderate_members"] ->
        timeout_checks ctx member = None -> timeout_duration env span = inr seconds ->
        quiet (timeout env ctx member span why db).1.2 /\
        one_new_case db (timeout env ctx member span why db).2 (guild_id ctx) (id member)
          (author_id ctx) "timeout" why (now env) (Some (format_duration seconds))).
Proof.
  intros env db Hdb Hf Hapi.
  assert (Hone : forall clock g u m a r d,
             one_new_case db (create_case None clock g u m a r d db).2 g u m a r clock d).
  { intros. by destruct (create_case_one_new_case clock g u m a r d db Hdb) as (? & _ & ?). }
  split; [|split].
  - intros ctx member why Hp Hc Ha. split; [by apply kick_refused_by_platform|].
    rewrite kick_passes by done. apply Hone.
  - intros ctx user why Hp Hc Ha. split; [by apply ban_refused_by_platform|].
    rewrite ban_passes by done. apply Hone.
  - intros ctx member span seconds why Hp Hc Hd.
    split; [by eapply timeout_refused_by_platform|].
    erewrite timeout_passes by done. apply Hone.
Qed.

Lemma action_refused_by_platform_still_leaves_case_witness :
  quiet (kick (refusing "✅" None Forbidden) a_guild bob (Some "spam") no_tables).1.2 /\
  case_rows 1 (kick (refusing "✅" None Forbidden) a_guild bob (Some "spam") no_tables).2 =
    [(1, mk_case 8 7 "kick" (Some "spam") (1700000000 # 1) None)].
Proof.
  assert (Ha : accepted (refusing "✅" None Forbidden) a_guild).
  { split; [reflexivity|]. exists [], (mk_reaction 7 500 "✅"), [].
    split; [reflexivity|]. split; [by repeat split|constructor]. }
  destruct (action_refused_by_platform_still_leaves_case (refusing "✅" None Forbidden)
              no_tables no_tables_sequential eq_refl ltac:(discriminate)) as (Hkick & _).
  destruct (Hkick a_guild bob (Some "spam") ltac:(split; reflexivity) eq_refl Ha) as [Hq _].
  split; [exact Hq|]. by vm_compute.
Defined.







Lemma hierarchy_check_blocks ctx member verb member_position :
  top_role member = Some member_position ->
  (exists me_position, me_top_role ctx = Some me_position /\ me_position <= member_position) \/
  (exists author_position,
      author_top_role ctx = Some author_position /\ author_position <= member_position /\
      author_id ctx <> owner_id ctx) ->
  is_Some (hierarchy_check ctx member verb).
Proof.
  intros Hm H. unfold hierarchy_check. rewrite Hm.
  destruct (author_top_role ctx) as [ap|] eqn:Ha; [|by eexists].
  destruct (me_top_role ctx) as [bp|] eqn:Hb; [|by eexists].
  destruct H as [(me_position & [= <-] & Hle)|(author_position & [= <-] & Hle & Hne)].
  - destruct (_ && _); [by eexists|]. rewrite bool_decide_eq_true_2 by done. by eexists.
  - rewrite bool_decide_eq_true_2 by done. rewrite bool_decide_eq_false_2 by done.
    simpl. by eexists.
Qed.

(** X14.  Kick, ban and timeout never act on a member of the guild whose top
    role is at or above the top role of the bot, or at or above the top role
    of the author unless the author owns the guild: whatever the permissions,
    the answers of the platform and the confirmation, no member is kicked,
    banned or timed out, nothing is sent to the mod-log channel and no case
    row is written. *)
Theorem nobody_acts_on_an_equal_or_higher_role :
  forall (env : environment) (ctx : context) (member : target) (db : database)
         (member_position : Z),
    is_member member = true ->
    top_role member = Some member_position ->
    (exists me_position, me_top_role ctx = Some me_position /\ me_position <= member_position) \/
    (exists author_position,
        author_top_role ctx = Some author_position /\ author_position <= member_position /\
        author_id ctx <> owner_id ctx) ->
    (forall why, quiet (kick env ctx member why db).1.2 /\
                 forall g, case_rows g (kick env ctx member why db).2 = case_rows g db) /\
    (forall why, quiet (ban env ctx member why db).1.2 /\
                 forall g, case_rows g (ban env ctx member why db).2 = case_rows g db) /\
    (forall span why,
        quiet (timeout env ctx member span why db).1.2 /\
        forall g, case_rows g (timeout env ctx member span why db).2 = case_rows g db).
Proof.
  intros env ctx member db mp Hmem Hm H.
  assert (Hh : forall verb, is_Some (hierarchy_check ctx member verb))
    by (intros; by eapply hierarchy_check_blocks).
  assert (Hkick : is_Some (kick_checks ctx member)).
  { unfold kick_checks. rewrite Hmem. repeat case_match; try by eexists. apply Hh. }
  assert (Hban : is_Some (ban_checks ctx member)).
  { unfold ban_checks. rewrite Hmem. repeat case_match; try by eexists. apply Hh. }
  assert (Htimeout : is_Some (timeout_checks ctx member)).
  { unfold timeout_checks. rewrite Hmem. repeat case_match; try by eexists. apply Hh. }
  destruct Hkick as [tr1 Hkick], Hban as [tr2 Hban], Htimeout as [tr3 Htimeout].
  split; [|split].
  - intros why. unfold kick, check_permissions.
    destruct (missing _ (permissions ctx)); [|split; [constructor|done]].
    destruct (missing _ (bot_permissions ctx)); [|split; [constructor|done]].
    unfold returns, kick_body. rewrite Hkick. cbn [fst snd].
    split; [|intros; apply case_rows_ensure].
    by apply quiet_error_feedback, (kick_checks_feedback ctx member).
  - intros why. unfold ban, check_permissions.
    destruct (missing _ (permissions ctx)); [|split; [constructor|done]].
    destruct (missing _ (bot_permissions ctx)); [|split; [constructor|done]].
    unfold returns, ban_body. rewrite Hban. cbn [fst snd].
    split; [|intros; apply case_rows_ensure].
    by apply quiet_error_feedback, (ban_checks_feedback ctx member).
  - intros span why. unfold timeout, check_permissions.
    destruct (missing _ (permissions ctx)); [|split; [constructor|done]].
    destruct (missing _ (bot_permissions ctx)); [|split; [constructor|done]].
    unfold returns, timeout_body. rewrite Htimeout. cbn [fst snd].
    split; [|intros; apply case_rows_ensure].
    by apply quiet_error_feedback, (timeout_checks_feedback ctx member).
Qed.

Lemma nobody_acts_on_an_equal_or_higher_role_witness :
  (kick (reacting_with "✅" None) a_guild an_officer None no_tables).1 =
    (None, _send_feedback_embed "Permissions Error"
             "You can't kick someone with a higher or equal role." Color.red) /\
  quiet (kick (reacting_with "✅" None) a_guild an_officer None no_tables).1.2.
Proof.
  destruct (nobody_acts_on_an_equal_or_higher_role (reacting_with "✅" None) a_guild an_officer
              no_tables 10 eq_refl eq_refl) as [Hkick _].
  { right. exists 10. split; [reflexivity|]. split; [lia|discriminate]. }
  split; [reflexivity|]. apply (Hkick None).
Defined.

(** X15.  [send_mod_log] writes no case row and changes the setting of no
    other guild; it sends either nothing or the given embed, once, to the
    channel stored as the mod-log of the guild, and only when the database did
    not raise, the channel exists, is a text channel and lets the bot send
    messages and embed links. *)
Theorem mod_log_goes_only_to_the_configured_channel :
  forall (env : environment) (g : Z) (e : embed) (db : database),
    let out := send_mod_log env g e db in
    (forall g', case_rows g' out.2 = case_rows g' db) /\
    (forall g', g' <> g -> mod_log_channels out.2 !! g' = mod_log_channels db !! g') /\
    (out.1 = [] \/
     exists c ch,
       out.1 = [ChannelSend c (Rich e)] /\
       db_fault env = None /\
       mod_log_channels db !! g = Some (Some c) /\
       get_channel env c = Some ch /\
       is_text ch = true /\ send_messages ch = true /\ embed_links ch = true).
Proof.
  intros env g e db out.
  split; [intros; subst out; rewrite send_mod_log_snd; apply case_rows_ensure|].
  split.
  { intros g' Hne. subst out. rewrite send_mod_log_snd.
    destruct (db_fault env); [done|]. simpl.
    destruct (mod_log_channels db !! g); [done|]. by rewrite lookup_insert_ne. }
  subst out. unfold send_mod_log. destruct (db_fault env) eqn:Hf; [by left|].
  destruct (mod_log_channels (_ensure_guild_tables_exist None g db) !! g)
    as [[c|]|] eqn:Hc; [|by left..].
  assert (Hdb : mod_log_channels db !! g = Some (Some c)).
  { simpl in Hc. destruct (mod_log_channels db !! g) eqn:Hold; [congruence|].
    by rewrite lookup_insert_eq in Hc. }
  case_decide; [by left|].
  destruct (get_channel env c) as [ch|] eqn:Hch; [|by left].
  destruct (is_text ch && send_messages ch && embed_links ch) eqn:Hperm; [|by left].
  apply andb_true_iff in Hperm as [[? ?]%andb_true_iff ?].
  right. exists c, ch. done.
Qed.



Lemma mod_log_of_ensure fault g db g' :
  mod_log_of g' (_ensure_guild_tables_exist fault g db) = mod_log_of g' db.
Proof.
  destruct fault; [done|]. unfold mod_log_of. simpl.
  destruct (mod_log_channels db !! g) eqn:Hg; [done|].
  destruct (decide (g' = g)) as [->|Hne].
  - by rewrite lookup_insert_eq, Hg.
  - by rewrite lookup_insert_ne.
Qed.

(** X17.  When an administrator sets the mod-log channel to a channel in which
    the bot may send messages and embed links, and the database does not
    raise, the channel is stored for the guild; the settings of other guilds
    and all case rows are unchanged; [modlog] without a channel then shows
    this channel, and [send_mod_log] sends to it. *)
Theorem modlog_set_then_shown_and_used :
  forall (env : environment) (ctx : context) (prefix : string) (channel_id : Z)
         (bot_perms : channel) (db : database),
    db_fault env = None ->
    permitted ctx ["administrator"] [] ->
    send_messages bot_perms = true -> embed_links bot_perms = true ->
    let db' := (modlog env ctx prefix (Some (channel_id, bot_perms)) db).2 in
    mod_log_of (guild_id ctx) db' = Some channel_id /\
    (forall g, g <> guild_id ctx -> mod_log_of g db' = mod_log_of g db) /\
    (forall g, case_rows g db' = case_rows g db) /\
    (is_Some (get_channel env channel_id) ->
     modlog env ctx prefix None db' =
       ((None, _send_feedback_embed "Modlog Channel"
                 ("Modlog channel for this guild: " +:+ channel_mention channel_id +:+ ".")
                 Color.blue), db')) /\
    (forall e, channel_id <> 0 -> get_channel env channel_id = Some writable ->
               send_mod_log env (guild_id ctx) e db' = ([ChannelSend channel_id (Rich e)], db')).
Proof.
  intros env ctx prefix cid perms db Hf Hp Hsend Hembed db'.
  assert (Hdb' : db' = {| cases := cases (_ensure_guild_tables_exist None (guild_id ctx) db);
                          mod_log_channels :=
                            <[guild_id ctx := Some cid]>
                              (mod_log_channels
                                 (_ensure_guild_tables_exist None (guild_id ctx) db)) |}).
  { subst db'. unfold modlog. rewrite check_permissions_permitted by done.
    unfold modlog_body. by rewrite Hf, Hsend, Hembed. }
  assert (Hpresent : is_Some (cases db' !! guild_id ctx) /\
                     is_Some (mod_log_channels db' !! guild_id ctx)).
  { rewrite Hdb'. cbn [cases mod_log_channels]. split; [apply ensure_is_present|].
    rewrite lookup_insert_eq. by eexists. }
  assert (Hlook : mod_log_channels db' !! guild_id ctx = Some (Some cid)).
  { rewrite Hdb'. cbn [mod_log_channels]. by rewrite lookup_insert_eq. }
  split; [by unfold mod_log_of; rewrite Hlook|].
  split; [|split; [|split]].
  - intros g Hne. rewrite <- (mod_log_of_ensure None (guild_id ctx) db g).
    rewrite Hdb'. unfold mod_log_of. cbn [mod_log_channels]. by rewrite lookup_insert_ne.
  - intros g. rewrite <- (case_rows_ensure None (guild_id ctx) db g). by rewrite Hdb'.
  - intros [ch Hch]. unfold modlog. rewrite check_permissions_permitted by done.
    unfold modlog_body. rewrite Hf.
    rewrite ensure_present by apply Hpresent. by rewrite Hlook, Hch.
  - intros e Hne Hch. unfold send_mod_log. rewrite Hf.
    rewrite ensure_present by apply Hpresent. rewrite Hlook.
    rewrite decide_False by done. by rewrite Hch.
Qed.

Lemma modlog_set_then_shown_and_used_witness :
  mod_log_of 1 (modlog (with_channel 30) an_owner "i." (Some (30, writable)) no_tables).2 =
    Some 30 /\
  (modlog (with_channel 30) an_owner "i." None
     (modlog (with_channel 30) an_owner "i." (Some (30, writable)) no_tables).2).1 =
    (None, _send_feedback_embed "Modlog Channel" "Modlog channel for this guild: <#30>."
             Color.blue).
Proof.
  destruct (modlog_set_then_shown_and_used (with_channel 30) an_owner "i." 30 writable no_tables
              eq_refl ltac:(split; reflexivity) eq_refl eq_refl) as (Hset & _ & _ & Hshow & _).
  split; [exact Hset|]. rewrite Hshow; [reflexivity|]. by eexists.
Defined.

(** X18.  [modlog] never changes a case row, and it changes the stored mod-log
    channel only when an administrator names a channel in which the bot may
    send messages and embed links and the database does not raise; when the
    bot lacks one of the two permissions in the channel an administrator names
    (and the database does not raise), the answer is the permissions error. *)
Theorem modlog_unchanged_unless_set_by_an_administrator :
  forall (env : environment) (ctx : context) (prefix : string)
         (channel : option (Z * channel)) (db : database),
    let out := modlog env ctx prefix channel db in
    (forall g, case_rows g out.2 = case_rows g db) /\
    ((forall g, mod_log_of g out.2 = mod_log_of g db) \/
     exists channel_id bot_perms,
       channel = Some (channel_id, bot_perms) /\
       permitted ctx ["administrator"] [] /\ db_fault env = None /\
       send_messages bot_perms = true /\ embed_links bot_perms = true /\
       mod_log_of (guild_id ctx) out.2 = Some channel_id) /\
    (forall channel_id bot_perms,
        channel = Some (channel_id, bot_perms) ->
        permitted ctx ["administrator"] [] -> db_fault env = None ->
        send_messages bot_perms = false \/ embed_links bot_perms = false ->
        out.1 = (None, _send_feedback_embed "Permissions Error"
                         ("I need 'Send Messages' & 'Embed Links' permissions in " +:+
                          channel_mention channel_id +:+ " to set it as the modlog.")
                         Color.red)).
Proof.
  intros env ctx prefix channel db out. subst out. unfold modlog, check_permissions, permitted.
  destruct (missing ["administrator"] (permissions ctx)) eqn:Hu.
  2:{ split; [done|]. split; [by left|]. by intros ? ? _ [? _]. }
  change (missing [] (bot_permissions ctx)) with (@nil string). cbv iota.
  unfold modlog_body.
  destruct channel as [[cid perms]|].
  - destruct (send_messages perms) eqn:Hs, (embed_links perms) eqn:He; cbn [negb orb].
    + destruct (db_fault env) eqn:Hf; cbn [returns fst snd].
      * split; [intros; apply case_rows_ensure|].
        split; [left; intros; apply mod_log_of_ensure|]. intros ? ? [= <- <-] _ _ [?|?]; congruence.
      * split; [intros g; by rewrite <- (case_rows_ensure None (guild_id ctx) db g)|].
        split; [|intros ? ? [= <- <-] _ _ [?|?]; congruence].
        right. exists cid, perms. do 5 (split; [done|]).
        unfold mod_log_of. cbn [mod_log_channels]. by rewrite lookup_insert_eq.
    + cbn [returns fst snd]. split; [intros; apply case_rows_ensure|].
      split; [left; intros; apply mod_log_of_ensure|]. by intros ? ? [= <- <-] _ _ _.
    + cbn [returns fst snd]. split; [intros; apply case_rows_ensure|].
      split; [left; intros; apply mod_log_of_ensure|]. by intros ? ? [= <- <-] _ _ _.
    + cbn [returns fst snd]. split; [intros; apply case_rows_ensure|].
      split; [left; intros; apply mod_log_of_ensure|]. by intros ? ? [= <- <-] _ _ _.
  - destruct (db_fault env) eqn:Hf.
    { split; [intros; apply case_rows_ensure|].
      split; [left; intros; apply mod_log_of_ensure|]. done. }
    destruct (mod_log_channels _ !! guild_id ctx) as [[c|]|]; [destruct (get_channel env c)|..];
      cbn [returns fst snd];
      (split; [intros; apply (case_rows_ensure None)|];
       split; [left; intros; apply (mod_log_of_ensure None)|done]).
Qed.

Lemma modlog_unchanged_unless_set_by_an_administrator_witness :
  (modlog (with_channel 30) an_owner "i." (Some (30, read_only)) no_tables).1 =
    (None, _send_feedback_embed "Permissions Error"
             "I need 'Send Messages' & 'Embed Links' permissions in <#30> to set it as the modlog."
             Color.red) /\
  mod_log_of 1 (modlog (with_channel 30) an_owner "i." (Some (30, read_only)) no_tables).2 = None.
Proof.
  destruct (modlog_unchanged_unless_set_by_an_administrator (with_channel 30) an_owner "i."
              (Some (30, read_only)) no_tables) as (_ & _ & H).
  split; [|reflexivity].
  apply (H 30 read_only); [reflexivity|split; reflexivity|reflexivity|by left].
Defined.

Lemma get_user_cases_history g u db :
  (get_user_cases None g u db).1 =
  merge_sort case_id_desc (filter (fun row : Z * case => user_id row.2 = u) (case_rows g db)) /\
  (get_user_cases None g u db).2 = _ensure_guild_tables_exist None g db.
Proof.
  unfold get_user_cases. rewrite <- (case_rows_ensure None g db g). unfold case_rows.
  destruct (ensure_is_present g db) as [[t Ht] _]. by rewrite Ht.
Qed.

Lemma history_fields look l e :
  fields (foldl (fun e case_item =>
                   let '(n, v) := history_field look case_item in add_field n v e) e l) =
  fields e ++ map (history_field look) l.
Proof.
  revert e. induction l as [|x l IH]; intros e; simpl; [by rewrite app_nil_r|].
  rewrite IH. destruct (history_field look x) as [n v]. simpl. by rewrite <- app_assoc.
Qed.

Lemma history_description look l e :
  description (foldl (fun e case_item =>
                        let '(n, v) := history_field look case_item in add_field n v e) e l) =
  description e.
Proof.
  revert e. induction l as [|x l IH]; intros e; simpl; [done|].
  rewrite IH. by destruct (history_field look x).
Qed.

(** X19.  [case] with a user writes no case row; when the user has no case in
    the guild it answers with the [Not Found] embed; otherwise it sends one
    embed whose description gives the number of cases, with one field for each
    of the five most recent cases (all of them when there are at most five),
    and whose footer says, when there are more than five, that five of them
    are shown. *)
Theorem history_shows_the_five_most_recent_cases :
  forall (env : environment) (look : registry) (ctx : context) (user : target) (db : database),
    db_fault env = None ->
    permitted ctx ["moderate_members"] [] ->
    let all := (get_user_cases None (guild_id ctx) (id user) db).1 in
    let out := case_command env look ctx (User user) db in
    (forall g, case_rows g out.2 = case_rows g db) /\
    (all = [] ->
     out.1 = (None, _send_feedback_embed "Not Found"
                      ("No cases found for " +:+ mention (id user) +:+ " in this guild.")
                      Color.blue)) /\
    (all <> [] ->
     exists e,
       out.1 = (None, [Send (Rich e)]) /\
       fields e = map (history_field look) (take 5 all) /\
       description e =
         pretty (Z.of_nat (length all)) +:+ " case(s) for " +:+ mention (id user) +:+ "." /\
       ((length all <= 5)%nat -> footer e = Some ("User ID: " +:+ pretty (id user))) /\
       ((5 < length all)%nat ->
        footer e = Some ("User ID: " +:+ pretty (id user) +:+ " | Showing 5 of " +:+
                         pretty (Z.of_nat (length all)) +:+ " most recent cases."))).
Proof.
  intros env look ctx user db Hf Hp all out.
  destruct (get_user_cases_history (guild_id ctx) (id user) db) as [Hall Hdb].
  assert (Hout : out = returns (match all with
                                | [] => _send_feedback_embed "Not Found"
                                          ("No cases found for " +:+ mention (id user) +:+
                                           " in this guild.") Color.blue
                                | _ => [Send (Rich (history_embed look user all))]
                                end,
                                _ensure_guild_tables_exist None (guild_id ctx) db)).
  { subst out all. unfold case_command. rewrite check_permissions_permitted by done.
    unfold case_body. rewrite Hf.
    assert (Hagain : get_user_cases None (guild_id ctx) (id user)
                       (_ensure_guild_tables_exist None (guild_id ctx) db) =
                     get_user_cases None (guild_id ctx) (id user) db).
    { unfold get_user_cases. by rewrite ensure_idemp. }
    rewrite Hagain. destruct (get_user_cases None _ _ db) as [l db1]. cbn [fst snd] in *.
    subst db1. by destruct l. }
  clearbody all out. subst out. cbn [returns fst snd].
  split; [intros; apply case_rows_ensure|]. split; [by intros ->|].
  intros Hne. exists (history_embed look user all).
  split; [by destruct all|].
  unfold history_embed. cbn [fields description footer set_footer].
  rewrite history_fields. cbn [fields Embed app].
  assert (Hcount : Z.to_nat (Z.min (Z.of_nat (length all)) 5) = Nat.min (length all) 5) by lia.
  split.
  { rewrite Hcount.
    destruct (Nat.min_spec (length all) 5) as [[Hlt ->]|[Hle ->]]; [|done].
    by rewrite !take_ge by lia. }
  split; [by rewrite history_description|]. split.
  - intros Hle. rewrite decide_False by lia. by rewrite append_empty_r.
  - intros Hlt. rewrite decide_True by lia.
    replace (Z.min (Z.of_nat (length all)) 5) with 5 by lia. reflexivity.
Qed.

Lemma history_shows_the_five_most_recent_cases_witness :
  exists e,
    (case_command (reacting_with "✅" None) nobody_known a_guild (User bob) six_warnings).1 =
      (None, [Send (Rich e)]) /\
    map fst (fields e) = ["#6 - Warn"; "#5 - Warn"; "#4 - Warn"; "#3 - Warn"; "#2 - Warn"] /\
    footer e = Some "User ID: 8 | Showing 5 of 6 most recent cases.".
Proof.
  destruct (history_shows_the_five_most_recent_cases (reacting_with "✅" None) nobody_known
              a_guild bob six_warnings eq_refl ltac:(split; reflexivity)) as (_ & _ & H).
  destruct H as (e & He & Hfields & _ & _ & Hfooter); [by vm_compute|].
  exists e. split; [exact He|]. split.
  - rewrite Hfields. by vm_compute.
  - rewrite Hfooter; [reflexivity|vm_compute; lia].
Defined.

Lemma get_case_created clock g u m a r d db :
  sequential_db db ->
  exists k, (create_case None clock g u m a r d db).1 = Some k /\
            get_case None g k (create_case None clock g u m a r d db).2 =
              (Some (k, mk_case u m a r clock d), (create_case None clock g u m a r d db).2).
Proof.
  intros Hdb.
  assert (Ht : Sqlite.sequential (default Sqlite.empty (cases db !! g))).
  { destruct (cases db !! g) eqn:Hg; simpl; [by eapply Hdb|apply sequential_empty]. }
  destruct (insert_select (mk_case u m a r clock d) _ Ht) as (_ & _ & Hsel).
  pose proof (create_case_is_present clock g u m a r d db) as Hpresent.
  rewrite create_case_unfold in *. cbn [fst snd] in *.
  eexists. split; [done|]. unfold get_case.
  rewrite ensure_present by apply Hpresent. cbn [cases].
  by rewrite lookup_insert_eq, Hsel.
Qed.

Lemma get_case_missing g n db :
  (forall row, row ∈ case_rows g db -> row.1 <> n) ->
  get_case None g n db = (None, _ensure_guild_tables_exist None g db).
Proof.
  intros Hno. unfold get_case.
  pose proof (case_rows_ensure None g db g) as Hrows. unfold case_rows in Hrows at 1.
  destruct (ensure_is_present g db) as [[t Ht] _]. rewrite Ht in *.
  f_equal. unfold Sqlite.select_by_rowid.
  replace (list_find _ (Sqlite.rows t)) with (@None (nat * (Z * case))); [done|].
  symmetry. apply list_find_None, Forall_forall. intros row Hrow. apply Hno.
  by rewrite <- Hrows.
Qed.

(** X20.  A case that [create_case] has just recorded is shown by [case] with
    its number: one embed, built from the recorded row, with the case number
    and the action in its title and the colour of the action.  A number that
    no row of the guild carries is answered with the [Not Found] embed, and no
    case row is written. *)
Theorem case_lookup_shows_the_recorded_case :
  forall (env : environment) (look : registry) (ctx : context) (db : database),
    db_fault env = None ->
    permitted ctx ["moderate_members"] [] ->
    (sequential_db db ->
     forall clock u m a r d,
       let created := create_case None clock (guild_id ctx) u m a r d db in
       exists k,
         created.1 = Some k /\
         case_command env look ctx (CaseId k) created.2 =
           ((None, [Send (Rich (case_embed look ctx (k, mk_case u m a r clock d)))]),
            created.2) /\
         title (case_embed look ctx (k, mk_case u m a r clock d)) =
           "Case #" +:+ pretty k +:+ " | " +:+ Str.title a /\
         color (case_embed look ctx (k, mk_case u m a r clock d)) = get_action_color a) /\
    (forall n,
        (forall row, row ∈ case_rows (guild_id ctx) db -> row.1 <> n) ->
        (case_command env look ctx (CaseId n) db).1 =
          (None, _send_feedback_embed "Not Found"
                   ("Case #" +:+ pretty n +:+ " not found in this guild.") Color.red) /\
        forall g, case_rows g (case_command env look ctx (CaseId n) db).2 = case_rows g db).
Proof.
  intros env look ctx db Hf Hp. split.
  - intros Hdb clock u m a r d created.
    destruct (get_case_created clock (guild_id ctx) u m a r d db Hdb) as (k & Hk & Hget).
    pose proof (create_case_is_present clock (guild_id ctx) u m a r d db) as Hpresent.
    fold created in Hk, Hget, Hpresent. clearbody created.
    exists k. split; [done|]. split.
    + unfold case_command. rewrite check_permissions_permitted by done.
      unfold case_body. rewrite Hf. rewrite ensure_present by apply Hpresent.
      by rewrite Hget.
    + unfold case_embed. cbn [snd fst action reason duration].
      by destruct (Str.truthy_opt r), (Str.truthy_opt d).
  - intros n Hno. unfold case_command. rewrite check_permissions_permitted by done.
    unfold case_body. rewrite Hf.
    rewrite get_case_missing.
    2:{ intros row. rewrite case_rows_ensure. apply Hno. }
    cbn [returns fst snd]. split; [done|]. intros g.
    by rewrite !case_rows_ensure.
Qed.

Lemma case_lookup_shows_the_recorded_case_witness :
  (case_command (reacting_with "✅" None) nobody_known a_guild (CaseId 7) six_warnings).1 =
    (None, _send_feedback_embed "Not Found" "Case #7 not found in this guild." Color.red) /\
  exists e,
    (case_command (reacting_with "✅" None) nobody_known a_guild (CaseId 7)
       (create_case None (1700000000 # 1) 1 8 7 "kick" None None six_warnings).2).1 =
      (None, [Send (Rich e)]) /\
    title e = "Case #7 | Kick".
Proof.
  destruct (case_lookup_shows_the_recorded_case (reacting_with "✅" None) nobody_known a_guild
              six_warnings eq_refl ltac:(split; reflexivity)) as [Hfound Hmissing].
  split.
  - apply Hmissing. intros row Hrow. vm_compute in Hrow.
    repeat (apply elem_of_cons in Hrow as [->|Hrow]; [simpl; lia|]).
    by apply elem_of_nil in Hrow.
  - eexists. by vm_compute.
Defined.

End ModerationRecordProps.

(** ** cogs/music.py: the commands *)

Module MusicCommandProps.
Import Music MusicProps.

Lemma get_state_in_range g c : volume_in_range c -> 0 <= volume (get_state g c) <= 150.
Proof.
  intros Hc. unfold get_state. destruct (guild_states c !! g) as [st|] eqn:Hg; simpl.
  - by eapply Hc.
  - lia.
Qed.

Lemma set_state_in_range g st c :
  volume_in_range c -> 0 <= volume st <= 150 -> volume_in_range (set_state g st c).
Proof.
  intros Hc Hst g' st'. unfold set_state. simpl.
  destruct (decide (g' = g)) as [->|Hne].
  - rewrite lookup_insert_eq. by intros [= <-].
  - rewrite lookup_insert_ne by done. apply Hc.
Qed.

Lemma forget_in_range g c : volume_in_range c -> volume_in_range (forget g c).
Proof.
  intros Hc g' st'. unfold forget. simpl. intros [_ H]%lookup_delete_Some. by eapply Hc.
Qed.

Lemma play_next_in_range env g c : volume_in_range c -> volume_in_range (play_next env g c).2.
Proof.
  intros Hc. pose proof (get_state_in_range g c Hc) as Hg. unfold play_next.
  repeat case_match; cbn [snd]; apply set_state_in_range; done.
Qed.

Lemma play_in_range env lib ctx g query c :
  volume_in_range c -> volume_in_range (play env lib ctx g query c).2.
Proof.
  intros Hc. pose proof (get_state_in_range g c Hc) as Hg. unfold play.
  destruct (voice_client ctx) as [p|]; [|destruct (author_voice ctx) as [a|]];
    cbn [snd]; [| |by apply set_state_in_range].
  - destruct (fetch_tracks env query) as [| |[|t ts]|name ts]; cbn [snd];
      try (apply set_state_in_range; done).
    + destruct (current p); cbn [snd]; [by apply set_state_in_range|].
      pose proof (play_next_in_range env g
                    (set_state g (with_queue (queue (get_state g c) ++ [t])
                                    (Some (channel ctx)) (get_state g c)) c)) as Hn.
      destruct (play_next env g _) as [[err tr] c']. cbn [snd] in *.
      apply Hn. by apply set_state_in_range.
    + destruct (current p); cbn [snd]; [by apply set_state_in_range|].
      pose proof (play_next_in_range env g
                    (set_state g (with_queue (queue (get_state g c) ++ ts)
                                    (Some (channel ctx)) (get_state g c)) c)) as Hn.
      destruct (play_next env g _) as [[err tr] c']. cbn [snd] in *.
      apply Hn. by apply set_state_in_range.
  - set (c1 := {| guild_states := guild_states c; voice_clients := voice_clients c ∪ {[g]} |}).
    assert (Hc1 : volume_in_range c1) by done.
    destruct (fetch_tracks env query) as [| |[|t ts]|name ts]; cbn [snd];
      try (apply set_state_in_range; done).
    + pose proof (play_next_in_range env g
                    (set_state g (with_queue (queue (get_state g c) ++ [t])
                                    (Some (channel ctx)) (get_state g c)) c1)) as Hn.
      destruct (play_next env g _) as [[err tr] c']. cbn [snd] in *.
      apply Hn. by apply set_state_in_range.
    + pose proof (play_next_in_range env g
                    (set_state g (with_queue (queue (get_state g c) ++ ts)
                                    (Some (channel ctx)) (get_state g c)) c1)) as Hn.
      destruct (play_next env g _) as [[err tr] c']. cbn [snd] in *.
      apply Hn. by apply set_state_in_range.
Qed.

Lemma invoke_in_range env lib ctx r c :
  volume_in_range c -> volume_in_range (invoke env lib ctx r c).2.
Proof.
  intros Hc. pose proof (fun g => get_state_in_range g c Hc) as Hg. unfold invoke.
  destruct (cog_check ctx); [done|]. destruct (guild ctx) as [g|]; [|done].
  destruct (cog_before_invoke _ ctx); [done|].
  destruct r as [query| | |level|].
  - by apply play_in_range.
  - unfold disconnect. destruct (voice_client ctx); [|done]. by apply forget_in_range.
  - unfold stop. destruct (negb _); [done|]. cbn [snd].
    destruct (guild_states c !! g) as [st|] eqn:Hst; [|done].
    apply set_state_in_range; [done|]. simpl. by eapply Hc.
  - unfold volume_command. destruct (bool_decide _) eqn:Hl; [|done]. cbn [negb].
    destruct (voice_client ctx); [|done]. cbn [snd].
    apply bool_decide_eq_true in Hl. by apply set_state_in_range.
  - unfold autoplay_command. cbn [snd]. apply set_state_in_range; [done|]. apply Hg.
Qed.

Lemma step_in_range h c : volume_in_range c -> volume_in_range (step h c).
Proof.
  intros Hc. destruct h as [env lib ctx r|env replaced g|g t|t]; simpl.
  - by apply invoke_in_range.
  - unfold on_track_end. destruct replaced; [done|]. by apply play_next_in_range.
  - unfold on_track_start. apply set_state_in_range; [done|]. by apply get_state_in_range.
  - unfold run_task, disconnect_after_timeout. cbn [snd]. by apply forget_in_range.
Qed.

(** X21.  If the volume of every guild is between 0 and 150, it stays so after
    any sequence of play, disconnect, stop, volume and autoplay commands (with
    any arguments), ends and starts of tracks and disconnect tasks; a guild
    without a state reads the default volume, which is in this range. *)
Theorem volume_stays_between_0_and_150 :
  forall (hs : list happening) (c : cog),
    volume_in_range c ->
    volume_in_range (steps hs c) /\
    forall g, 0 <= volume (get_state g (steps hs c)) <= 150.
Proof.
  intros hs c Hc.
  assert (H : volume_in_range (steps hs c)).
  { revert c Hc. induction hs as [|h hs IH]; intros c Hc; [done|].
    apply IH. by apply step_in_range. }
  split; [done|]. intros g. by apply get_state_in_range.
Qed.

Lemma volume_stays_between_0_and_150_witness :
  volume (get_state 1
            (steps [Invoked no_search plain (listening None) (SetVolumeTo 200);
                    Invoked no_search plain (listening None) (SetVolumeTo 80)] silence)) = 80 /\
  volume_in_range
    (steps [Invoked no_search plain (listening None) (SetVolumeTo 200);
            Invoked no_search plain (listening None) (SetVolumeTo 80)] silence).
Proof.
  assert (H : volume_in_range silence).
  { intros g st Hg. simpl in Hg. by rewrite lookup_empty in Hg. }
  destruct (volume_stays_between_0_and_150
              [Invoked no_search plain (listening None) (SetVolumeTo 200);
               Invoked no_search plain (listening None) (SetVolumeTo 80)] silence H)
    as [Hr _].
  split; [by vm_compute|exact Hr].
Defined.

(** X22.  [play] with the bot connected adds what it found behind the tracks
    that are waiting: while a track is playing, the first track of a search
    result, or every track of a playlist, is appended to the queue and nothing
    is started; when the search raises or finds nothing, the queue is
    unchanged and nothing is started; when nothing is playing, the head of the
    extended queue is started and the rest keeps waiting. *)
Theorem play_queues_behind_what_is_waiting :
  forall (env : environment) (lib : library) (ctx : context) (g : Z) (query : string)
         (c : cog) (p : player),
    voice_client ctx = Some p ->
    let out := play env lib ctx g query c in
    let before := queue (get_state g c) in
    let after := queue (get_state g out.2) in
    (forall now,
        current p = Some now ->
        out.1.1 = None /\
        (forall t, Platform (Play g t) ∉ out.1.2) /\
        (forall t rest, fetch_tracks env query = Tracks (t :: rest) -> after = before ++ [t]) /\
        (forall playlist_name ts,
            fetch_tracks env query = Playlist playlist_name ts -> after = before ++ ts)) /\
    (fetch_tracks env query = FetchRaised \/ fetch_tracks env query = NoTracks \/
     fetch_tracks env query = Tracks [] ->
     out.1.1 = None /\ after = before /\ (forall t, Platform (Play g t) ∉ out.1.2)) /\
    (forall t rest,
        current p = None -> g ∈ voice_clients c ->
        fetch_tracks env query = Tracks (t :: rest) ->
        exists first waiting,
          before ++ [t] = first :: waiting /\
          out.1.1 = None /\
          last out.1.2 = Some (Platform (Play g first)) /\
          after = waiting /\
          current_track (get_state g out.2) = Some first).
Proof.
  intros env lib ctx g query c p Hp out before after.
  subst out before after. unfold play. rewrite Hp.
  assert (Hno : forall (a b : event) t, a <> Play g t -> b <> Play g t ->
                                        Platform (Play g t) ∉ [] ++ [Platform a; Platform b]).
  { intros a b t Ha Hb Hin. apply elem_of_cons in Hin as [[= ?]|Hin]; [done|].
    apply list_elem_of_singleton in Hin as [= ?]. done. }
  split; [|split].
  - intros now Hnow. rewrite Hnow.
    destruct (fetch_tracks env query) as [| |[|t ts]|name ts]; cbn [fst snd];
      rewrite ?get_state_set_state; cbn [queue with_queue];
      (split; [done|]); (split; [intros; by apply Hno|]); split; congruence.
  - intros [Hf|[Hf|Hf]]; rewrite Hf; cbn [fst snd]; rewrite get_state_set_state;
      (split; [done|]); (split; [done|]); intros; by apply Hno.
  - intros t rest Hidle Hg Hf. rewrite Hidle, Hf.
    set (q := queue (get_state g c) ++ [t]).
    set (c1 := set_state g (with_queue q (Some (channel ctx)) (get_state g c)) c).
    assert (Hq : exists first waiting, q = first :: waiting).
    { subst q. destruct (queue (get_state g c)); by do 2 eexists. }
    destruct Hq as (first & waiting & Hq). exists first, waiting. split; [done|].
    assert (Hq1 : queue (get_state g c1) = first :: waiting).
    { subst c1. by rewrite get_state_set_state. }
    destruct (play_next_head env g c1 first waiting Hg Hq1) as (Htr & Hrest & Hcur & _).
    destruct (play_next env g c1) as [[err tr] c2]. cbn [fst snd] in *.
    injection Htr as -> ->. split; [done|]. split; [reflexivity|done].
Qed.

Lemma play_queues_behind_what_is_waiting_witness :
  queue (get_state 1 (play (finding (Tracks [song "b"; song "c"])) plain
                        (listening (Some (song "a"))) 1 "b" playing).2) =
    [song "a"; song "b"; song "b"] /\
  last (play (finding (Tracks [song "b"])) plain (listening None) 1 "b" playing).1.2 =
    Some (Platform (Play 1 (song "a"))).
Proof.
  destruct (play_queues_behind_what_is_waiting (finding (Tracks [song "b"; song "c"])) plain
              (listening (Some (song "a"))) 1 "b" playing (mk_player 40 (Some (song "a")))
              eq_refl) as (Hbusy & _ & _).
  destruct (Hbusy (song "a") eq_refl) as (_ & _ & Hone & _).
  destruct (play_queues_behind_what_is_waiting (finding (Tracks [song "b"])) plain
              (listening None) 1 "b" playing (mk_player 40 None) eq_refl)
    as (_ & _ & Hidle).
  split.
  - rewrite (Hone (song "b") [song "c"] eq_refl). reflexivity.
  - destruct (Hidle (song "b") [] eq_refl) as (first & waiting & Hq & _ & Hlast & _).
    + unfold playing. cbn [voice_clients]. by apply elem_of_singleton.
    + reflexivity.
    + rewrite Hlast. injection Hq as <- _. reflexivity.
Defined.

(** X23.  [stop] while a track is playing or paused empties the queue of the
    guild, forgets the current track and the disconnect task, and keeps the
    volume, the autoplay setting and the states of the other guilds; the end
    of the track that follows then finds nothing to play and schedules the
    disconnect after 30 seconds.  When nothing is playing, [stop] only says
    so. *)
Theorem stop_empties_the_queue :
  forall (ctx : context) (g : Z) (c : cog),
    (playing_now ctx = true ->
     let c' := (stop ctx g c).2 in
     queue (get_state g c') = [] /\
     current_track (get_state g c') = None /\
     disconnect_task (get_state g c') = None /\
     volume (get_state g c') = volume (get_state g c) /\
     autoplay (get_state g c') = autoplay (get_state g c) /\
     (forall g', g' <> g -> get_state g' c' = get_state g' c) /\
     (forall env,
         g ∈ voice_clients c -> autoplay (get_state g c) = false ->
         (on_track_end env false g c').1 = (None, []) /\
         disconnect_task (get_state g (on_track_end env false g c').2) =
           Some (mk_task g 30))) /\
    (playing_now ctx = false ->
     stop ctx g c = ((None, [Platform (Send (Text "There is nothing to stop."))]), c)).
Proof.
  intros ctx g c. split.
  - intros Hp c'.
    assert (Hc' : c' = match guild_states c !! g with
                       | Some state =>
                           set_state g {| queue := []; volume := volume state;
                                          autoplay := autoplay state; disconnect_task := None;
                                          bound_channel := bound_channel state;
                                          current_track := None |} c
                       | None => c
                       end).
    { subst c'. unfold stop. by rewrite Hp. }
    assert (Hstate : queue (get_state g c') = [] /\
                     current_track (get_state g c') = None /\
                     disconnect_task (get_state g c') = None /\
                     volume (get_state g c') = volume (get_state g c) /\
                     autoplay (get_state g c') = autoplay (get_state g c) /\
                     voice_clients c' = voice_clients c).
    { destruct (guild_states c !! g) as [st|] eqn:Hst.
      - assert (Hgs : get_state g c = st) by (unfold get_state; by rewrite Hst).
        by rewrite Hc', !get_state_set_state, Hgs.
      - assert (Hgs : get_state g c = new_state) by (unfold get_state; by rewrite Hst).
        by rewrite Hc', Hgs. }
    destruct Hstate as (Hq & Hcur & Htask & Hvol & Hauto & Hvc).
    do 5 (split; [done|]). split.
    + intros g' Hne. rewrite Hc'. destruct (guild_states c !! g); [|done].
      unfold get_state, set_state. simpl. by rewrite lookup_insert_ne.
    + intros env Hg Hoff. unfold on_track_end.
      rewrite <- Hvc in Hg. rewrite <- Hauto in Hoff.
      destruct (play_next_empty env g c' Hg Hq) as [_ H].
      destruct (H Hoff) as (Htr & Hsched & _). done.
  - intros Hp. unfold stop. by rewrite Hp.
Qed.

Lemma stop_empties_the_queue_witness :
  queue (get_state 1 (stop (listening (Some (song "z"))) 1 playing).2) = [] /\
  disconnect_task
    (get_state 1 (on_track_end no_search false 1
                    (stop (listening (Some (song "z"))) 1 playing).2).2) =
    Some (mk_task 1 30).
Proof.
  destruct (stop_empties_the_queue (listening (Some (song "z"))) 1 playing) as [H _].
  destruct (H eq_refl) as (Hq & _ & _ & _ & _ & _ & Hend).
  split; [exact Hq|].
  destruct (Hend no_search) as [_ Hs]; [|reflexivity|exact Hs].
  unfold playing. cbn [voice_clients]. by apply elem_of_singleton.
Defined.

(** X24.  A play, disconnect, stop, volume or autoplay command used in a
    direct message, by a user who is in no voice channel, or by a user in
    another voice channel than the bot, fails before its body runs and leaves
    the cog unchanged; the handler of the cog answers an error of its commands
    with one red embed that carries the text of the error, and the global
    handler adds nothing. *)
Theorem music_errors_are_answered_by_the_cog_alone :
  forall (env : environment) (lib : library) (ctx : context) (r : request) (c : cog),
    (guild ctx = None ->
     invoke env lib ctx r c =
       ((Some (NoPrivateMessage, "Music commands cannot be used in DMs."), []), c)) /\
    (is_Some (guild ctx) -> author_voice ctx = None ->
     invoke env lib ctx r c =
       ((Some (CommandError "You must be in a voice channel to use this command.",
               "You must be in a voice channel to use this command."), []), c)) /\
    (forall p voice_channel,
        is_Some (guild ctx) -> author_voice ctx = Some voice_channel ->
        voice_client ctx = Some p -> player_channel p <> voice_channel ->
        invoke env lib ctx r c =
          ((Some (CommandError "You must be in the same voice channel as the bot.",
                  "You must be in the same voice channel as the bot."), []), c)) /\
    (forall eenv ectx command error,
        ErrorHandler.ctx_command ectx = Some command ->
        ErrorHandler.cog_command_error command = Some true ->
        dispatch_error eenv ectx error =
          [Send (Rich (Embed "❌ An Error Occurred" error.2 Color.red))]).
Proof.
  intros env lib ctx r c. split; [|split; [|split]].
  - intros Hg. unfold invoke, cog_check. by rewrite Hg.
  - intros [g Hg] Hv. unfold invoke, cog_check, cog_before_invoke. rewrite Hg, Hv.
    by destruct r.
  - intros p a [g Hg] Hv Hp Hne. unfold invoke, cog_check, cog_before_invoke.
    rewrite Hg, Hv, Hp.
    destruct r; simpl; by rewrite decide_True.
  - intros eenv ectx command error Hc Hcog. unfold dispatch_error, cog_command_error.
    unfold ErrorHandler.on_command_error. rewrite Hc, Hcog.
    destruct (ErrorHandler.on_error command); by rewrite app_nil_r.
Qed.

Lemma music_errors_are_answered_by_the_cog_alone_witness :
  invoke no_search plain in_dm (PlayQuery "a") silence =
    ((Some (NoPrivateMessage, "Music commands cannot be used in DMs."), []), silence) /\
  dispatch_error ErrorHandler.an_environment
    (ErrorHandler.a_message "i.play a" "play" (Some ErrorHandler.play_command))
    (NoPrivateMessage, "Music commands cannot be used in DMs.") =
    [Send (Rich (Embed "❌ An Error Occurred" "Music commands cannot be used in DMs."
                   Color.red))].
Proof.
  destruct (music_errors_are_answered_by_the_cog_alone no_search plain in_dm (PlayQuery "a")
              silence) as (Hdm & _ & _ & Herr).
  split; [by apply Hdm|].
  by apply (Herr _ _ ErrorHandler.play_command).
Defined.

(** X25.  [disconnect] with the bot connected disconnects the player, confirms
    it, and forgets the guild: its state is dropped, so that the state read
    next is the default one, the guild is no longer among the connected ones,
    the states of the other guilds are kept, and a later [play_next] for the
    guild does nothing. *)
Theorem disconnect_forgets_the_guild :
  forall (ctx : context) (g : Z) (c : cog),
    is_Some (voice_client ctx) ->
    let out := disconnect ctx g c in
    out.1.2 = [Platform (Disconnect g);
               Platform (Send (Rich (create_embed ""
                  ("<a:success:1383116048932536380> Disconnected successfully."))))] /\
    guild_states out.2 !! g = None /\
    get_state g out.2 = new_state /\
    (g ∉ voice_clients out.2) /\
    (forall g', g' <> g -> get_state g' out.2 = get_state g' c) /\
    (forall env, (play_next env g out.2).1 = (None, [])).
Proof.
  intros ctx g c [p Hp] out. subst out. unfold disconnect. rewrite Hp. cbn [fst snd].
  assert (Hgone : g ∉ voice_clients (forget g c)).
  { unfold forget. simpl. rewrite elem_of_difference, elem_of_singleton. tauto. }
  split; [done|]. split; [apply lookup_delete_eq|].
  split; [unfold get_state, forget; simpl; by rewrite lookup_delete_eq|].
  split; [done|]. split.
  - intros g' Hne. unfold get_state, forget. simpl. by rewrite lookup_delete_ne.
  - intros env. unfold play_next. by rewrite decide_True.
Qed.

Lemma disconnect_forgets_the_guild_witness :
  get_state 1 (disconnect (listening None) 1 playing).2 = new_state.
Proof.
  destruct (disconnect_forgets_the_guild (listening None) 1 playing ltac:(by eexists))
    as (_ & _ & H & _).
  exact H.
Defined.

End MusicCommandProps.

(** ** cogs/error_handler.py and the owner check of cogs/power.py *)

Module ErrorReplyProps.
Import ErrorHandler ErrorHandlerProps.

Lemma handled_globally_guards ctx :
  handled_globally ctx ->
  match ctx_command ctx with Some c => on_error c | None => false end = false /\
  match ctx_command ctx with
  | Some c => default false (cog_command_error c)
  | None => false
  end = false.
Proof.
  unfold handled_globally. destruct (ctx_command ctx) as [c|]; [|done].
  intros [-> Hcog]. split; [done|]. by destruct (cog_command_error c) as [[]|].
Qed.

(** X26.  The invocation string that the error handler shows is at most 1024
    characters long, the limit of an embed field.  When the message consists
    of the prefix, the invoked name and arguments, and fits, it is the prefix,
    the full name of the command and the stripped arguments, between
    backquotes. *)
Theorem invocation_string_fits_an_embed_field :
  forall (ctx : context),
    (String.length (_get_command_invocation_string ctx) <= 1024)%nat /\
    (forall rest,
        content ctx = (clean_prefix ctx +:+ invoked_with ctx) +:+ rest ->
        content ctx <> "" -> Str.strip rest <> "" ->
        (String.length ("`" +:+ clean_prefix ctx +:+ command_name ctx +:+
                        (" " +:+ Str.strip rest) +:+ "`") <= 1020)%nat ->
        _get_command_invocation_string ctx =
          "`" +:+ clean_prefix ctx +:+ command_name ctx +:+ (" " +:+ Str.strip rest) +:+ "`").
Proof.
  intros ctx. split.
  - unfold _get_command_invocation_string. case_decide as Hlong.
    + match goal with
      | |- context [Str.take 1020 ?s] => pose proof (string_length_take 1020 s)
      end.
      rewrite string_length_app. change (String.length "...`") with 4%nat. lia.
    + lia.
  - intros rest Hcontent Hne Hargs Hshort. unfold _get_command_invocation_string.
    apply StrProps.truthy_iff in Hne. rewrite Hne. rewrite Hcontent.
    unfold Str.startswith. rewrite prefix_app, drop_app.
    apply StrProps.truthy_iff in Hargs. rewrite Hargs.
    rewrite decide_False by lia. done.
Qed.

Lemma invocation_string_fits_an_embed_field_witness :
  _get_command_invocation_string (a_message "i.kick  @bob  spam " "kick" (Some kick_command)) =
    "`i.kick @bob  spam`".
Proof.
  destruct (invocation_string_fits_an_embed_field
              (a_message "i.kick  @bob  spam " "kick" (Some kick_command))) as [_ H].
  apply (H "  @bob  spam "); [reflexivity|discriminate|by vm_compute|vm_compute; lia].
Defined.

(** X27.  [restart] and [shutdown] invoked by someone who is not an owner of
    the bot fail with [NotOwner] before anything is sent, so that no code is
    asked for; the error handler then writes one warning to the log and sends
    nothing. *)
Theorem only_the_owner_reaches_the_prompt :
  forall (env : Power.environment) (ctx : Power.context)
         (eenv : environment) (ectx : context),
    Power.is_owner ctx = false ->
    handled_globally ectx ->
    Power.restart_command env ctx = (Some NotOwner, []) /\
    Power.shutdown_command env ctx = (Some NotOwner, []) /\
    Power.handle eenv ectx (Power.restart_command env ctx) =
      [Log WARNING (log_prefix_katlog ectx +:+ "NotOwner: Attempt by non-owner.")] /\
    Power.handle eenv ectx (Power.shutdown_command env ctx) =
      [Log WARNING (log_prefix_katlog ectx +:+ "NotOwner: Attempt by non-owner.")].
Proof.
  intros env ctx eenv ectx Hno [Hlocal Hcog]%handled_globally_guards.
  unfold Power.handle, Power.restart_command, Power.shutdown_command, Power.check_owner.
  rewrite Hno. cbn [fst snd app]. unfold on_command_error. by rewrite Hlocal, Hcog.
Qed.

Lemma only_the_owner_reaches_the_prompt_witness :
  replies (Power.handle an_environment (a_message "i.restart" "restart" (Some restart_command_record))
             (Power.restart_command (Power.typing ["123456"]) (Power.mk_context 8 20 false)))
    = [].
Proof.
  destruct (only_the_owner_reaches_the_prompt (Power.typing ["123456"])
              (Power.mk_context 8 20 false) an_environment
              (a_message "i.restart" "restart" (Some restart_command_record)) eq_refl)
    as (_ & _ & H & _).
  { split; [reflexivity|discriminate]. }
  by rewrite H.
Defined.

End ErrorReplyProps.

(** ** utils/katlog.py *)

Module KatlogProps.
Import Katlog.

Lemma length_times n text : String.length (times n text) = (n * String.length text)%nat.
Proof. induction n as [|n IH]; [done|]. simpl. rewrite string_length_app, IH. lia. Qed.

(** X28.  [trace] writes nothing: the level TRACE (5) is below the level of
    the logger, DEBUG (10).  Every other level method writes one line: the
    timestamp, then in the colour of the level its name between brackets,
    padded to eight characters, a colon, and the message.  A level name that
    is not registered is logged as INFO. *)
Theorem trace_is_never_written :
  forall (timestamp message : string),
    trace timestamp message = None /\
    Forall (fun level =>
              exists color,
                _COLORS level = Some color /\
                _log timestamp level message =
                  Some (timestamp +:+ " " +:+ color +:+ ("[" +:+ ljust8 level +:+ "]") +:+
                        ":" +:+ _RESET +:+ " " +:+ message))
           written_levels /\
    (forall level,
        getLevelName level = None ->
        _log timestamp level message = info timestamp message).
Proof.
  intros timestamp message. split; [done|]. split.
  - unfold written_levels. repeat constructor; by eexists.
  - intros level Hl. unfold info, _log. by rewrite Hl.
Qed.

Lemma trace_is_never_written_witness :
  _log "12:00:00" "VERBOSE" "ready" = info "12:00:00" "ready" /\
  trace "12:00:00" "ready" = None.
Proof.
  destruct (trace_is_never_written "12:00:00" "ready") as (Htrace & _ & Hinfo).
  split; [by apply Hinfo|exact Htrace].
Defined.

Lemma length_banner w text :
  Z.of_nat (String.length (banner w text)) =
  2 * Z.max 0 ((w - Z.of_nat (String.length text) - 2) / 2) + Z.of_nat (String.length text) + 2.
Proof.
  unfold banner. rewrite !string_length_app, !length_times. simpl String.length. lia.
Qed.

(** X29.  [header] prints three lines in the colour asked for: a rule as wide
    as the terminal, the banner, and the rule again.  The banner is the text
    between two spaces with the same padding on both sides; when the text with
    its two spaces fits the terminal the banner is as wide as the terminal or
    one character less, and when fewer than two characters are left there is
    no padding. *)
Theorem banner_is_centred_and_fits :
  forall (terminal_width : Z) (text color_key : string),
    (exists color,
        header terminal_width text color_key =
          [nl +:+ color +:+ times (Z.to_nat terminal_width) "=" +:+ _RESET;
           color +:+ banner terminal_width text +:+ _RESET;
           color +:+ times (Z.to_nat terminal_width) "=" +:+ _RESET +:+ nl]) /\
    (exists padding, banner terminal_width text = padding +:+ (" " +:+ text +:+ " ") +:+ padding) /\
    (Z.of_nat (String.length text) + 2 <= terminal_width ->
     terminal_width - 1 <= Z.of_nat (String.length (banner terminal_width text))
       <= terminal_width) /\
    (terminal_width < Z.of_nat (String.length text) + 4 ->
     banner terminal_width text = " " +:+ text +:+ " ").
Proof.
  intros w text key. split; [|split; [|split]].
  - unfold header, banner. by eexists.
  - unfold banner. by eexists.
  - intros Hfit. rewrite length_banner. Z.div_mod_to_equations. lia.
  - intros Hnarrow. unfold banner.
    replace (Z.to_nat ((w - Z.of_nat (String.length text) - 2) / 2)) with O
      by (Z.div_mod_to_equations; lia).
    cbn [times]. change ("" +:+ (" " +:+ text +:+ " ") +:+ "") with ((" " +:+ text +:+ " ") +:+ "").
    clear. generalize (" " +:+ text +:+ " "). intros s.
    induction s as [|c s IH]; [done|].
    change (String c s +:+ "") with (String c (s +:+ "")). by rewrite IH.
Qed.

Lemma banner_is_centred_and_fits_witness :
  banner 30 "BOT INITIALIZING" = "      " +:+ " BOT INITIALIZING " +:+ "      " /\
  29 <= Z.of_nat (String.length (banner 30 "BOT INITIALIZING")) <= 30.
Proof.
  destruct (banner_is_centred_and_fits 30 "BOT INITIALIZING" "SYSTEM") as (_ & _ & Hfit & _).
  split; [reflexivity|]. apply Hfit. simpl. lia.
Defined.

End KatlogProps.

(** ** main.py *)

Module BotProps.
Import Bot.

Lemma load_cogs_acc listdir load acc :
  foldl (load_one load) acc listdir =
  (acc.1 + (_load_cogs listdir load).1, acc.2 ++ (_load_cogs listdir load).2).
Proof.
  unfold _load_cogs. revert acc. induction listdir as [|f l IH]; intros acc; simpl.
  - rewrite Z.add_0_r, app_nil_r. by destruct acc.
  - rewrite (IH (load_one load acc f)), (IH (load_one load (0, []) f)).
    generalize (foldl (load_one load) (0, []) l). intros r.
    unfold load_one. destruct (is_cog_file f); [destruct (load _)|]; simpl;
      rewrite <- ?app_assoc; f_equal; lia.
Qed.

Lemma load_cogs_app l1 l2 load :
  (_load_cogs (l1 ++ l2) load).1 = (_load_cogs l1 load).1 + (_load_cogs l2 load).1 /\
  (_load_cogs (l1 ++ l2) load).2 = (_load_cogs l1 load).2 ++ (_load_cogs l2 load).2.
Proof.
  assert (H : _load_cogs (l1 ++ l2) load =
              ((_load_cogs l1 load).1 + (_load_cogs l2 load).1,
               (_load_cogs l1 load).2 ++ (_load_cogs l2 load).2)).
  { unfold _load_cogs at 1. rewrite foldl_app. apply load_cogs_acc. }
  by rewrite H.
Qed.

(** X30.  [_load_cogs] counts the files of the directory that are cog files
    (ending in .py, not starting with an underscore) and whose extension
    loads; the failure of one extension does not stop the others, the count
    being the sum over the files before, the file and the files after; a file
    that is not a cog file is never reported as loaded. *)
Theorem load_cogs_counts_the_cogs_that_load :
  forall (listdir : list string) (load_extension : string -> option string),
    (_load_cogs listdir load_extension).1 =
      Z.of_nat (length (filter (fun f => loads load_extension f = true) listdir)) /\
    (forall before filename after,
        listdir = before ++ filename :: after ->
        (_load_cogs listdir load_extension).1 =
          (_load_cogs before load_extension).1 +
          (if loads load_extension filename then 1 else 0) +
          (_load_cogs after load_extension).1 /\
        (is_cog_file filename = false ->
         forall line, Log INFO line ∈ (_load_cogs [filename] load_extension).2 -> False)).
Proof.
  intros listdir load. split.
  - induction listdir as [|f l IH]; [done|].
    destruct (load_cogs_app [f] l load) as [Happ _]. change (f :: l) with ([f] ++ l).
    rewrite Happ, IH. rewrite filter_app, length_app. unfold _load_cogs, load_one, loads. simpl.
    rewrite filter_cons, filter_nil.
    destruct (is_cog_file f); [destruct (load _)|]; simpl;
      repeat case_decide; simpl; try done; lia.
  - intros before f after ->. split.
    + destruct (load_cogs_app before (f :: after) load) as [-> _].
      destruct (load_cogs_app [f] after load) as [Happ _].
      change (f :: after) with ([f] ++ after). rewrite Happ.
      unfold _load_cogs at 2, load_one, loads. simpl.
      destruct (is_cog_file f); [destruct (load _)|]; simpl; lia.
    + intros Hno line. unfold _load_cogs, load_one. simpl. rewrite Hno. simpl.
      by intros ?%elem_of_nil.
Qed.

Lemma load_cogs_counts_the_cogs_that_load_witness :
  _load_cogs ["__init__.py"; "music.py"; "notes.txt"; "ping.py"] broken_music =
    (1, [Log ERROR "Failed to load cog music: No module named 'mafic'";
         Log INFO "Loaded cog: ping"]) /\
  (_load_cogs ["__init__.py"; "music.py"; "notes.txt"; "ping.py"] broken_music).1 =
    (_load_cogs ["__init__.py"] broken_music).1 + 0 +
    (_load_cogs ["notes.txt"; "ping.py"] broken_music).1.
Proof.
  destruct (load_cogs_counts_the_cogs_that_load
              ["__init__.py"; "music.py"; "notes.txt"; "ping.py"] broken_music) as [_ H].
  destruct (H ["__init__.py"] "music.py" ["notes.txt"; "ping.py"] eq_refl) as [Hcount _].
  split; [by vm_compute|exact Hcount].
Defined.

End BotProps.
